(** * The upload / polling / inference pipeline of football-ai

    A shallow embedding of the resilient media pipeline of the repository:

    - [supabase/functions/analyze-large-video/index.ts] (module [LargeVideo]),
    - [supabase/functions/analyze-player-performance/index.ts]
      (module [PlayerPerformance]),
    - [src/services/geminiAI.ts], class [FootballAI] (module [FootballAI]),
    - the request handlers of the two functions (modules [LargeVideoFunction]
      and [PlayerPerformanceFunction]),
    - [src/App.tsx], the average and the improvements of a player's history
      (module [App]).

    Conventions of the embedding.

    - A JavaScript string is the list of its UTF-16 code units ([text]).
    - A JavaScript number is the rational it stands for ([Q]).  Where the
      outcome of the code depends on the rounding of IEEE doubles -- the
      sums of the candidate filter, the products of the fallback scores,
      the growth of the polling interval -- the operation is followed by
      [binary64], the rounding to the nearest double; elsewhere the
      arithmetic is exact.  Where a coercion can produce [NaN] or an
      infinity the type [num] is used.
    - [undefined] is [None] in [jsval := option json].
    - Asynchronous code is sequential code over an explicit [World]: a clock,
      a trace of the effects performed, and the oracles that stand for the
      network, the model and [Math.random]. *)

From Stdlib Require Import String Ascii.
From Stdlib Require Import List ZArith NArith QArith Qround Qpower Qreduction Qabs Lia Lqa Bool.
Import ListNotations.

Set Implicit Arguments.
Set Warnings "-register-all".

(* ================================================================= *)
(** * Text: strings as code units *)

Definition text := list N.

Definition u (s : string) : text := map N_of_ascii (list_ascii_of_string s).

Definition LBRACE : N := 123.
Definition RBRACE : N := 125.
Definition DQUOTE : N := 34.
Definition BACKSLASH : N := 92.
Definition BACKTICK : N := 96.

(** A JSON or JavaScript string literal: [quoted s] is ["s"]. *)
Definition quoted (s : string) : text := DQUOTE :: u s ++ [DQUOTE].

Fixpoint text_eqb (a b : text) : bool :=
  match a, b with
  | [], [] => true
  | x :: a', y :: b' => N.eqb x y && text_eqb a' b'
  | _, _ => false
  end.

Fixpoint is_prefix (p s : text) : bool :=
  match p, s with
  | [], _ => true
  | x :: p', y :: s' => N.eqb x y && is_prefix p' s'
  | _ :: _, [] => false
  end.

(** ECMAScript [WhiteSpace] and [LineTerminator] code units: what [\s] in a
    regular expression, [String.prototype.trim] and [StringToNumber] skip. *)
Definition is_js_space (c : N) : bool :=
  ((9 <=? c) && (c <=? 13) || (c =? 32) || (c =? 160) || (c =? 5760)
   || (8192 <=? c) && (c <=? 8202) || (c =? 8232) || (c =? 8233)
   || (c =? 8239) || (c =? 8287) || (c =? 12288) || (c =? 65279))%N.

(** [\w]: ASCII letters, digits and underscore. *)
Definition is_word (c : N) : bool :=
  ((48 <=? c) && (c <=? 57) || (65 <=? c) && (c <=? 90)
   || (97 <=? c) && (c <=? 122) || (c =? 95))%N.

Definition is_digit (c : N) : bool := ((48 <=? c) && (c <=? 57))%N.

Fixpoint trimStart (s : text) : text :=
  match s with
  | c :: r => if is_js_space c then trimStart r else s
  | [] => []
  end.

(** [String.prototype.trim] *)
Definition trim (s : text) : text := rev (trimStart (rev (trimStart s))).

(** [String.prototype.indexOf] for a one-unit needle; [None] is [-1]. *)
Fixpoint indexOf (c : N) (s : text) : option nat :=
  match s with
  | [] => None
  | x :: r => if N.eqb x c then Some O
              else match indexOf c r with Some i => Some (S i) | None => None end
  end.

(** [String.prototype.lastIndexOf] for a one-unit needle. *)
Fixpoint lastIndexOf (c : N) (s : text) : option nat :=
  match s with
  | [] => None
  | x :: r => match lastIndexOf c r with
              | Some i => Some (S i)
              | None => if N.eqb x c then Some O else None
              end
  end.

(** [String.prototype.substring(a, b)]: the arguments are clamped to the
    length and swapped when [a > b]. *)
Definition substring (a b : nat) (s : text) : text :=
  let a' := Nat.min a (length s) in
  let b' := Nat.min b (length s) in
  let lo := Nat.min a' b' in
  let hi := Nat.max a' b' in
  firstn (hi - lo) (skipn lo s).

(** Decimal rendering of a natural number, [Number.prototype.toString] on
    non-negative integers. *)
Fixpoint digits_of (fuel : nat) (n : N) (acc : text) : text :=
  match fuel with
  | O => acc
  | S f =>
      let acc' := (48 + n mod 10)%N :: acc in
      if (n <? 10)%N then acc' else digits_of f (n / 10)%N acc'
  end.

Definition N_toString (n : N) : text := digits_of (S (N.to_nat (N.log2 n))) n [].

(* ================================================================= *)
(** * Numbers *)

Definition Qlt_bool (a b : Q) : bool := negb (Qle_bool b a).

(** [Math.min] and [Math.max] on finite numbers. *)
Definition Math_min (a b : Q) : Q := if Qle_bool a b then a else b.
Definition Math_max (a b : Q) : Q := if Qle_bool a b then b else a.

(** The clamp idiom [Math.max(lo, Math.min(hi, v))]. *)
Definition clamp (lo hi v : Q) : Q := Math_max lo (Math_min hi v).

Definition Math_floor (q : Q) : Z := Qfloor q.
Definition Math_ceil (q : Q) : Z := Qceiling q.
(** [Math.round]: the nearest integer, ties towards +infinity. *)
Definition Math_round (q : Q) : Z := Qfloor (q + (1 # 2)).

(** ** The rounding of IEEE 754 doubles *)

(** The nearest integer, a tie going to the even one. *)
Definition round_half_even (q : Q) : Z :=
  let f := Qfloor q in
  let r := q - inject_Z f in
  if Qlt_bool r (1 # 2) then f
  else if Qlt_bool (1 # 2) r then (f + 1)%Z
  else if Z.even f then f else (f + 1)%Z.

(** For [0 < q], the [k] with [2^k <= q < 2^(k+1)]. *)
Definition exponent (q : Q) : Z :=
  let k := (Z.log2 (Qnum q) - Z.log2 (Zpos (Qden q)))%Z in
  if Qle_bool (2 ^ k) q then k else (k - 1)%Z.

(** The double nearest to [q], for [0 < q]: 53 significant bits, or a
    multiple of [2^-1074] for a subnormal number. *)
Definition binary64_pos (q : Q) : Q :=
  let e := Z.max (exponent q - 52) (-1074) in
  inject_Z (round_half_even (q / 2 ^ e)) * 2 ^ e.

(** The result of an arithmetic operation whose exact value is [q]: the
    nearest double, a tie going to the even significand.  The overflow to
    an infinity (beyond [2^1024]) is not modelled: the value is then a
    number above every double. *)
Definition binary64 (q : Q) : Q :=
  match Qnum q with
  | Z0 => 0
  | Zpos _ => Qred (binary64_pos q)
  | Zneg _ => Qred (- binary64_pos (- q))
  end.

(** Numbers that may be [NaN] or infinite: the results of [Number(v)]. *)
Inductive num : Type :=
| NaN
| NegInf
| Fin (q : Q)
| PosInf.

(** [a <= b] on [num]; every comparison with [NaN] is false. *)
Definition num_leb (a b : num) : bool :=
  match a, b with
  | NaN, _ | _, NaN => false
  | NegInf, _ => true
  | _, PosInf => true
  | Fin x, Fin y => Qle_bool x y
  | _, _ => false
  end.

(** [Math.min] and [Math.max] in general: [NaN] is contagious. *)
Definition num_min (a b : num) : num :=
  match a, b with
  | NaN, _ | _, NaN => NaN
  | _, _ => if num_leb a b then a else b
  end.

Definition num_max (a b : num) : num :=
  match a, b with
  | NaN, _ | _, NaN => NaN
  | _, _ => if num_leb a b then b else a
  end.

(** Truthiness of a number: [0] and [NaN] are falsy. *)
Definition num_truthy (a : num) : bool :=
  match a with
  | NaN => false
  | Fin q => negb (Qeq_bool q 0)
  | _ => true
  end.

(** [a || d] on numbers. *)
Definition num_or (a d : num) : num := if num_truthy a then a else d.

(* ================================================================= *)
(** * JSON values *)

Inductive json : Type :=
| JNull
| JBool (b : bool)
| JNum (q : Q)
| JStr (s : text)
| JArr (l : list json)
| JObj (m : list (text * json)).

(** A JavaScript value reachable from parsed JSON; [None] is [undefined]. *)
Definition jsval := option json.

(** What the modelled code can throw.  The constructors of [Error] messages
    carry the data the source interpolates into the message. *)
Inductive exn : Type :=
| TypeError            (* property read on null/undefined, call of a non-function *)
| SyntaxError          (* JSON.parse, Response.json *)
| NetworkError         (* fetch rejected *)
| Err (msg : string)   (* new Error(msg) *)
| ErrStatus (msg : string) (status : Z)   (* new Error(`msg: ${status}`) *)
| ErrFrom (msg : string) (cause : exn).   (* new Error(`msg: ${cause.message}`) *)

Inductive result (A : Type) : Type :=
| Ok (a : A)
| Throw (e : exn).
Arguments Ok {A} a.
Arguments Throw {A} e.

(** Own property lookup in an object literal produced by [JSON.parse]: of
    two members with one key the later one wins. *)
Fixpoint lookup (k : text) (m : list (text * json)) : jsval :=
  match m with
  | [] => None
  | (k', v) :: r =>
      match lookup k r with
      | Some x => Some x
      | None => if text_eqb k' k then Some v else None
      end
  end.

(** [v.k] for the property names the pipeline reads ([players], [x],
    [overall], ...): none of them is a built-in property of arrays, strings,
    numbers or booleans, so only objects answer.  [null.k] throws. *)
Definition get (v : json) (k : string) : result jsval :=
  match v with
  | JNull => Throw TypeError
  | JObj m => Ok (lookup (u k) m)
  | _ => Ok None
  end.

(** [v.k] where [v] may be [undefined]. *)
Definition getv (v : jsval) (k : string) : result jsval :=
  match v with
  | None => Throw TypeError
  | Some j => get j k
  end.

(** [v?.k] *)
Definition get_opt (v : jsval) (k : string) : jsval :=
  match v with
  | Some (JObj m) => lookup (u k) m
  | _ => None
  end.

(** [v[0]] *)
Definition get0 (v : jsval) : result jsval :=
  match v with
  | None | Some JNull => Throw TypeError
  | Some (JArr l) => Ok (nth_error l 0)
  | Some (JObj m) => Ok (lookup (u "0") m)
  | Some (JStr s) => Ok (match s with c :: _ => Some (JStr [c]) | [] => None end)
  | Some _ => Ok None
  end.

(** Truthiness. *)
Definition truthy (v : jsval) : bool :=
  match v with
  | None | Some JNull => false
  | Some (JBool b) => b
  | Some (JNum q) => negb (Qeq_bool q 0)
  | Some (JStr s) => match s with [] => false | _ => true end
  | Some (JArr _) | Some (JObj _) => true
  end.

(** [a || b] *)
Definition js_or (a b : jsval) : jsval := if truthy a then a else b.

(** [typeof v === 'number' ? v : d] *)
Definition number_or (v : jsval) (d : Q) : Q :=
  match v with
  | Some (JNum q) => q
  | _ => d
  end.

(** [v === 'lit'] for a string literal. *)
Definition is_string (v : jsval) (lit : string) : bool :=
  match v with
  | Some (JStr s) => text_eqb s (u lit)
  | _ => false
  end.

(* ----------------------------------------------------------------- *)
(** ** Decimal literals *)

Fixpoint take_digits (s : text) : text * text :=
  match s with
  | c :: r => if is_digit c
              then let (d, r') := take_digits r in (c :: d, r')
              else ([], s)
  | [] => ([], [])
  end.

Definition digits_to_N (ds : text) : N :=
  fold_left (fun a d => (10 * a + (d - 48))%N) ds 0%N.

(** The value of [ip.fp e(+/-)ep], with an optional minus sign in front. *)
Definition decimal_value (neg : bool) (ip fp : text) (eneg : bool) (ep : text) : Q :=
  let m := Z.of_N (digits_to_N (ip ++ fp)) in
  let e0 := Z.of_N (digits_to_N ep) in
  let e := ((if eneg then - e0 else e0) - Z.of_nat (length fp))%Z in
  let v := if (0 <=? e)%Z then inject_Z (m * 10 ^ e)
           else Qmake m (Z.to_pos (10 ^ (- e))) in
  Qred (if neg then - v else v).

(** An optional exponent part [e] / [E], sign, one digit at least. *)
Definition take_exponent (s : text) : option (bool * text * text) :=
  match s with
  | c :: r =>
      if (c =? 101)%N || (c =? 69)%N then
        let '(eneg, r1) :=
          match r with
          | sgn :: r' => if (sgn =? 45)%N then (true, r')
                         else if (sgn =? 43)%N then (false, r') else (false, r)
          | [] => (false, r)
          end in
        let (ep, r2) := take_digits r1 in
        match ep with [] => None | _ => Some (eneg, ep, r2) end
      else Some (false, [], s)
  | [] => Some (false, [], [])
  end.

(* ----------------------------------------------------------------- *)
(** ** [Number(v)] *)

Definition hex_val (c : N) : option N :=
  if is_digit c then Some (c - 48)%N
  else if ((65 <=? c) && (c <=? 70))%N then Some (c - 55)%N
  else if ((97 <=? c) && (c <=? 102))%N then Some (c - 87)%N
  else None.

(** Digits of a [0x], [0o] or [0b] literal. *)
Fixpoint radix_value (base : N) (s : text) (acc : N) : option N :=
  match s with
  | [] => Some acc
  | c :: r => match hex_val c with
              | Some d => if (d <? base)%N then radix_value base r (base * acc + d)%N
                          else None
              | None => None
              end
  end.

Definition radix_literal (base : N) (ds : text) : num :=
  match ds with
  | [] => NaN
  | _ => match radix_value base ds 0%N with
         | Some n => Fin (inject_Z (Z.of_N n))
         | None => NaN
         end
  end.

(** [StrDecimalLiteral] after its sign: digits with an optional fraction and
    exponent, [.5] and [5.] included. *)
Definition unsigned_decimal (neg : bool) (s : text) : num :=
  let (ip, r1) := take_digits s in
  let '(dot, fp, r2) :=
    match r1 with
    | c :: r => if (c =? 46)%N
                then let (fp, r2) := take_digits r in (true, fp, r2)
                else (false, [], r1)
    | [] => (false, [], [])
    end in
  match ip, fp with
  | [], [] => NaN
  | _, _ =>
      match take_exponent r2 with
      | Some (eneg, ep, []) => Fin (decimal_value neg ip fp eneg ep)
      | _ => NaN
      end
  end.

(** The abstract operation [StringToNumber]. *)
Definition StringToNumber (s : text) : num :=
  match trim s with
  | [] => Fin 0
  | (c :: r) as t =>
      if text_eqb t (u "Infinity") || text_eqb t (u "+Infinity") then PosInf
      else if text_eqb t (u "-Infinity") then NegInf
      else if is_prefix (u "0x") t || is_prefix (u "0X") t then radix_literal 16 (tl r)
      else if is_prefix (u "0o") t || is_prefix (u "0O") t then radix_literal 8 (tl r)
      else if is_prefix (u "0b") t || is_prefix (u "0B") t then radix_literal 2 (tl r)
      else if (c =? 45)%N then unsigned_decimal true r
      else if (c =? 43)%N then unsigned_decimal false r
      else unsigned_decimal false t
  end.

(** [Number(v)] on parsed JSON.  An array is converted through its
    [toString]: the empty array gives [0], a one-element array the number of
    its element's string, a longer one contains a comma and gives [NaN]. *)
Fixpoint ToNumber (v : json) : num :=
  match v with
  | JNull => Fin 0
  | JBool b => Fin (if b then 1 else 0)
  | JNum q => Fin q
  | JStr s => StringToNumber s
  | JArr [] => Fin 0
  | JArr [x] =>
      match x with
      | JNull => Fin 0
      | JBool _ | JObj _ => NaN
      | _ => ToNumber x
      end
  | JArr _ => NaN
  | JObj _ => NaN
  end.

Definition Number (v : jsval) : num :=
  match v with
  | None => NaN
  | Some j => ToNumber j
  end.

(* ----------------------------------------------------------------- *)
(** ** [JSON.parse] *)

Module JSON.

(** JSON whitespace: space, tab, line feed, carriage return. *)
Definition is_ws (c : N) : bool :=
  ((c =? 32) || (c =? 9) || (c =? 10) || (c =? 13))%N.

Fixpoint skip_ws (s : text) : text :=
  match s with
  | c :: r => if is_ws c then skip_ws r else s
  | [] => []
  end.

(** A JSON number: an optional minus sign, an integer part without a
    leading zero, an optional fraction and an optional exponent. *)
Definition parse_number (s : text) : option (Q * text) :=
  let '(neg, s1) :=
    match s with
    | c :: r => if (c =? 45)%N then (true, r) else (false, s)
    | [] => (false, s)
    end in
  let (ip, r1) := take_digits s1 in
  let int_ok :=
    match ip with
    | [] => false
    | [_] => true
    | d :: _ => negb (d =? 48)%N
    end in
  if negb int_ok then None else
  let frac :=
    match r1 with
    | c :: r => if (c =? 46)%N
                then let (fp, r2) := take_digits r in
                     match fp with [] => None | _ => Some (fp, r2) end
                else Some ([], r1)
    | [] => Some ([], [])
    end in
  match frac with
  | None => None
  | Some (fp, r2) =>
      match take_exponent r2 with
      | Some (eneg, ep, r3) => Some (decimal_value neg ip fp eneg ep, r3)
      | None => None
      end
  end.

Definition simple_escape (c : N) : option N :=
  if (c =? 34)%N then Some 34%N          (* the quote *)
  else if (c =? 92)%N then Some 92%N     (* backslash *)
  else if (c =? 47)%N then Some 47%N     (* slash *)
  else if (c =? 98)%N then Some 8%N      (* escape b *)
  else if (c =? 102)%N then Some 12%N    (* escape f *)
  else if (c =? 110)%N then Some 10%N    (* escape n *)
  else if (c =? 114)%N then Some 13%N    (* escape r *)
  else if (c =? 116)%N then Some 9%N     (* escape t *)
  else None.

Definition hex4 (a b c d : N) : option N :=
  match hex_val a, hex_val b, hex_val c, hex_val d with
  | Some x, Some y, Some z, Some w => Some (((x * 16 + y) * 16 + z) * 16 + w)%N
  | _, _, _, _ => None
  end.

(** The characters of a string after its opening quote, up to the closing
    one.  [n] bounds the number of characters read. *)
Fixpoint parse_string (n : nat) (s : text) (acc : text) : option (text * text) :=
  match n with
  | O => None
  | S n' =>
      match s with
      | [] => None
      | c :: r =>
          if (c =? DQUOTE)%N then Some (rev acc, r)
          else if (c =? BACKSLASH)%N then
            match r with
            | e :: r' =>
                if (e =? 117)%N then
                  match r' with
                  | h1 :: h2 :: h3 :: h4 :: r'' =>
                      match hex4 h1 h2 h3 h4 with
                      | Some cu => parse_string n' r'' (cu :: acc)
                      | None => None
                      end
                  | _ => None
                  end
                else
                  match simple_escape e with
                  | Some x => parse_string n' r' (x :: acc)
                  | None => None
                  end
            | [] => None
            end
          else if (c <? 32)%N then None
          else parse_string n' r (c :: acc)
      end
  end.

(** Recursive descent; [n] bounds the nesting of calls. *)
Fixpoint parse_value (n : nat) (s : text) {struct n} : option (json * text) :=
  match n with
  | O => None
  | S n' =>
      match skip_ws s with
      | [] => None
      | (c :: r) as t =>
          if (c =? LBRACE)%N then
            match skip_ws r with
            | c' :: r' => if (c' =? RBRACE)%N then Some (JObj [], r')
                          else parse_members n' r []
            | [] => None
            end
          else if (c =? 91)%N then
            match skip_ws r with
            | c' :: r' => if (c' =? 93)%N then Some (JArr [], r')
                          else parse_elements n' r []
            | [] => None
            end
          else if (c =? DQUOTE)%N then
            match parse_string (S (length r)) r [] with
            | Some (str, r') => Some (JStr str, r')
            | None => None
            end
          else if is_prefix (u "true") t then Some (JBool true, skipn 4 t)
          else if is_prefix (u "false") t then Some (JBool false, skipn 5 t)
          else if is_prefix (u "null") t then Some (JNull, skipn 4 t)
          else match parse_number t with
               | Some (q, r') => Some (JNum q, r')
               | None => None
               end
      end
  end
with parse_elements (n : nat) (s : text) (acc : list json) {struct n}
  : option (json * text) :=
  match n with
  | O => None
  | S n' =>
      match parse_value n' s with
      | Some (v, r) =>
          match skip_ws r with
          | c :: r' =>
              if (c =? 44)%N then parse_elements n' r' (v :: acc)
              else if (c =? 93)%N then Some (JArr (rev (v :: acc)), r')
              else None
          | [] => None
          end
      | None => None
      end
  end
with parse_members (n : nat) (s : text) (acc : list (text * json)) {struct n}
  : option (json * text) :=
  match n with
  | O => None
  | S n' =>
      match skip_ws s with
      | c :: r =>
          if (c =? DQUOTE)%N then
            match parse_string (S (length r)) r [] with
            | Some (k, r1) =>
                match skip_ws r1 with
                | c1 :: r2 =>
                    if (c1 =? 58)%N then
                      match parse_value n' r2 with
                      | Some (v, r3) =>
                          match skip_ws r3 with
                          | c3 :: r4 =>
                              if (c3 =? 44)%N
                              then parse_members n' r4 ((k, v) :: acc)
                              else if (c3 =? RBRACE)%N
                              then Some (JObj (rev ((k, v) :: acc)), r4)
                              else None
                          | [] => None
                          end
                      | None => None
                      end
                    else None
                | [] => None
                end
            | None => None
            end
          else None
      | [] => None
      end
  end.

(** [JSON.parse(s)]; [None] is the [SyntaxError].  Every call of the
    descent reads a character before the second next call, so twice the
    length of the text bounds the nesting. *)
Definition parse (s : text) : option json :=
  match parse_value (2 * length s + 2) s with
  | Some (v, r) => match skip_ws r with [] => Some v | _ => None end
  | None => None
  end.

End JSON.

(* ================================================================= *)
(** * Regular expressions

    The backtracking matcher of ECMAScript, for the operators the source's
    patterns use.  A pattern is matched against the rest of the subject with
    a continuation that stands for what follows it; the first success in
    priority order wins. *)

Module Regex.

Inductive regex : Type :=
| Chr (p : N -> bool)              (* one code unit of a class *)
| Eps                              (* the empty pattern *)
| Seq (r1 r2 : regex)
| Alt (r1 r2 : regex)              (* r1|r2 *)
| Star (greedy : bool) (r : regex) (* r* and r*? *)
| Group (i : nat) (r : regex)      (* capturing group number i *)
| Ahead (r : regex)                (* (?=r) *)
| Bol                              (* ^ without the m flag *)
| Eol.                             (* $ without the m flag *)

Record mstate : Type := MState {
  pos : nat;                       (* index of the next code unit *)
  rest : text;                     (* the subject from [pos] on *)
  caps : list (nat * (nat * nat))  (* group number, start and end index *)
}.

(** The loop of [r*] and [r*?], given the matcher [m] of [r] and the
    continuation [k] of the star.  An iteration that consumes nothing is
    rejected, so the length of the rest bounds the number [n] of iterations. *)
Fixpoint star_loop (greedy : bool)
  (m : mstate -> (mstate -> option mstate) -> option mstate)
  (k : mstate -> option mstate) (n : nat) (st : mstate) {struct n} : option mstate :=
  match n with
  | O => k st
  | S n' =>
      let again st' := if Nat.eqb (pos st') (pos st) then None
                       else star_loop greedy m k n' st' in
      if greedy then
        match m st again with
        | Some x => Some x
        | None => k st
        end
      else
        match k st with
        | Some x => Some x
        | None => m st again
        end
  end.

Fixpoint rmatch (r : regex) (st : mstate) (k : mstate -> option mstate)
  {struct r} : option mstate :=
  match r with
  | Chr p =>
      match rest st with
      | c :: s' => if p c then k (MState (S (pos st)) s' (caps st)) else None
      | [] => None
      end
  | Eps => k st
  | Seq r1 r2 => rmatch r1 st (fun st' => rmatch r2 st' k)
  | Alt r1 r2 =>
      match rmatch r1 st k with
      | Some x => Some x
      | None => rmatch r2 st k
      end
  | Star g r' => star_loop g (rmatch r') k (S (length (rest st))) st
  | Group i r' =>
      rmatch r' st
        (fun st' => k (MState (pos st') (rest st') ((i, (pos st, pos st')) :: caps st')))
  | Ahead r' =>
      match rmatch r' st Some with
      | Some st' => k (MState (pos st) (rest st) (caps st'))
      | None => None
      end
  | Bol => if Nat.eqb (pos st) 0 then k st else None
  | Eol => match rest st with [] => k st | _ => None end
  end.

(** The leftmost match: start positions are tried from [i] on. *)
Fixpoint exec_from (r : regex) (i : nat) (s : text) : option (nat * mstate) :=
  match rmatch r (MState i s []) Some with
  | Some st => Some (i, st)
  | None =>
      match s with
      | [] => None
      | _ :: s' => exec_from r (S i) s'
      end
  end.

Definition exec (r : regex) (s : text) : option (nat * mstate) := exec_from r 0 s.

Definition slice (a b : nat) (s : text) : text := firstn (b - a) (skipn a s).

(** [s.match(r)] for a pattern without the g flag: the matched text and
    the text of capture group 1, or [None] for [null]. *)
Definition str_match (r : regex) (s : text) : option (text * option text) :=
  match exec r s with
  | Some (a, st) =>
      Some (slice a (pos st) s,
            match find (fun c => Nat.eqb (fst c) 1) (caps st) with
            | Some (_, (x, y)) => Some (slice x y s)
            | None => None
            end)
  | None => None
  end.

(** [s.replace(r, by_)] for a pattern without the g flag and a
    replacement without dollar patterns: the first match is replaced. *)
Definition replace (r : regex) (by_ : text) (s : text) : text :=
  match exec r s with
  | Some (a, st) => firstn a s ++ by_ ++ rest st
  | None => s
  end.

(** [s.replace(/lit/g, '')] for a literal, non-empty pattern: every
    occurrence is deleted, left to right, without overlap.  [skip] counts
    the units of the current occurrence still to drop. *)
Fixpoint remove_all_from (lit : text) (skip : nat) (s : text) : text :=
  match s with
  | [] => []
  | c :: s' =>
      match skip with
      | S n => remove_all_from lit n s'
      | O => if is_prefix lit s then remove_all_from lit (length lit - 1) s'
             else c :: remove_all_from lit 0 s'
      end
  end.

Definition remove_all (lit : text) (s : text) : text := remove_all_from lit 0 s.

(** A literal as a pattern. *)
Fixpoint lit (s : text) : regex :=
  match s with
  | [] => Eps
  | c :: s' => Seq (Chr (N.eqb c)) (lit s')
  end.

Definition lbrace : regex := Chr (N.eqb LBRACE).
Definition rbrace : regex := Chr (N.eqb RBRACE).
(** [[\s\S]] *)
Definition any : regex := Chr (fun c => is_js_space c || negb (is_js_space c)).
(** [\s] *)
Definition space : regex := Chr is_js_space.
(** [[^{}]] *)
Definition no_brace : regex := Chr (fun c => negb (N.eqb c LBRACE || N.eqb c RBRACE)).
(** [[\w\s]] *)
Definition word_or_space : regex := Chr (fun c => is_word c || is_js_space c).

End Regex.

(* ================================================================= *)
(** * The world: clock, network, model and randomness

    An asynchronous function of the source is a function from the world
    before it runs to its outcome and the world after.  The network, the
    generative model and [Math.random] are oracles: the [k]-th use of each
    reads the [k]-th answer.  [trace] lists the effects in the order they
    happened. *)

Inductive Command : Type :=
| Upload            (* X-Goog-Upload-Command: upload *)
| UploadFinalize.   (* X-Goog-Upload-Command: upload, finalize *)

Record File : Type := MkFile {
  file_name : text;   (* File.name *)
  file_size : N;      (* File.size, a byte count *)
  file_type : text    (* File.type, the MIME type *)
}.

Inductive request : Type :=
| StartUpload (declaredLength : Z) (mime displayName : text)
    (* POST upload/v1beta/files, X-Goog-Upload-Command: start *)
| PutBytes (uploadUrl : text) (contentLength offset : Z) (command : Command)
           (bodyFrom bodyTo : Z)
    (* PUT uploadUrl with Content-Length, X-Goog-Upload-Offset and
       X-Goog-Upload-Command; the body is the bytes bodyFrom..bodyTo-1 of the file *)
| GetFile (fileName : jsval)       (* GET v1beta/fileName *)
| GenerateContent (mime : jsval) (fileUri : jsval)
    (* POST models/gemini-1.5-flash:generateContent with a file reference *)
| GenerateFromFrame (frameData : jsval)
    (* model.generateContent([prompt, inlineData]) of the client SDK *)
| DeleteFile (fileName : jsval).

Record response : Type := MkResponse {
  status : Z;
  uploadUrlHeader : option text;   (* the X-Goog-Upload-URL header *)
  body : text
}.

(** [response.ok] *)
Definition ok (r : response) : bool := ((200 <=? status r) && (status r <=? 299))%Z.

Inductive event : Type :=
| Fetch (r : request)
| Sleep (ms : Q)                 (* setTimeout(resolve, ms) awaited *)
| ConsoleError (e : exn).        (* console.error with a caught exception *)

Record World : Type := MkWorld {
  clock : Q;                          (* Date.now(), in milliseconds *)
  trace : list event;
  fetches : nat;                      (* network requests made so far *)
  draws : nat;                        (* Math.random calls made so far *)
  net : nat -> option response;       (* None: the request is rejected *)
  latency : nat -> N;                 (* how long the k-th request takes *)
  random : nat -> N                   (* the bits behind the k-th draw *)
}.

Definition M (A : Type) : Type := World -> result A * World.

Definition ret {A} (a : A) : M A := fun w => (Ok a, w).
Definition throw {A} (e : exn) : M A := fun w => (Throw e, w).
Definition bind {A B} (m : M A) (f : A -> M B) : M B :=
  fun w => match m w with
           | (Ok a, w') => f a w'
           | (Throw e, w') => (Throw e, w')
           end.
(** [try { m } catch (e) { h e }] *)
Definition try_catch {A} (m : M A) (h : exn -> M A) : M A :=
  fun w => match m w with
           | (Throw e, w') => h e w'
           | r => r
           end.
Definition lift {A} (r : result A) : M A := fun w => (r, w).

Declare Scope io_scope.
Delimit Scope io_scope with io.
Notation "x <- m ;; k" := (bind m (fun x => k))
  (at level 61, m at next level, right associativity) : io_scope.
Notation "m ;;; k" := (bind m (fun _ => k))
  (at level 61, right associativity) : io_scope.
Open Scope io_scope.

Definition log (e : event) : M unit :=
  fun w => (Ok tt, MkWorld (clock w) (trace w ++ [e]) (fetches w) (draws w)
                           (net w) (latency w) (random w)).

(** [Date.now()] *)
Definition now : M Q := fun w => (Ok (clock w), w).

(** [await new Promise(resolve => setTimeout(resolve, ms))]: the clock
    advances by the delay. *)
Definition sleep (ms : Q) : M unit :=
  fun w => (Ok tt, MkWorld (clock w + ms) (trace w ++ [Sleep ms]) (fetches w)
                           (draws w) (net w) (latency w) (random w)).

(** [await fetch(...)]: rejected with a network error or resolved with a
    response, whatever its status. *)
Definition fetch (r : request) : M response :=
  fun w =>
    let k := fetches w in
    let w' := MkWorld (clock w + inject_Z (Z.of_N (latency w k)))
                      (trace w ++ [Fetch r]) (S k) (draws w)
                      (net w) (latency w) (random w) in
    match net w k with
    | Some resp => (Ok resp, w')
    | None => (Throw NetworkError, w')
    end.

(** [Math.random()]: a multiple of 2^-53 in [0, 1). *)
Definition Math_random : M Q :=
  fun w =>
    let k := draws w in
    (Ok (Qmake (Z.of_N (random w k mod 2 ^ 53)) (2 ^ 53)),
     MkWorld (clock w) (trace w) (fetches w) (S k) (net w) (latency w) (random w)).

(** [await response.json()] *)
Definition json_of (r : response) : M json :=
  match JSON.parse (body r) with
  | Some v => ret v
  | None => throw SyntaxError
  end.

(** The PUT requests of a trace, in order. *)
Definition puts (t : list event) : list request :=
  flat_map (fun e => match e with
                     | Fetch (PutBytes a b c d e1 f) => [PutBytes a b c d e1 f]
                     | _ => []
                     end) t.

(** The delays slept in a trace, in order. *)
Definition sleeps (t : list event) : list Q :=
  flat_map (fun e => match e with Sleep ms => [ms] | _ => [] end) t.

(** The status polls of a trace. *)
Definition polls (t : list event) : list request :=
  flat_map (fun e => match e with
                     | Fetch (GetFile f) => [GetFile f]
                     | _ => []
                     end) t.

(** The network requests of a trace. *)
Definition requests (t : list event) : list request :=
  flat_map (fun e => match e with Fetch r => [r] | _ => [] end) t.

(** [(index + 1).toString()] *)
Definition index_label (index : nat) : json := JStr (N_toString (N.of_nat (index + 1))).

(** [index + 1] as a number value *)
Definition index_number (index : nat) : json := JNum (inject_Z (Z.of_nat (index + 1))).

(** [v + d] where [d] is a number and [v] is truthy: numeric addition for a
    number or [true].  For a string, an array or an object JavaScript
    concatenates [v] with the decimal rendering of [d]; the number of that
    string is not defined in this model ([None]). *)
Definition plus_number (v : jsval) (d : Q) : option Q :=
  match v with
  | Some (JNum q) => Some (q + d)
  | Some (JBool true) => Some (1 + d)
  | _ => None
  end.

(** [arr.map((item, index) => f item index)] with an effectful callback *)
Fixpoint mapi_M {A B} (f : A -> nat -> M B) (l : list A) (index : nat) : M (list B) :=
  match l with
  | [] => ret []
  | a :: l' =>
      b <- f a index ;;
      bs <- mapi_M f l' (S index) ;;
      ret (b :: bs)
  end.

(** [arr.filter(p)] with a predicate that may throw *)
Fixpoint filter_R {A} (p : A -> result bool) (l : list A) : result (list A) :=
  match l with
  | [] => Ok []
  | a :: l' =>
      match p a with
      | Throw e => Throw e
      | Ok b =>
          match filter_R p l' with
          | Throw e => Throw e
          | Ok r => Ok (if b then a :: r else r)
          end
      end
  end.

(** [Array.from({ length: n }, (_, i) => f i)] with an effectful callback *)
Fixpoint tabulate_M {A} (f : nat -> M A) (n i : nat) : M (list A) :=
  match n with
  | O => ret []
  | S n' =>
      a <- f i ;;
      r <- tabulate_M f n' (S i) ;;
      ret (a :: r)
  end.

(* ================================================================= *)
(** * supabase/functions/analyze-large-video/index.ts *)

Module LargeVideo.

(** [waitForFileProcessing(fileName, apiKey, maxWaitTime = 300000)].  The
    loop sleeps five seconds in every round that goes on, so
    [ceil(maxWaitTime / 5000) + 1] rounds are enough; [rounds] counts them
    down, and reaching zero is reported as an error that never happens. *)
Fixpoint poll (rounds : nat) (fileName : jsval) (startTime maxWaitTime : Q) : M json :=
  match rounds with
  | O => throw (Err "rounds exhausted")
  | S rounds' =>
      t <- now ;;
      if Qlt_bool (t - startTime) maxWaitTime then
        statusResponse <- fetch (GetFile fileName) ;;
        if negb (ok statusResponse)
        then throw (ErrStatus "file status check failed" (status statusResponse))
        else
          fileStatus <- json_of statusResponse ;;
          state <- lift (get fileStatus "state") ;;
          if is_string state "ACTIVE" then ret fileStatus
          else if is_string state "FAILED" then throw (Err "file processing failed")
          else
            (* wait 5 seconds, then check again *)
            sleep 5000 ;;;
            poll rounds' fileName startTime maxWaitTime
      else throw (Err "file processing timed out")
  end.

Definition rounds_for (maxWaitTime : Q) : nat :=
  S (Z.to_nat (Qceiling (maxWaitTime / 5000))).

Definition waitForFileProcessing (fileName : jsval) (maxWaitTime : Q) : M json :=
  startTime <- now ;;
  poll (rounds_for maxWaitTime) fileName startTime maxWaitTime.

Definition defaultMaxWaitTime : Q := 300000.

(** [uploadVideoToFilesAPI(videoFile, apiKey)]: start a resumable upload,
    send the whole file in one PUT, wait for processing. *)
Definition uploadVideoToFilesAPI (videoFile : File) : M jsval :=
  let fileSize := Z.of_N (file_size videoFile) in
  metadataResponse <-
    fetch (StartUpload fileSize (file_type videoFile) (file_name videoFile)) ;;
  if negb (ok metadataResponse)
  then throw (ErrStatus "Files API metadata request failed" (status metadataResponse))
  else
    match uploadUrlHeader metadataResponse with
    | None | Some [] =>
        (* [!uploadUrl]: the header is absent or its value is empty *)
        throw (Err "no upload URL received")
    | Some uploadUrl =>
        uploadResponse <-
          fetch (PutBytes uploadUrl fileSize 0 UploadFinalize 0 fileSize) ;;
        if negb (ok uploadResponse)
        then throw (ErrStatus "Files API file upload failed" (status uploadResponse))
        else
          uploadResult <- json_of uploadResponse ;;
          file <- lift (get uploadResult "file") ;;
          fileName <- lift (getv file "name") ;;
          waitForFileProcessing fileName defaultMaxWaitTime ;;;
          ret file
    end.

Record Position : Type := MkPosition {
  pos_x : option Q;
  pos_y : option Q
}.

Record MovementPattern : Type := MkMovementPattern {
  timestamps : list Q;
  positions : list Position
}.

Record Player : Type := MkPlayer {
  id : jsval;
  x : Q;
  y : Q;
  confidence : Q;
  jersey : jsval;
  team : jsval;
  teamColor : jsval;
  timestamp : Q;
  movementPattern : MovementPattern
}.

Record Analysis : Type := MkAnalysis {
  players : list Player;
  teamColors : jsval
}.

Definition maxAttempts : nat := 3.

(** The two colour names of the source, as code units: U+84DD U+8272
    (blue) and U+7EA2 U+8272 (red). *)
Definition blue : json := JStr [34013%N; 33394%N].
Definition red : json := JStr [32418%N; 33394%N].

Definition defaultTeamColors : json := JObj [(u "home", blue); (u "away", red)].

Definition fallbackPlayer (id_ : Z) (x_ y_ : Z) (confidence_ : Q) (jersey_ : string)
  (team_ : string) (teamColor_ : json) (timestamp_ : Z) : json :=
  JObj [(u "id", JNum (inject_Z id_)); (u "x", JNum (inject_Z x_));
        (u "y", JNum (inject_Z y_)); (u "confidence", JNum confidence_);
        (u "jersey", JStr (u jersey_)); (u "team", JStr (u team_));
        (u "teamColor", teamColor_); (u "timestamp", JNum (inject_Z timestamp_))].

(** The default player configuration returned when every attempt failed. *)
Definition fallbackResult : json :=
  JObj [(u "teamColors", defaultTeamColors);
        (u "players",
         JArr [fallbackPlayer 1 30 45 (4 # 5) "10" "home" blue 10;
               fallbackPlayer 2 70 55 (4 # 5) "7" "away" red 12;
               fallbackPlayer 3 50 35 (7 # 10) "9" "home" blue 8;
               fallbackPlayer 4 80 25 (7 # 10) "11" "away" red 14])].

(** [!v || !Array.isArray(v)] is false: the elements of the array. *)
Definition as_array (v : jsval) : option (list json) :=
  match v with
  | Some (JArr l) => Some l
  | _ => None
  end.

(** The work of one attempt after the response arrived: from the HTTP
    response to the parsed analysis with a non-empty [players] array. *)
Definition read_analysis (geminiResult : json) : result json :=
  match get geminiResult "candidates" with
  | Throw e => Throw e
  | Ok candidates =>
      if negb (truthy candidates) then Throw (Err "Google AI returned no valid analysis result")
      else
        match get0 candidates with
        | Throw e => Throw e
        | Ok candidate0 =>
            if negb (truthy candidate0)
            then Throw (Err "Google AI returned no valid analysis result")
            else
              match getv candidate0 "content" with
              | Throw e => Throw e
              | Ok content =>
                  if negb (truthy content)
                  then Throw (Err "Google AI returned no valid analysis result")
                  else
                    match getv content "parts" with
                    | Throw e => Throw e
                    | Ok parts =>
                        match get0 parts with
                        | Throw e => Throw e
                        | Ok part0 =>
                            match getv part0 "text" with
                            | Throw e => Throw e
                            | Ok (Some (JStr responseText)) =>
                                match indexOf LBRACE responseText,
                                      lastIndexOf RBRACE responseText with
                                | Some firstBrace, Some lastBrace =>
                                    let jsonString :=
                                      substring firstBrace (lastBrace + 1) responseText in
                                    match JSON.parse jsonString with
                                    | None => Throw SyntaxError
                                    | Some analysisResult =>
                                        match get analysisResult "players" with
                                        | Throw e => Throw e
                                        | Ok ps =>
                                            match as_array ps with
                                            | None =>
                                                Throw (Err "analysis result has no players array")
                                            | Some [] =>
                                                Throw (Err "AI detected no players")
                                            | Some (_ :: _) => Ok analysisResult
                                            end
                                        end
                                    end
                                | _, _ =>
                                    Throw (Err "no valid JSON data found in AI response")
                                end
                            | Ok _ => Throw TypeError   (* responseText.substring *)
                            end
                        end
                    end
              end
        end
  end.

(** The body of the [try] block of one attempt. *)
Definition attempt (fileUri mimeType : jsval) : M json :=
  geminiResponse <-
    fetch (GenerateContent (js_or mimeType (Some (JStr (u "video/mp4")))) fileUri) ;;
  if negb (ok geminiResponse)
  then throw (ErrStatus "Google AI service error" (status geminiResponse))
  else
    geminiResult <- json_of geminiResponse ;;
    lift (read_analysis geminiResult).

(** [while (attempts < maxAttempts)]: [remaining] is [maxAttempts - attempts].
    The result is the value of [analysisResult] when the loop is left. *)
Fixpoint attempts_loop (remaining : nat) (fileUri mimeType : jsval) : M jsval :=
  match remaining with
  | O => ret None
  | S remaining' =>
      let attempts := (maxAttempts - remaining')%nat in
      r <- try_catch
             (analysisResult <- attempt fileUri mimeType ;; ret (Some analysisResult))
             (fun attemptError =>
                log (ConsoleError attemptError) ;;;
                if Nat.eqb attempts maxAttempts
                then ret (Some fallbackResult)
                else sleep (2000 * inject_Z (Z.of_nat attempts)) ;;; ret None) ;;
      match r with
      | Some analysisResult => ret (Some analysisResult)   (* break *)
      | None => attempts_loop remaining' fileUri mimeType
      end
  end.

(** One position of a movement pattern: two draws, x first. *)
Definition position (player_x player_y : jsval) (i : nat) : M Position :=
  rx <- Math_random ;;
  ry <- Math_random ;;
  ret (MkPosition
         (option_map (clamp 5 95)
            (plus_number (js_or player_x (Some (JNum 50))) ((rx - (1 # 2)) * 15)))
         (option_map (clamp 5 95)
            (plus_number (js_or player_y (Some (JNum 50))) ((ry - (1 # 2)) * 10)))).

(** The callback of [analysisResult.players.map]. *)
Definition processPlayer (analysisTeamColors : jsval) (player : json) (index : nat)
  : M Player :=
  player_id <- lift (get player "id") ;;
  player_x <- lift (get player "x") ;;
  player_y <- lift (get player "y") ;;
  player_confidence <- lift (get player "confidence") ;;
  player_jersey <- lift (get player "jersey") ;;
  player_team <- lift (get player "team") ;;
  player_teamColor <- lift (get player "teamColor") ;;
  player_timestamp <- lift (get player "timestamp") ;;
  ps <- tabulate_M (position player_x player_y) 7 0 ;;
  ret (MkPlayer
         (js_or player_id (Some (index_number index)))
         (match player_x with Some (JNum v) => clamp 0 100 v | _ => 50 end)
         (match player_y with Some (JNum v) => clamp 0 100 v | _ => 50 end)
         (match player_confidence with Some (JNum v) => clamp 0 1 v | _ => 4 # 5 end)
         (js_or player_jersey (Some (index_label index)))
         (js_or player_team
                (Some (JStr (u (if Nat.even index then "home" else "away")))))
         (js_or (js_or player_teamColor
                       (if is_string player_team "home"
                        then get_opt analysisTeamColors "home"
                        else get_opt analysisTeamColors "away"))
                (Some (if Nat.even index then blue else red)))
         (number_or player_timestamp 0)
         (MkMovementPattern [5; 10; 15; 20; 25; 30; 35] ps)).

(** [analyzeVideoWithFilesAPI(fileUri, mimeType, apiKey)] *)
Definition analyzeVideoWithFilesAPI (fileUri mimeType : jsval) : M Analysis :=
  analysisResult <- attempts_loop maxAttempts fileUri mimeType ;;
  raw_players <- lift (getv analysisResult "players") ;;
  analysisTeamColors <- lift (getv analysisResult "teamColors") ;;
  match raw_players with
  | Some (JArr l) =>
      processedPlayers <- mapi_M (processPlayer analysisTeamColors) l 0 ;;
      ret (MkAnalysis processedPlayers
                      (js_or analysisTeamColors (Some defaultTeamColors)))
  | _ => throw TypeError   (* analysisResult.players.map *)
  end.

End LargeVideo.

(* ================================================================= *)
(** * supabase/functions/analyze-player-performance/index.ts *)

Module PlayerPerformance.

(** A [date] field: a value taken from the model's reply, or
    [new Date().toISOString()] at a clock reading. *)
Inductive DateField : Type :=
| GivenDate (v : jsval)
| IsoOfNow (ms : Q).

Record DominantFoot : Type := MkDominantFoot {
  right : num;
  left : num
}.

Record PerformanceData : Type := MkPerformanceData {
  matchId : json;
  date : DateField;
  opponent : json;
  overall : num;
  speed : num;
  passing : num;
  positioning : num;
  touches : num;
  distance : num;
  topSpeed : num;
  passAccuracy : num;
  dominantFoot : DominantFoot
}.

(** The template literal [match_${Date.now()}] *)
Definition match_id (t : Q) : json :=
  JStr (u "match_" ++ N_toString (Z.to_N (Qfloor t))).

(** The default opponent name of the source: U+5BF9 U+624B U+961F U+4F0D. *)
Definition defaultOpponent : json := JStr [23545%N; 25163%N; 38431%N; 20237%N].

(** [Math.floor(Math.random() * n)] *)
Definition random_below (n : Z) : M Q :=
  r <- Math_random ;;
  ret (inject_Z (Math_floor (binary64 (r * inject_Z n)))).

(** [generateFallbackPerformanceData(playerName)] *)
Definition generateFallbackPerformanceData (playerName : text) : M PerformanceData :=
  b <- random_below 20 ;;
  let baseScore := 70 + b in        (* a random score between 70 and 90 *)
  t <- now ;;
  t' <- now ;;
  r_speed <- random_below 10 ;;
  r_passing <- random_below 10 ;;
  r_positioning <- random_below 10 ;;
  r_touches <- random_below 60 ;;
  r_distance <- Math_random ;;
  r_topSpeed <- Math_random ;;
  r_passAccuracy <- random_below 20 ;;
  r_right <- random_below 30 ;;
  r_left <- random_below 30 ;;
  ret (MkPerformanceData
         (match_id t)
         (IsoOfNow t')
         defaultOpponent
         (Fin baseScore)
         (Fin (baseScore + r_speed - 5))
         (Fin (baseScore + r_passing - 5))
         (Fin (baseScore + r_positioning - 5))
         (Fin (80 + r_touches))
         (Fin (binary64 (6 + binary64 (r_distance * 3))))
         (Fin (binary64 (20 + binary64 (r_topSpeed * 8))))
         (Fin (75 + r_passAccuracy))
         (MkDominantFoot (Fin (60 + r_right)) (Fin (40 - r_left)))).

Definition MAX_CHUNK_SIZE : Z := 50 * 1024 * 1024.   (* 50MB chunks *)

Definition defaultMaxWaitTime : Q := 600000.

(** One round of the polling loop: the [try] block and its [catch]. *)
Inductive round : Type :=
| Return (fileStatus : json)
| Continue (checkInterval : Q).

Definition poll_round (fileName : jsval) (checkInterval : Q) : M round :=
  try_catch
    (statusResponse <- fetch (GetFile fileName) ;;
     if negb (ok statusResponse)
     then throw (ErrStatus "file status check failed" (status statusResponse))
     else
       fileStatus <- json_of statusResponse ;;
       state <- lift (get fileStatus "state") ;;
       if is_string state "ACTIVE" then ret (Return fileStatus)
       else if is_string state "FAILED" then throw (Err "file processing failed")
       else
         (* lengthen the interval step by step, 30 seconds at most *)
         sleep checkInterval ;;;
         ret (Continue (Math_min (binary64 (checkInterval * binary64 (12 # 10))) 30000)))
    (fun error =>
       log (ConsoleError error) ;;;
       (* keep waiting, do not fail at once *)
       sleep checkInterval ;;;
       ret (Continue checkInterval)).

(** [waitForFileProcessing(fileName, apiKey, maxWaitTime = 600000)].  Every
    round that goes on sleeps five seconds at least, so
    [ceil(maxWaitTime / 5000) + 1] rounds are enough; reaching zero is
    reported as an error that never happens. *)
Fixpoint poll (rounds : nat) (fileName : jsval) (startTime maxWaitTime checkInterval : Q)
  : M json :=
  match rounds with
  | O => throw (Err "rounds exhausted")
  | S rounds' =>
      t <- now ;;
      if Qlt_bool (t - startTime) maxWaitTime then
        r <- poll_round fileName checkInterval ;;
        match r with
        | Return fileStatus => ret fileStatus
        | Continue checkInterval' =>
            poll rounds' fileName startTime maxWaitTime checkInterval'
        end
      else throw (Err "file processing timed out")
  end.

Definition rounds_for (maxWaitTime : Q) : nat :=
  S (Z.to_nat (Qceiling (maxWaitTime / 5000))).

Definition waitForFileProcessing (fileName : jsval) (maxWaitTime : Q) : M json :=
  startTime <- now ;;
  poll (rounds_for maxWaitTime) fileName startTime maxWaitTime 5000.

(** What follows an acknowledged final PUT. *)
Definition finish_upload (uploadResponse : response) : M jsval :=
  uploadResult <- json_of uploadResponse ;;
  file <- lift (get uploadResult "file") ;;
  fileName <- lift (getv file "name") ;;
  waitForFileProcessing fileName defaultMaxWaitTime ;;;
  ret file.

(** [for (let i = 0; i < chunks; i++)]: [remaining] is [chunks - i].  The
    loop left without a return makes the function return [undefined]. *)
Fixpoint upload_chunks (remaining : nat) (uploadUrl : text) (fileSize chunks i : Z)
  : M jsval :=
  match remaining with
  | O => ret None
  | S remaining' =>
      let start := (i * MAX_CHUNK_SIZE)%Z in
      let end_ := Z.min (start + MAX_CHUNK_SIZE) fileSize in
      let chunkSize := (end_ - start)%Z in
      let isLastChunk := (i =? chunks - 1)%Z in
      let command := if isLastChunk then UploadFinalize else Upload in
      chunkResponse <- fetch (PutBytes uploadUrl chunkSize start command start end_) ;;
      if negb (ok chunkResponse)
      then throw (ErrStatus "chunk upload failed" (status chunkResponse))
      else if isLastChunk then finish_upload chunkResponse
      else upload_chunks remaining' uploadUrl fileSize chunks (i + 1)
  end.

(** [uploadVideoToFilesAPI(videoFile, apiKey)] *)
Definition uploadVideoToFilesAPI (videoFile : File) : M jsval :=
  let fileSize := Z.of_N (file_size videoFile) in
  metadataResponse <-
    fetch (StartUpload fileSize (file_type videoFile) (file_name videoFile)) ;;
  if negb (ok metadataResponse)
  then throw (ErrStatus "Files API metadata request failed" (status metadataResponse))
  else
    match uploadUrlHeader metadataResponse with
    | None | Some [] =>
        (* [!uploadUrl]: the header is absent or its value is empty *)
        throw (Err "no upload URL received")
    | Some uploadUrl =>
        if (fileSize <=? MAX_CHUNK_SIZE)%Z then
          (* a small file is sent at once *)
          uploadResponse <-
            fetch (PutBytes uploadUrl fileSize 0 UploadFinalize 0 fileSize) ;;
          if negb (ok uploadResponse)
          then throw (ErrStatus "Files API file upload failed" (status uploadResponse))
          else finish_upload uploadResponse
        else
          (* a large file is sent in chunks *)
          let chunks := Math_ceil (inject_Z fileSize / inject_Z MAX_CHUNK_SIZE) in
          upload_chunks (Z.to_nat chunks) uploadUrl fileSize chunks 0
    end.

(** The four patterns of [extractJsonFromText]. *)
Definition re_object : Regex.regex :=           (* /\{[\s\S]*\}/ *)
  Regex.Seq Regex.lbrace (Regex.Seq (Regex.Star true Regex.any) Regex.rbrace).

Definition re_code_block : Regex.regex :=
  (* three backticks, (?:json)?, \s*, group 1 = \{[\s\S]*?\}, \s*, three backticks *)
  Regex.Seq (Regex.lit (u "```"))
    (Regex.Seq (Regex.Alt (Regex.lit (u "json")) Regex.Eps)
       (Regex.Seq (Regex.Star true Regex.space)
          (Regex.Seq
             (Regex.Group 1
                (Regex.Seq Regex.lbrace
                   (Regex.Seq (Regex.Star false Regex.any) Regex.rbrace)))
             (Regex.Seq (Regex.Star true Regex.space) (Regex.lit (u "```")))))).

Definition re_nested : Regex.regex :=
  (* \{ [^{}]* (?: \{ [^{}]* \} [^{}]* )* \} *)
  Regex.Seq Regex.lbrace
    (Regex.Seq (Regex.Star true Regex.no_brace)
       (Regex.Seq
          (Regex.Star true
             (Regex.Seq Regex.lbrace
                (Regex.Seq (Regex.Star true Regex.no_brace)
                   (Regex.Seq Regex.rbrace (Regex.Star true Regex.no_brace)))))
          Regex.rbrace)).

Definition re_leading_prose : Regex.regex :=    (* /^\s*[\w\s]*?(?=\{)/ *)
  Regex.Seq Regex.Bol
    (Regex.Seq (Regex.Star true Regex.space)
       (Regex.Seq (Regex.Star false Regex.word_or_space)
          (Regex.Ahead Regex.lbrace))).

Definition re_trailing : Regex.regex :=         (* /\}[\s\S]*$/ *)
  Regex.Seq Regex.rbrace (Regex.Seq (Regex.Star true Regex.any) Regex.Eol).

(** The cleaning of the fourth method. *)
Definition cleanedText (t : text) : text :=
  trim
    (Regex.replace re_trailing [RBRACE]
       (Regex.replace re_leading_prose []
          (Regex.remove_all (u "```")
             (Regex.remove_all (u "```json") t)))).

(** [extractJsonFromText(text)]: four methods, the first that parses wins. *)
Definition extractJsonFromText (t : text) : result json :=
  let method1 :=
    match Regex.str_match re_object t with
    | Some (m, _) => JSON.parse m
    | None => None
    end in
  match method1 with
  | Some parsed => Ok parsed
  | None =>
      let method2 :=
        match Regex.str_match re_code_block t with
        | Some (_, Some g1) => JSON.parse g1
        | _ => None
        end in
      match method2 with
      | Some parsed => Ok parsed
      | None =>
          let method3 :=
            match Regex.str_match re_nested t with
            | Some (m, _) => JSON.parse m
            | None => None
            end in
          match method3 with
          | Some parsed => Ok parsed
          | None =>
              match JSON.parse (cleanedText t) with
              | Some parsed => Ok parsed
              | None => Throw (Err "cannot extract valid JSON data from the AI response")
              end
          end
      end
  end.

Section Validation.

(** Whether [new Date(s).getTime()] is a number: the date formats accepted
    beyond ISO 8601 are the engine's choice. *)
Variable date_parses : text -> bool.

(** [isValidDateString(dateString)] *)
Definition isValidDateString (dateString : jsval) : result bool :=
  if negb (truthy dateString) then Ok false
  else
    match dateString with
    | Some (JStr s) =>
        if text_eqb s (u "unknown") then Ok false
        else if text_eqb (trim s) [] then Ok false
        else Ok (date_parses s)
    | _ => Throw TypeError    (* dateString.trim is not a function *)
    end.

(** [Math.max(0, Math.min(hi, Number(v) || d))] *)
Definition bounded (hi : Q) (v : jsval) (d : Q) : num :=
  num_max (Fin 0) (num_min (Fin hi) (num_or (Number v) (Fin d))).

(** The [validatedData] of [analyzePlayerPerformanceWithFilesAPI]. *)
Definition validatePerformanceData (performanceData : json) : M PerformanceData :=
  v_matchId <- lift (get performanceData "matchId") ;;
  t <- now ;;
  v_date <- lift (get performanceData "date") ;;
  date_ok <- lift (isValidDateString v_date) ;;
  t' <- now ;;
  v_opponent <- lift (get performanceData "opponent") ;;
  v_overall <- lift (get performanceData "overall") ;;
  v_speed <- lift (get performanceData "speed") ;;
  v_passing <- lift (get performanceData "passing") ;;
  v_positioning <- lift (get performanceData "positioning") ;;
  v_touches <- lift (get performanceData "touches") ;;
  v_distance <- lift (get performanceData "distance") ;;
  v_topSpeed <- lift (get performanceData "topSpeed") ;;
  v_passAccuracy <- lift (get performanceData "passAccuracy") ;;
  v_dominantFoot <- lift (get performanceData "dominantFoot") ;;
  ret (MkPerformanceData
         (match js_or v_matchId (Some (match_id t)) with
          | Some j => j
          | None => match_id t
          end)
         (if date_ok then GivenDate v_date else IsoOfNow t')
         (match js_or v_opponent (Some defaultOpponent) with
          | Some j => j
          | None => defaultOpponent
          end)
         (bounded 100 v_overall 75)
         (bounded 100 v_speed 80)
         (bounded 100 v_passing 78)
         (bounded 100 v_positioning 82)
         (bounded 500 v_touches 120)
         (bounded 20 v_distance (15 # 2))
         (bounded 50 v_topSpeed (45 # 2))
         (bounded 100 v_passAccuracy 85)
         (MkDominantFoot
            (bounded 100 (get_opt v_dominantFoot "right") 65)
            (bounded 100 (get_opt v_dominantFoot "left") 35))).

End Validation.

End PlayerPerformance.

(* ================================================================= *)
(** * src/services/geminiAI.ts, class FootballAI *)

Module FootballAI.

Definition MAX_FILE_SIZE : Z := 2 * 1024 * 1024 * 1024.   (* 2GB limit for Files API *)

(** [extractJsonFromString(text)].  The [catch] of the method replaces
    every error by its own. *)
Definition extractJsonFromString (t : text) : result text :=
  match indexOf LBRACE t, lastIndexOf RBRACE t with
  | Some firstBrace, Some lastBrace =>
      if (lastBrace <=? firstBrace)%nat
      then Throw (Err "Invalid AI response format, unable to parse analysis results")
      else Ok (substring firstBrace (lastBrace + 1) t)
  | _, _ => Throw (Err "Invalid AI response format, unable to parse analysis results")
  end.

Record Position : Type := MkPosition {
  pos_x : option Q;
  pos_y : option Q;
  pos_width : option Q;
  pos_height : option Q
}.

Record MovementPattern : Type := MkMovementPattern {
  timestamps : list Q;
  positions : list Position
}.

Record PlayerDetection : Type := MkPlayerDetection {
  id : jsval;
  x : Q;
  y : Q;
  width : Q;
  height : Q;
  confidence : Q;
  jersey : jsval;
  team : jsval;
  teamColor : jsval;
  timestamp : Q;
  isReferee : bool;
  movementPattern : MovementPattern
}.

(** [Math.round(v * 10) / 10] *)
Definition round1 (v : Q) : Q := inject_Z (Math_round (v * 10)) / 10.

(** One step of a coordinate: [Math.max(lo, Math.min(hi, current + delta))]. *)
Definition step (lo hi : Q) (current : option Q) (delta : Q) : option Q :=
  option_map (fun c => clamp lo hi (c + delta)) current.

(** The loop of [generateRealisticMovementPatternWithBounds]: one round for
    each timestamp, three draws a round. *)
Fixpoint movement_loop (n : nat) (currentX currentY currentWidth currentHeight : option Q)
  : M (list Position) :=
  match n with
  | O => ret []
  | S n' =>
      rx <- Math_random ;;
      ry <- Math_random ;;
      rs <- Math_random ;;
      let moveX := (rx - (1 # 2)) * 15 in
      let moveY := (ry - (1 # 2)) * 10 in
      let sizeVariation := (rs - (1 # 2)) * 2 in
      let currentX' := step 5 95 currentX moveX in
      let currentY' := step 5 95 currentY moveY in
      let currentWidth' := step 5 20 currentWidth sizeVariation in
      let currentHeight' := step 10 30 currentHeight sizeVariation in
      r <- movement_loop n' currentX' currentY' currentWidth' currentHeight' ;;
      ret (MkPosition (option_map round1 currentX') (option_map round1 currentY')
                      (option_map round1 currentWidth')
                      (option_map round1 currentHeight') :: r)
  end.

(** [generateRealisticMovementPatternWithBounds(startX, startY, startWidth,
    startHeight)].  A start value that is a number or [true] takes part in
    the arithmetic; see [plus_number] for the others. *)
Definition generateRealisticMovementPatternWithBounds
  (startX startY startWidth startHeight : jsval) : M MovementPattern :=
  ps <- movement_loop 7 (plus_number startX 0) (plus_number startY 0)
                        (plus_number startWidth 0) (plus_number startHeight 0) ;;
  ret (MkMovementPattern [5; 10; 15; 20; 25; 30; 35] ps).

Definition maxAttempts : nat := 5.

(** The callback of [analysisResult.players.filter]. *)
Definition validPlayer (player : json) : result bool :=
  match get player "isReferee" with
  | Throw e => Throw e
  | Ok referee =>
      if truthy referee then Ok false
      else
        let x := number_or (get_opt (Some player) "x") 0 in
        let y := number_or (get_opt (Some player) "y") 0 in
        let width := number_or (get_opt (Some player) "width") 0 in
        let height := number_or (get_opt (Some player) "height") 0 in
        if Qlt_bool width 2 || Qlt_bool 20 width || Qlt_bool height 6 || Qlt_bool 30 height
        then Ok false
        else if Qlt_bool x 0 || Qlt_bool 98 x || Qlt_bool y 0 || Qlt_bool 98 y
        then Ok false
        else if Qlt_bool 100 (binary64 (x + width)) || Qlt_bool 100 (binary64 (y + height))
        then Ok false
        else
          let confidence := number_or (get_opt (Some player) "confidence") 0 in
          if Qlt_bool confidence (6 # 10) then Ok false else Ok true
  end.

(** The value of [analysisResult] the code after the loop reads. *)
Record Analysis : Type := MkAnalysis {
  teamColors : jsval;
  players : list json
}.

Definition fallbackPlayer (id_ x_ y_ width_ height_ : Z) (confidence_ : Q)
  (jersey_ team_ teamColor_ : string) (timestamp_ : Q) : json :=
  JObj [(u "id", JNum (inject_Z id_)); (u "x", JNum (inject_Z x_));
        (u "y", JNum (inject_Z y_)); (u "width", JNum (inject_Z width_));
        (u "height", JNum (inject_Z height_)); (u "confidence", JNum confidence_);
        (u "jersey", JStr (u jersey_)); (u "team", JStr (u team_));
        (u "teamColor", JStr (u teamColor_)); (u "timestamp", JNum timestamp_);
        (u "isReferee", JBool false)].

(** The default configuration used when every attempt failed; the
    confidences are 0.88, 0.85, 0.82, 0.80, 0.78 and 0.83. *)
Definition fallbackAnalysis (timestamp_ : Q) : Analysis :=
  MkAnalysis
    (Some (JObj [(u "home", JStr (u "Blue")); (u "away", JStr (u "Red"))]))
    [fallbackPlayer 1 15 20 8 20 (22 # 25) "10" "home" "Blue" timestamp_;
     fallbackPlayer 2 70 30 7 18 (17 # 20) "7" "away" "Red" timestamp_;
     fallbackPlayer 3 40 15 8 22 (41 # 50) "9" "home" "Blue" timestamp_;
     fallbackPlayer 4 60 50 7 19 (4 # 5) "11" "away" "Red" timestamp_;
     fallbackPlayer 5 25 65 8 21 (39 # 50) "8" "home" "Blue" timestamp_;
     fallbackPlayer 6 80 10 7 17 (83 # 100) "3" "away" "Red" timestamp_].

(** [frameDataUrl.split(',')[1]] *)
Fixpoint until_comma (s : text) : text :=
  match s with
  | [] => []
  | c :: r => if (c =? 44)%N then [] else c :: until_comma r
  end.

Fixpoint after_comma (s : text) : option text :=
  match s with
  | [] => None
  | c :: r => if (c =? 44)%N then Some r else after_comma r
  end.

Definition split_comma_1 (s : text) : jsval :=
  option_map (fun r => JStr (until_comma r)) (after_comma s).

(** From the reply text of one attempt to the filtered analysis. *)
Definition read_analysis (responseText : text) : result Analysis :=
  match indexOf LBRACE responseText, lastIndexOf RBRACE responseText with
  | Some firstBrace, Some lastBrace =>
      let jsonString := substring firstBrace (lastBrace + 1) responseText in
      match JSON.parse jsonString with
      | None => Throw SyntaxError
      | Some analysisResult =>
          match get analysisResult "players" with
          | Throw e => Throw e
          | Ok (Some (JArr l)) =>
              (* enhanced validation for static frame analysis *)
              match filter_R validPlayer l with
              | Throw e => Throw e
              | Ok [] =>
                  Throw (Err "Static frame analysis: No valid players detected after filtering")
              | Ok validPlayers =>
                  Ok (MkAnalysis (get_opt (Some analysisResult) "teamColors") validPlayers)
              end
          | Ok _ =>
              Throw (Err "AI analysis result format error, player data array not found")
          end
      end
  | _, _ => Throw (Err "No valid JSON format data found in AI response")
  end.

(** The body of the [try] block of one attempt: the SDK call
    [model.generateContent] rejects on a network failure and on a status
    that is not 2xx. *)
Definition attempt (frameDataUrl : text) : M Analysis :=
  result_ <- fetch (GenerateFromFrame (split_comma_1 frameDataUrl)) ;;
  if negb (ok result_)
  then throw (ErrStatus "generateContent failed" (status result_))
  else lift (read_analysis (body result_)).

(** [while (attempts < maxAttempts)]: [remaining] is [maxAttempts - attempts]. *)
Fixpoint attempts_loop (remaining : nat) (frameDataUrl : text) (timestamp_ : Q)
  : M (option Analysis) :=
  match remaining with
  | O => ret None
  | S remaining' =>
      let attempts := (maxAttempts - remaining')%nat in
      r <- try_catch
             (analysisResult <- attempt frameDataUrl ;; ret (Some analysisResult))
             (fun attemptError =>
                log (ConsoleError attemptError) ;;;
                if Nat.eqb attempts maxAttempts
                then ret (Some (fallbackAnalysis timestamp_))
                else sleep (2000 * inject_Z (Z.of_nat attempts)) ;;; ret None) ;;
      match r with
      | Some analysisResult => ret (Some analysisResult)   (* break *)
      | None => attempts_loop remaining' frameDataUrl timestamp_
      end
  end.

(** The callback of [analysisResult.players.map]. *)
Definition processPlayer (analysisTeamColors : jsval) (timestamp_ : Q)
  (player : json) (index : nat) : M PlayerDetection :=
  player_id <- lift (get player "id") ;;
  player_x <- lift (get player "x") ;;
  player_y <- lift (get player "y") ;;
  player_width <- lift (get player "width") ;;
  player_height <- lift (get player "height") ;;
  player_confidence <- lift (get player "confidence") ;;
  player_jersey <- lift (get player "jersey") ;;
  player_team <- lift (get player "team") ;;
  player_teamColor <- lift (get player "teamColor") ;;
  pattern <- generateRealisticMovementPatternWithBounds
               (js_or player_x (Some (JNum 50))) (js_or player_y (Some (JNum 50)))
               (js_or player_width (Some (JNum 8))) (js_or player_height (Some (JNum 18))) ;;
  ret (MkPlayerDetection
         (js_or player_id (Some (index_number index)))
         (clamp 0 98 (number_or player_x 50))
         (clamp 0 98 (number_or player_y 50))
         (clamp 4 18 (number_or player_width 8))
         (clamp 8 28 (number_or player_height 18))
         (clamp (6 # 10) 1 (number_or player_confidence (8 # 10)))
         (js_or player_jersey (Some (index_label index)))
         (js_or player_team
                (Some (JStr (u (if Nat.even index then "home" else "away")))))
         (js_or (js_or player_teamColor
                       (if is_string player_team "home"
                        then get_opt analysisTeamColors "home"
                        else get_opt analysisTeamColors "away"))
                (Some (JStr (u (if Nat.even index then "Blue" else "Red")))))
         timestamp_
         false
         pattern).

Definition failure_prefix : string := "Enhanced static frame player detection failed".

(** [analyzeStaticFrameForPlayers(frameDataUrl, timestamp)].  [init] is the
    outcome of [ensureModelInitialized]. *)
Definition analyzeStaticFrameForPlayers (init : result unit) (frameDataUrl : text)
  (timestamp_ : Q) : M (list PlayerDetection) :=
  try_catch
    (lift init ;;;
     analysisResult <- attempts_loop maxAttempts frameDataUrl timestamp_ ;;
     match analysisResult with
     | None => throw TypeError
     | Some a => mapi_M (processPlayer (teamColors a) timestamp_) (players a) 0
     end)
    (fun error => throw (ErrFrom failure_prefix error)).

(** The text of [error.message], where the source fixes it. *)
Fixpoint message_of (e : exn) : option string :=
  match e with
  | Err msg => Some msg
  | ErrStatus msg st => None
  | ErrFrom msg cause =>
      match message_of cause with
      | Some m => Some (msg ++ ": " ++ m)%string
      | None => None
      end
  | _ => None
  end.

(** [hay.includes(needle)] *)
Fixpoint includes (needle hay : string) : bool :=
  String.prefix needle hay
  || match hay with
     | EmptyString => false
     | String _ hay' => includes needle hay'
     end.

(** The [catch] of [uploadAndAnalyzeVideo]: an error whose message names a
    known cause is replaced by a friendlier one.  An error whose message
    is the engine's or the SDK's is passed on as it is. *)
Definition classify (error : exn) : exn :=
  match message_of error with
  | None => error
  | Some m =>
      if includes "API key" m || includes "API_KEY" m
      then Err "Google AI API key invalid or expired, please check configuration"
      else if includes "quota" m || includes "QUOTA" m
      then Err "Google AI API quota exhausted, please try again later"
      else if includes "network" m || includes "fetch" m || includes "NetworkError" m
      then Err "Network connection failed, please check network connection and retry"
      else if includes "timeout" m || includes "TIMEOUT" m
      then Err "AI processing timeout, video may be too long or complex, please try shorter video clips"
      else if includes "SAFETY" m || includes "safety" m
      then Err "Video content blocked by AI safety filter, please try other videos"
      else if includes "INVALID_ARGUMENT" m
      then Err "Video format not supported by AI, please try MP4 format videos"
      else error
  end.

Record UploadResult : Type := MkUploadResult {
  result_players : list PlayerDetection;
  bestFrameUrl : text;
  bestFrameTimestamp : Q
}.

(** [uploadAndAnalyzeVideo(videoFile)].  [frame] is the outcome of
    [extractFrameAtTimestamp(videoFile, 0.5)], the work of the browser's
    video decoder. *)
Definition uploadAndAnalyzeVideo (init : result unit) (frame : result (text * Q))
  (videoFile : File) : M UploadResult :=
  try_catch
    (if negb (is_prefix (u "video/") (file_type videoFile))
     then throw (Err "Unsupported file format, please upload a valid video file")
     else if (file_size videoFile =? 0)%N
     then throw (Err "Video file is empty, please select a valid video file")
     else if (MAX_FILE_SIZE <? Z.of_N (file_size videoFile))%Z
     then throw (Err "Video file too large, maximum supported by Gemini is 2GB")
     else
       fr <- lift frame ;;
       let (frameUrl, timestamp_) := fr in
       ps <- analyzeStaticFrameForPlayers init frameUrl timestamp_ ;;
       ret (MkUploadResult ps frameUrl timestamp_))
    (fun error => throw (classify error)).

(** The [catch] of [analyzePlayerPerformance]. *)
Definition classify_performance (error : exn) : exn :=
  match message_of error with
  | None => error
  | Some m =>
      if includes "Server-side processing environment not configured" m then error
      else if includes "API key" m
      then Err "Google AI API key invalid, unable to perform player performance analysis"
      else if includes "quota" m
      then Err "Google AI API quota exhausted, unable to complete analysis"
      else if includes "network" m || includes "fetch" m
      then Err "Network connection failed, unable to connect to server"
      else if includes "timeout" m
      then Err "Gemini analysis timeout, video may be too complex or network slow"
      else if includes "JSON" m || includes "parse" m
      then Err "AI returned analysis result format error, unable to parse"
      else if includes "SAFETY" m
      then Err "Video content blocked by AI safety filter"
      else error
  end.

(** [analyzePlayerPerformance(videoFile, selectedPlayerId, playerName,
    existingPlayerData)]: the guards and the [catch]; [go_on] is the rest of
    the [try] block, compression in the browser and the request to the
    server function. *)
Definition analyzePlayerPerformance {A} (videoFile : File) (playerName : text)
  (go_on : M A) : M A :=
  try_catch
    (if (file_size videoFile =? 0)%N
     then throw (Err "Video file invalid or empty")
     else if (length (trim playerName) =? 0)%nat
     then throw (Err "Player name cannot be empty")
     else if (MAX_FILE_SIZE <? Z.of_N (file_size videoFile))%Z
     then throw (Err "Video file too large, maximum supported by Gemini is 2GB")
     else go_on)
    (fun error => throw (classify_performance error)).

Definition RECOMMENDED_SIZE : Z := 200 * 1024 * 1024.   (* 200MB recommended size *)

Section Compression.

(** [compressVideo(videoFile, targetSizeMB)], the work of the browser's
    canvas and media recorder: it resolves with a file or rejects. *)
Variable compressVideo : File -> Q -> M File.

(** [preprocessVideoFile(videoFile)] *)
Definition preprocessVideoFile (videoFile : File) : M File :=
  let fileSizeMB := inject_Z (Z.of_N (file_size videoFile)) / (1024 * 1024) in
  if (RECOMMENDED_SIZE <? Z.of_N (file_size videoFile))%Z
  then
    try_catch
      (let targetSize :=
         if Qlt_bool 1000 fileSizeMB then 100       (* files over 1GB to 100MB *)
         else if Qlt_bool 500 fileSizeMB then 120   (* files over 500MB to 120MB *)
         else 150 in                                (* default 150MB *)
       compressVideo videoFile targetSize)
      (fun compressionError =>
         if (Z.of_N (file_size videoFile) <=? MAX_FILE_SIZE)%Z
         then ret videoFile
         else throw (Err "File too large and compression failed, please manually compress video and retry"))
  else ret videoFile.

(** Whether [VITE_SUPABASE_URL] and [VITE_SUPABASE_ANON_KEY] are both set. *)
Variable configured : bool.

(** [analyzePlayerPerformanceOnServer(processedFile, selectedPlayerId,
    playerName, existingPlayerData)], the request to the server function. *)
Variable A : Type.
Variable analyzePlayerPerformanceOnServer : File -> M A.

(** What the [try] block of [analyzePlayerPerformance] does once its
    guards have passed. *)
Definition after_guards (videoFile : File) : M A :=
  processedFile <- preprocessVideoFile videoFile ;;
  if configured
  then analyzePlayerPerformanceOnServer processedFile
  else throw (Err "Server-side processing environment not configured. Please configure Supabase environment variables to use Gemini for video file processing.").

End Compression.

End FootballAI.

(* ================================================================= *)
(** * The rest of the two server functions

    The inference for one player, the clean-up of the uploaded file and the
    request handlers.  The texts of the error messages, Chinese in the
    source, are rendered in English as in the modules above. *)

(** A field of the multipart form, [formData.get(name)]: a file or a
    string; [None] is [null]. *)
Inductive FormValue : Type :=
| FormFile (f : File)
| FormText (t : text).

Record Form : Type := MkForm {
  form_video : option FormValue;
  form_apiKey : option FormValue;
  form_playerId : option FormValue;
  form_playerName : option FormValue;
  form_existingPlayerData : option FormValue
}.

(** Truthiness of a form field: [null] and the empty string are falsy. *)
Definition present (v : option FormValue) : bool :=
  match v with
  | None => false
  | Some (FormFile _) => true
  | Some (FormText t) => match t with [] => false | _ => true end
  end.

(** The [video] field where the upload functions read [videoFile.size]
    to build the headers of their first request: a string has no [size],
    and [undefined.toString()] throws before anything is sent. *)
Definition as_file (v : option FormValue) : M File :=
  match v with
  | Some (FormFile f) => ret f
  | _ => throw TypeError
  end.

(** [videoFile.size > limit]: [undefined > limit] is false. *)
Definition larger_than (v : option FormValue) (limit : Z) : bool :=
  match v with
  | Some (FormFile f) => (limit <? Z.of_N (file_size f))%Z
  | _ => false
  end.

(** A form field in a template literal. *)
Definition form_text (v : option FormValue) : text :=
  match v with
  | Some (FormText t) => t
  | Some (FormFile _) => u "[object File]"
  | None => u "null"
  end.

(** The object a handler serialises into the body of its answer. *)
Inductive Body : Type :=
| Plain                      (* the text 'ok' of the preflight answer *)
| Failure (error : exn)      (* { success: false, error } *)
| Players (players : list LargeVideo.Player) (teamColors : jsval)
    (* { success: true, players, teamColors } *)
| Performance (performanceData : PlayerPerformance.PerformanceData) (warning : bool).
    (* { success: true, performanceData } and, on the fallback, a warning *)

(** [new Response(body, { status, headers })]; the status is 200 where the
    source gives none. *)
Record Reply : Type := MkReply {
  reply_status : Z;
  reply_body : Body
}.

(* ----------------------------------------------------------------- *)
(** ** supabase/functions/analyze-large-video/index.ts, the handler *)

Module LargeVideoFunction.

(** [deleteFileFromFilesAPI(fileName, apiKey)]: a status that is not 2xx is
    warned about on the console, nothing more. *)
Definition deleteFileFromFilesAPI (fileName : jsval) : M unit :=
  deleteResponse <- fetch (DeleteFile fileName) ;;
  if negb (ok deleteResponse) then ret tt else ret tt.

(** [serve(async (req) => ...)]: [method] is [req.method] and [form] the
    outcome of [await req.formData()]. *)
Definition serve (method : text) (form : result Form) : M Reply :=
  if text_eqb method (u "OPTIONS") then ret (MkReply 200 Plain)
  else
    try_catch
      (formData <- lift form ;;
       if negb (present (form_video formData)) || negb (present (form_apiKey formData))
       then ret (MkReply 400 (Failure (Err "missing video file or API key")))
       else
         (* upload the file with the Files API *)
         videoFile <- as_file (form_video formData) ;;
         uploadedFile <- LargeVideo.uploadVideoToFilesAPI videoFile ;;
         uri <- lift (getv uploadedFile "uri") ;;
         mimeType <- lift (getv uploadedFile "mimeType") ;;
         analysisResult <- LargeVideo.analyzeVideoWithFilesAPI uri mimeType ;;
         (* clean up the uploaded file *)
         try_catch
           (name <- lift (getv uploadedFile "name") ;;
            deleteFileFromFilesAPI name)
           (fun cleanupError => ret tt) ;;;
         ret (MkReply 200
                (Players (LargeVideo.players analysisResult)
                         (js_or (LargeVideo.teamColors analysisResult)
                                (Some LargeVideo.defaultTeamColors)))))
      (fun error =>
         log (ConsoleError error) ;;;
         ret (MkReply 500 (Failure (ErrFrom "server processing failed" error)))).

End LargeVideoFunction.

(* ----------------------------------------------------------------- *)
(** ** supabase/functions/analyze-player-performance/index.ts, the
       inference and the handler *)

Module PlayerPerformanceFunction.

Section Analysis.

Variable date_parses : text -> bool.

Definition maxRetries : nat := 3.

(** How one round of the retry loop ends: with the validated data, or
    with the error kept in [lastError]. *)
Inductive outcome : Type :=
| Done (validatedData : PlayerPerformance.PerformanceData)
| Again (lastError : exn).

(** The [try] block of one attempt.  [continue] is [ret (Again _)]; what
    the block throws reaches the [catch] of the loop. *)
Definition attempt (fileUri mimeType : jsval) : M outcome :=
  geminiResponse <-
    fetch (GenerateContent (js_or mimeType (Some (JStr (u "video/mp4")))) fileUri) ;;
  if negb (ok geminiResponse)
  then ret (Again (ErrStatus "Google AI service error" (status geminiResponse)))
  else
    geminiResult <- json_of geminiResponse ;;
    candidates <- lift (get geminiResult "candidates") ;;
    if negb (truthy candidates)
    then ret (Again (Err "Google AI returned no valid analysis result"))
    else
      candidate0 <- lift (get0 candidates) ;;
      if negb (truthy candidate0)
      then ret (Again (Err "Google AI returned no valid analysis result"))
      else
        content <- lift (getv candidate0 "content") ;;
        if negb (truthy content)
        then ret (Again (Err "Google AI returned no valid analysis result"))
        else
          parts <- lift (getv content "parts") ;;
          part0 <- lift (get0 parts) ;;
          responseText <- lift (getv part0 "text") ;;
          match responseText with
          | None | Some JNull => throw TypeError        (* responseText.length *)
          | Some (JStr t) =>
              match PlayerPerformance.extractJsonFromText t with
              | Throw extractError =>
                  log (ConsoleError extractError) ;;;
                  ret (Again extractError)
              | Ok performanceData =>
                  validatedData <-
                    PlayerPerformance.validatePerformanceData date_parses performanceData ;;
                  ret (Done validatedData)
              end
          | Some _ =>
              (* text.match is not a function, thrown inside extractJsonFromText *)
              log (ConsoleError TypeError) ;;;
              ret (Again TypeError)
          end.

(** [for (let attempt = 1; attempt <= maxRetries; attempt++)]: [remaining]
    is [maxRetries - attempt + 1]. *)
Fixpoint attempts_loop (remaining : nat) (fileUri mimeType : jsval) (lastError : option exn)
  : M PlayerPerformance.PerformanceData :=
  match remaining with
  | O =>
      (* every retry failed: throw the last error *)
      throw (match lastError with
             | Some e => e
             | None => Err "all analysis attempts failed"
             end)
  | S remaining' =>
      let attempt_ := (maxRetries - remaining')%nat in
      r <- try_catch
             (attempt fileUri mimeType)
             (fun error =>
                log (ConsoleError error) ;;;
                (if (attempt_ <? maxRetries)%nat
                 then sleep (2000 * inject_Z (Z.of_nat attempt_))
                 else ret tt) ;;;
                ret (Again error)) ;;
      match r with
      | Done validatedData => ret validatedData
      | Again e => attempts_loop remaining' fileUri mimeType (Some e)
      end
  end.

(** [analyzePlayerPerformanceWithFilesAPI(fileUri, mimeType, playerName,
    existingPlayerData, apiKey)]; the player's name only enters the prompt
    and [existingPlayerData] is not read. *)
Definition analyzePlayerPerformanceWithFilesAPI (fileUri mimeType : jsval)
  : M PlayerPerformance.PerformanceData :=
  attempts_loop maxRetries fileUri mimeType None.

(** [deleteFileFromFilesAPI(fileName, apiKey)]: a failure of any kind is
    warned about on the console, nothing more. *)
Definition deleteFileFromFilesAPI (fileName : jsval) : M unit :=
  try_catch
    (deleteResponse <- fetch (DeleteFile fileName) ;;
     if negb (ok deleteResponse) then ret tt else ret tt)
    (fun error => ret tt).

Definition MAX_SIZE_MB : Z := 500.   (* 500MB limit *)

(** [JSON.parse(existingPlayerDataStr)] in its [try]: a text that does not
    parse is reported on the console. *)
Definition read_existingPlayerData (v : option FormValue) : M unit :=
  if present v then
    match JSON.parse (form_text v) with
    | Some existingPlayerData => ret tt
    | None => log (ConsoleError SyntaxError)
    end
  else ret tt.

(** [serve(async (req) => ...)] *)
Definition serve (method : text) (form : result Form) : M Reply :=
  if text_eqb method (u "OPTIONS") then ret (MkReply 200 Plain)
  else
    try_catch
      (formData <- lift form ;;
       if negb (present (form_video formData)) || negb (present (form_apiKey formData))
          || negb (present (form_playerId formData))
          || negb (present (form_playerName formData))
       then ret (MkReply 400 (Failure (Err "missing required parameters")))
       else
         read_existingPlayerData (form_existingPlayerData formData) ;;;
         (* check the size of the file, answer with an error if it is too large *)
         if larger_than (form_video formData) (MAX_SIZE_MB * 1024 * 1024)
         then ret (MkReply 413 (Failure (Err "video file too large")))
         else
           uploaded <-
             try_catch
               (videoFile <- as_file (form_video formData) ;;
                uploadedFile <- PlayerPerformance.uploadVideoToFilesAPI videoFile ;;
                ret (inl uploadedFile))
               (fun uploadError =>
                  log (ConsoleError uploadError) ;;;
                  ret (inr (MkReply 500 (Failure (ErrFrom "file upload failed"
                                                          uploadError))))) ;;
           match uploaded with
           | inr reply => ret reply
           | inl uploadedFile =>
               analysed <-
                 try_catch
                   (uri <- lift (getv uploadedFile "uri") ;;
                    mimeType <- lift (getv uploadedFile "mimeType") ;;
                    performanceData <- analyzePlayerPerformanceWithFilesAPI uri mimeType ;;
                    ret (inl performanceData))
                   (fun analysisError =>
                      log (ConsoleError analysisError) ;;;
                      (* clean up the uploaded file *)
                      try_catch
                        (name <- lift (getv uploadedFile "name") ;;
                         deleteFileFromFilesAPI name)
                        (fun cleanupError => ret tt) ;;;
                      (* answer with default data, not with an error *)
                      fallbackData <-
                        PlayerPerformance.generateFallbackPerformanceData
                          (form_text (form_playerName formData)) ;;
                      ret (inr (MkReply 200 (Performance fallbackData true)))) ;;
               match analysed with
               | inr reply => ret reply
               | inl performanceData =>
                   try_catch
                     (name <- lift (getv uploadedFile "name") ;;
                      deleteFileFromFilesAPI name)
                     (fun cleanupError => ret tt) ;;;
                   ret (MkReply 200 (Performance performanceData false))
               end
           end)
      (fun error =>
         log (ConsoleError error) ;;;
         ret (MkReply 500 (Failure (ErrFrom "server processing failed" error)))).

End Analysis.

End PlayerPerformanceFunction.

(* ================================================================= *)
(** * Arithmetic on numbers that may be [NaN] or infinite *)

(** [a + b] *)
Definition num_plus (a b : num) : num :=
  match a, b with
  | NaN, _ | _, NaN => NaN
  | PosInf, NegInf | NegInf, PosInf => NaN
  | PosInf, _ | _, PosInf => PosInf
  | NegInf, _ | _, NegInf => NegInf
  | Fin x, Fin y => Fin (x + y)
  end.

(** [a / d] for a finite divisor [d]; the zero of a length or of a
    literal is positive. *)
Definition num_over (a : num) (d : Q) : num :=
  match a with
  | NaN => NaN
  | Fin q =>
      if Qeq_bool d 0
      then (if Qeq_bool q 0 then NaN else if Qlt_bool 0 q then PosInf else NegInf)
      else Fin (q / d)
  | PosInf => if Qlt_bool d 0 then NegInf else PosInf
  | NegInf => if Qlt_bool d 0 then PosInf else NegInf
  end.

(** [a * k] for a finite factor [k]. *)
Definition num_times (a : num) (k : Q) : num :=
  match a with
  | NaN => NaN
  | Fin q => Fin (q * k)
  | PosInf => if Qeq_bool k 0 then NaN else if Qlt_bool k 0 then NegInf else PosInf
  | NegInf => if Qeq_bool k 0 then NaN else if Qlt_bool k 0 then PosInf else NegInf
  end.

(** [Math.round(a)] *)
Definition num_round (a : num) : num :=
  match a with
  | Fin q => Fin (inject_Z (Math_round q))
  | _ => a
  end.

(** [a > b]; every comparison with [NaN] is false. *)
Definition num_gtb (a b : num) : bool :=
  match a, b with
  | NaN, _ | _, NaN => false
  | Fin x, Fin y => Qlt_bool y x
  | PosInf, PosInf => false
  | PosInf, _ => true
  | _, NegInf => match a with NegInf => false | _ => true end
  | _, _ => false
  end.

(* ================================================================= *)
(** * src/App.tsx: the history of a player *)

Module App.

Record DominantFoot : Type := MkDominantFoot {
  right : num;
  left : num
}.

(** [interface PerformanceData] *)
Record PerformanceData : Type := MkPerformanceData {
  matchId : json;
  date : PlayerPerformance.DateField;
  opponent : jsval;
  overall : num;
  speed : num;
  passing : num;
  positioning : num;
  touches : num;
  distance : num;
  topSpeed : num;
  passAccuracy : num;
  dominantFoot : DominantFoot
}.

(** The accumulator of the [reduce] in [calculateAveragePerformance]. *)
Record Sums : Type := MkSums {
  sum_overall : num;
  sum_speed : num;
  sum_passing : num;
  sum_positioning : num;
  sum_touches : num;
  sum_distance : num;
  sum_topSpeed : num;
  sum_passAccuracy : num;
  sum_right : num;
  sum_left : num
}.

Definition add (acc : Sums) (curr : PerformanceData) : Sums :=
  MkSums (num_plus (sum_overall acc) (overall curr))
         (num_plus (sum_speed acc) (speed curr))
         (num_plus (sum_passing acc) (passing curr))
         (num_plus (sum_positioning acc) (positioning curr))
         (num_plus (sum_touches acc) (touches curr))
         (num_plus (sum_distance acc) (distance curr))
         (num_plus (sum_topSpeed acc) (topSpeed curr))
         (num_plus (sum_passAccuracy acc) (passAccuracy curr))
         (num_plus (sum_right acc) (right (dominantFoot curr)))
         (num_plus (sum_left acc) (left (dominantFoot curr))).

Definition zero : Sums :=
  MkSums (Fin 0) (Fin 0) (Fin 0) (Fin 0) (Fin 0) (Fin 0) (Fin 0) (Fin 0) (Fin 0) (Fin 0).

(** [calculateAveragePerformance(history)] *)
Definition calculateAveragePerformance (history : list PerformanceData)
  : M PerformanceData :=
  let total := inject_Z (Z.of_nat (length history)) in
  let sums := fold_left add history zero in
  t <- now ;;
  ret (MkPerformanceData
         (JStr (u "average"))
         (PlayerPerformance.IsoOfNow t)   (* always a valid timestamp *)
         None
         (num_round (num_over (sum_overall sums) total))
         (num_round (num_over (sum_speed sums) total))
         (num_round (num_over (sum_passing sums) total))
         (num_round (num_over (sum_positioning sums) total))
         (num_round (num_over (sum_touches sums) total))
         (num_over (num_round (num_times (num_over (sum_distance sums) total) 10)) 10)
         (num_over (num_round (num_times (num_over (sum_topSpeed sums) total) 10)) 10)
         (num_round (num_over (sum_passAccuracy sums) total))
         (MkDominantFoot
            (num_round (num_over (sum_right sums) total))
            (num_round (num_over (sum_left sums) total)))).

(** The labels that [detectImprovements] pushes, as code units. *)
Definition overall_improved : text :=
  [25972%N; 20307%N; 34920%N; 29616%N; 26174%N; 33879%N; 25552%N; 21319%N].
Definition speed_improved : text :=
  [36895%N; 24230%N; 26377%N; 26126%N; 26174%N; 36827%N; 27493%N].
Definition passing_improved : text :=
  [20256%N; 29699%N; 25216%N; 26415%N; 25913%N; 21892%N].
Definition positioning_improved : text :=
  [20301%N; 32622%N; 24863%N; 26356%N; 22909%N].
Definition passAccuracy_improved : text :=
  [20256%N; 29699%N; 20934%N; 30830%N; 29575%N; 25552%N; 39640%N].
Definition topSpeed_improved : text :=
  [26368%N; 39640%N; 36895%N; 24230%N; 31361%N; 30772%N].

(** [if (c) improvements.push(label)] *)
Definition push_if (c : bool) (label : text) (improvements : list text) : list text :=
  if c then improvements ++ [label] else improvements.

(** [detectImprovements(history, latest)] *)
Definition detectImprovements (history : list PerformanceData) (latest : PerformanceData)
  : result (list text) :=
  if (length history <? 2)%nat then Ok []
  else
    match nth_error history (length history - 2) with
    | None => Throw TypeError
    | Some previous =>
        let improvements := [] in
        let improvements :=
          push_if (num_gtb (overall latest) (num_plus (overall previous) (Fin 2)))
                  overall_improved improvements in
        let improvements :=
          push_if (num_gtb (speed latest) (num_plus (speed previous) (Fin 3)))
                  speed_improved improvements in
        let improvements :=
          push_if (num_gtb (passing latest) (num_plus (passing previous) (Fin 3)))
                  passing_improved improvements in
        let improvements :=
          push_if (num_gtb (positioning latest) (num_plus (positioning previous) (Fin 3)))
                  positioning_improved improvements in
        let improvements :=
          push_if (num_gtb (passAccuracy latest) (num_plus (passAccuracy previous) (Fin 5)))
                  passAccuracy_improved improvements in
        let improvements :=
          push_if (num_gtb (topSpeed latest) (num_plus (topSpeed previous) (Fin 1)))
                  topSpeed_improved improvements in
        Ok improvements
    end.

End App.

(* ================================================================= *)
(** * Properties *)

(** Split a conjunction into its parts, and nothing else. *)
Ltac split_all := repeat match goal with |- _ /\ _ => split end.

Lemma text_eqb_eq (a b : text) : text_eqb a b = true <-> a = b.
Proof.
  revert b; induction a as [|x a IH]; intros [|y b]; simpl; split; intro H;
    try reflexivity; try discriminate.
  - apply andb_true_iff in H as [Hx Hr]. apply N.eqb_eq in Hx.
    apply IH in Hr. now subst.
  - injection H as -> ->. rewrite N.eqb_refl. simpl. now apply IH.
Qed.

Lemma Qlt_bool_iff (a b : Q) : Qlt_bool a b = true <-> a < b.
Proof.
  unfold Qlt_bool. rewrite negb_true_iff. split; intro H.
  - apply Qnot_le_lt. intro L. apply Qle_bool_iff in L. congruence.
  - destruct (Qle_bool b a) eqn:E; [|reflexivity].
    apply Qle_bool_iff in E. exfalso. exact (Qlt_not_le _ _ H E).
Qed.

Lemma Qlt_bool_false (a b : Q) : Qlt_bool a b = false <-> b <= a.
Proof.
  unfold Qlt_bool. rewrite negb_false_iff. apply Qle_bool_iff.
Qed.

Lemma Math_min_le_l a b : Math_min a b <= a.
Proof.
  unfold Math_min. destruct (Qle_bool a b) eqn:E; [apply Qle_refl|].
  apply Qlt_le_weak, Qnot_le_lt. intro L. apply Qle_bool_iff in L. congruence.
Qed.

Lemma Math_min_le_r a b : Math_min a b <= b.
Proof.
  unfold Math_min. destruct (Qle_bool a b) eqn:E; [|apply Qle_refl].
  now apply Qle_bool_iff.
Qed.

Lemma Math_min_glb a b c : c <= a -> c <= b -> c <= Math_min a b.
Proof. unfold Math_min. now destruct (Qle_bool a b). Qed.

Lemma Math_max_ge_l a b : a <= Math_max a b.
Proof.
  unfold Math_max. destruct (Qle_bool a b) eqn:E; [|apply Qle_refl].
  now apply Qle_bool_iff.
Qed.

Lemma Math_max_ge_r a b : b <= Math_max a b.
Proof.
  unfold Math_max. destruct (Qle_bool a b) eqn:E; [apply Qle_refl|].
  apply Qlt_le_weak, Qnot_le_lt. intro L. apply Qle_bool_iff in L. congruence.
Qed.

Lemma Math_max_lub a b c : a <= c -> b <= c -> Math_max a b <= c.
Proof. unfold Math_max. now destruct (Qle_bool a b). Qed.

Lemma clamp_bounds lo hi v : lo <= hi -> lo <= clamp lo hi v /\ clamp lo hi v <= hi.
Proof.
  intro H. unfold clamp. split; [apply Math_max_ge_l|].
  apply Math_max_lub; [exact H | apply Math_min_le_l].
Qed.

(* ----------------------------------------------------------------- *)
(** ** The rounding of doubles keeps the order *)

Lemma round_half_even_floor q :
  round_half_even q = Qfloor q \/ round_half_even q = (Qfloor q + 1)%Z.
Proof.
  unfold round_half_even.
  destruct (Qlt_bool _ _); [now left|].
  destruct (Qlt_bool _ _); [now right|].
  destruct (Z.even _); [now left | now right].
Qed.

Lemma round_half_even_Z (n : Z) : round_half_even (inject_Z n) = n.
Proof.
  unfold round_half_even. rewrite Qfloor_Z.
  destruct (Qlt_bool (inject_Z n - inject_Z n) (1 # 2)) eqn:E; [reflexivity|].
  apply Qlt_bool_false in E. lra.
Qed.

Lemma round_half_even_monotone x y : x <= y -> (round_half_even x <= round_half_even y)%Z.
Proof.
  intro H. pose proof (Qfloor_resp_le _ _ H) as F.
  destruct (Z.eq_dec (Qfloor x) (Qfloor y)) as [E|E].
  - unfold round_half_even. rewrite <- E.
    destruct (Qlt_bool (x - inject_Z (Qfloor x)) (1 # 2)) eqn:A.
    + repeat match goal with |- context [if ?b then _ else _] => destruct b end; lia.
    + apply Qlt_bool_false in A.
      destruct (Qlt_bool (y - inject_Z (Qfloor x)) (1 # 2)) eqn:B;
        [apply Qlt_bool_iff in B; lra|].
      destruct (Qlt_bool (1 # 2) (x - inject_Z (Qfloor x))) eqn:C.
      * apply Qlt_bool_iff in C.
        destruct (Qlt_bool (1 # 2) (y - inject_Z (Qfloor x))) eqn:D; [lia|].
        apply Qlt_bool_false in D. lra.
      * repeat match goal with |- context [if ?b then _ else _] => destruct b end; lia.
  - destruct (round_half_even_floor x) as [-> | ->], (round_half_even_floor y) as [-> | ->];
      lia.
Qed.

Lemma round_half_even_eq x y : x == y -> round_half_even x = round_half_even y.
Proof.
  intro H. apply Z.le_antisymm; apply round_half_even_monotone; lra.
Qed.

Lemma two_nonzero : ~ 2 == 0.
Proof. discriminate. Qed.

Lemma pow2_pos e : 0 < 2 ^ e.
Proof. apply Qpower_0_lt. reflexivity. Qed.

Lemma pow2_Z (e : Z) : (0 <= e)%Z -> inject_Z (2 ^ e) == 2 ^ e.
Proof. intro H. now rewrite Zpower_Qpower. Qed.

Lemma pow2_S e : 2 ^ (e + 1) == 2 * 2 ^ e.
Proof. rewrite Qpower_plus by exact two_nonzero. change (2 ^ 1) with 2. ring. Qed.

(** What [exponent] computes. *)
Lemma exponent_spec q : 0 < q -> 2 ^ exponent q <= q /\ q < 2 ^ (exponent q + 1).
Proof.
  intro Hq. unfold exponent.
  destruct q as [n d]. cbn [Qnum Qden].
  assert (Hn : (0 < n)%Z) by (unfold Qlt in Hq; cbn in Hq; lia).
  set (a := Z.log2 n). set (b := Z.log2 (Z.pos d)).
  pose proof (Z.log2_spec n Hn) as [A1 A2]. fold a in A1, A2.
  pose proof (Z.log2_spec (Z.pos d) ltac:(lia)) as [B1 B2]. fold b in B1, B2.
  pose proof (Z.log2_nonneg n) as A0. fold a in A0.
  pose proof (Z.log2_nonneg (Z.pos d)) as B0. fold b in B0.
  assert (Q : n # d == inject_Z n / inject_Z (Z.pos d)) by (rewrite Qmake_Qdiv; reflexivity).
  assert (Dpos : 0 < inject_Z (Z.pos d)) by (change 0 with (inject_Z 0); rewrite <- Zlt_Qlt; lia).
  (* the bounds of numerator and denominator, in Q *)
  rewrite Zle_Qle in A1, B1. rewrite Zlt_Qlt in A2, B2.
  rewrite pow2_Z in A1, B1 by lia.
  unfold Z.succ in A2, B2. rewrite pow2_Z in A2, B2 by lia.
  assert (Lo : 2 ^ (a - b - 1) <= n # d).
  { rewrite Q. apply Qle_shift_div_l; [exact Dpos|].
    assert (E : 2 ^ a == 2 ^ (a - b - 1) * 2 ^ (b + 1)).
    { rewrite <- Qpower_plus by exact two_nonzero. now replace (a - b - 1 + (b + 1))%Z with a by lia. }
    pose proof (pow2_pos (a - b - 1)). nra. }
  assert (Hi : n # d < 2 ^ (a - b + 1)).
  { rewrite Q. apply Qlt_shift_div_r; [exact Dpos|].
    assert (E : 2 ^ (a + 1) == 2 ^ (a - b + 1) * 2 ^ b).
    { rewrite <- Qpower_plus by exact two_nonzero. now replace (a - b + 1 + b)%Z with (a + 1)%Z by lia. }
    pose proof (pow2_pos (a - b + 1)). nra. }
  destruct (Qle_bool (2 ^ (a - b)) (n # d)) eqn:E.
  - apply Qle_bool_iff in E. split; [exact E | exact Hi].
  - assert (L : n # d < 2 ^ (a - b)).
    { apply Qnot_le_lt. intro L. apply Qle_bool_iff in L. congruence. }
    split; [exact Lo|]. now replace (a - b - 1 + 1)%Z with (a - b)%Z by lia.
Qed.

Lemma exponent_monotone a b : 0 < a -> a <= b -> (exponent a <= exponent b)%Z.
Proof.
  intros Ha Hab.
  destruct (exponent_spec Ha) as [A _].
  destruct (@exponent_spec b ltac:(lra)) as [_ B].
  assert (L : 2 ^ exponent a < 2 ^ (exponent b + 1)) by lra.
  apply Qpower_lt_compat_l_inv in L; [lia | reflexivity].
Qed.

Lemma binary64_pos_monotone a b : 0 < a -> a <= b -> binary64_pos a <= binary64_pos b.
Proof.
  intros Ha Hab. assert (Hb : 0 < b) by lra.
  pose proof (exponent_monotone Ha Hab) as K.
  unfold binary64_pos.
  set (ea := Z.max (exponent a - 52) (-1074)).
  set (eb := Z.max (exponent b - 52) (-1074)).
  assert (E : (ea <= eb)%Z) by (unfold ea, eb; lia).
  pose proof (pow2_pos ea) as Pa. pose proof (pow2_pos eb) as Pb.
  destruct (Z.eq_dec ea eb) as [Eq|Ne].
  - rewrite <- Eq.
    apply Qmult_le_compat_r; [|lra].
    rewrite <- Zle_Qle. apply round_half_even_monotone.
    apply Qmult_le_compat_r; [exact Hab|].
    apply Qlt_le_weak, Qinv_lt_0_compat, Pa.
  - assert (Eb : eb = (exponent b - 52)%Z) by (unfold ea, eb in *; lia).
    assert (Kb : (exponent a + 1 <= exponent b)%Z) by (unfold ea, eb in *; lia).
    apply Qle_trans with (2 ^ exponent b).
    + (* the smaller number does not pass the lower end of the binade above *)
      set (N := (2 ^ (exponent b - ea))%Z).
      assert (HN : inject_Z N * 2 ^ ea == 2 ^ exponent b).
      { unfold N. rewrite pow2_Z by lia.
        rewrite <- Qpower_plus by exact two_nonzero.
        now replace (exponent b - ea + ea)%Z with (exponent b) by lia. }
      rewrite <- HN.
      apply Qmult_le_compat_r; [|lra].
      rewrite <- Zle_Qle. rewrite <- (round_half_even_Z N).
      apply round_half_even_monotone.
      apply Qle_shift_div_r; [exact Pa|]. rewrite HN.
      destruct (exponent_spec Ha) as [_ A].
      apply Qle_trans with (2 ^ (exponent a + 1)); [lra|].
      apply Qpower_le_compat_l; [lia | discriminate].
    + set (N := (2 ^ 52)%Z).
      assert (HN : inject_Z N * 2 ^ eb == 2 ^ exponent b).
      { unfold N. rewrite pow2_Z by lia.
        rewrite <- Qpower_plus by exact two_nonzero.
        now replace (52 + eb)%Z with (exponent b) by lia. }
      rewrite <- HN.
      apply Qmult_le_compat_r; [|lra].
      rewrite <- Zle_Qle. rewrite <- (round_half_even_Z N).
      apply round_half_even_monotone.
      apply Qle_shift_div_l; [exact Pb|]. rewrite HN.
      now destruct (exponent_spec Hb).
Qed.

Lemma binary64_pos_nonneg q : 0 < q -> 0 <= binary64_pos q.
Proof.
  intro H. unfold binary64_pos.
  set (e := Z.max (exponent q - 52) (-1074)).
  pose proof (pow2_pos e) as P.
  apply Qmult_le_0_compat; [|lra].
  change 0 with (inject_Z 0). rewrite <- Zle_Qle.
  rewrite <- (round_half_even_Z 0). apply round_half_even_monotone.
  apply Qle_shift_div_l; [exact P|]. change (inject_Z 0) with 0. lra.
Qed.

Lemma Qnum_pos q : (exists p, Qnum q = Z.pos p) <-> 0 < q.
Proof.
  destruct q as [n d]. unfold Qlt. cbn. split.
  - intros [p ->]. lia.
  - intro H. destruct n; try lia. now eexists.
Qed.

Lemma Qnum_neg q : (exists p, Qnum q = Z.neg p) <-> q < 0.
Proof.
  destruct q as [n d]. unfold Qlt. cbn. split.
  - intros [p ->]. lia.
  - intro H. destruct n; try lia. now eexists.
Qed.

Lemma Qnum_zero q : Qnum q = 0%Z <-> q == 0.
Proof.
  destruct q as [n d]. unfold Qeq. cbn. lia.
Qed.

(** The sign of a number and the double it rounds to. *)
Lemma binary64_cases q :
  (q == 0 /\ binary64 q = 0)
  \/ (0 < q /\ binary64 q == binary64_pos q)
  \/ (q < 0 /\ binary64 q == - binary64_pos (- q)).
Proof.
  unfold binary64. destruct (Qnum q) as [|p|p] eqn:E.
  - left. split; [now apply Qnum_zero | reflexivity].
  - right. left. split; [apply Qnum_pos; eauto | apply Qred_correct].
  - right. right. split; [apply Qnum_neg; eauto | apply Qred_correct].
Qed.

(** Rounding to a double keeps the order. *)
Lemma binary64_monotone a b : a <= b -> binary64 a <= binary64 b.
Proof.
  intro H.
  destruct (binary64_cases a) as [[A ->]|[[A ->]|[A ->]]],
           (binary64_cases b) as [[B ->]|[[B ->]|[B ->]]]; try lra.
  - now apply binary64_pos_nonneg.
  - now apply binary64_pos_monotone.
  - pose proof (@binary64_pos_nonneg (- a) ltac:(lra)). lra.
  - pose proof (@binary64_pos_nonneg (- a) ltac:(lra)).
    pose proof (@binary64_pos_nonneg b ltac:(lra)). lra.
  - pose proof (@binary64_pos_monotone (- b) (- a) ltac:(lra) ltac:(lra)). lra.
Qed.

Lemma binary64_eq a b : a == b -> binary64 a = binary64 b.
Proof.
  intro H.
  assert (E : binary64 a == binary64 b).
  { apply Qle_antisym; apply binary64_monotone; lra. }
  assert (R : forall q, Qred (binary64 q) = binary64 q).
  { intro q. unfold binary64. destruct (Qnum q); [reflexivity| |];
      apply Qred_complete, Qred_correct. }
  rewrite <- (R a), <- (R b). now apply Qred_complete.
Qed.

(** A number that is a double is a bound for the doubles of the numbers
    it bounds. *)
Lemma binary64_le (q c : Q) : binary64 c == c -> q <= c -> binary64 q <= c.
Proof. intros E H. rewrite <- E. now apply binary64_monotone. Qed.

Lemma binary64_ge (q c : Q) : binary64 c == c -> c <= q -> c <= binary64 q.
Proof. intros E H. rewrite <- E. now apply binary64_monotone. Qed.

Arguments binary64 : simpl never.

(** Some numbers that are doubles. *)
Lemma binary64_whole (n : Z) : (Z.abs n <= 2 ^ 53)%Z -> binary64 (inject_Z n) == inject_Z n.
Proof.
  intro H.
  assert (P : forall p, (Z.pos p <= 2 ^ 53)%Z ->
                        binary64_pos (inject_Z (Z.pos p)) == inject_Z (Z.pos p)).
  { intros p Hp. unfold binary64_pos.
    assert (Hq : 0 < inject_Z (Z.pos p)) by reflexivity.
    destruct (exponent_spec Hq) as [_ U].
    set (k := exponent (inject_Z (Z.pos p))) in *.
    assert (Hk : (k <= 53)%Z).
    { assert (L : 2 ^ k <= 2 ^ 53).
      { destruct (exponent_spec Hq) as [L _]. fold k in L.
        eapply Qle_trans; [exact L|]. rewrite <- pow2_Z by lia. now rewrite <- Zle_Qle. }
      apply Qpower_le_compat_l_inv in L; [exact L | reflexivity]. }
    set (e := Z.max (k - 52) (-1074)).
    destruct (Z.le_gt_cases e 0) as [He|He].
    - (* the number is a multiple of the unit in the last place *)
      assert (E : inject_Z (Z.pos p) / 2 ^ e == inject_Z (Z.pos p * 2 ^ (- e))).
      { rewrite inject_Z_mult, pow2_Z by lia. rewrite Qpower_opp. reflexivity. }
      rewrite (round_half_even_eq E), round_half_even_Z, inject_Z_mult, pow2_Z by lia.
      rewrite Qpower_opp. field. apply Qpower_not_0. discriminate.
    - (* only [2^53] itself has a unit of 2 *)
      assert (k = 53%Z) by (unfold e in He; lia).
      assert (e = 1%Z) by (unfold e; lia).
      assert (Z.pos p = (2 ^ 53)%Z).
      { destruct (exponent_spec Hq) as [L _]. fold k in L.
        replace k with 53%Z in L by lia.
        rewrite <- pow2_Z in L by lia. rewrite <- Zle_Qle in L. lia. }
      replace e with 1%Z by lia. replace (Z.pos p) with (2 ^ 53)%Z by lia.
      vm_compute. reflexivity. }
  unfold binary64. destruct n as [|p|p]; cbn [inject_Z Qnum].
  - reflexivity.
  - rewrite Qred_correct. apply (P p). lia.
  - rewrite Qred_correct.
    change (- (Z.neg p # 1)) with (inject_Z (Z.pos p)).
    rewrite (P p) by lia. reflexivity.
Qed.

(** The rounding at work: the doubles nearest to 1.2 and to a third, the
    sum 0.1 + 0.2 of doubles, two ties that go to the even significand, a
    negative number, and the halves of the smallest subnormal number. *)
Example binary64_samples :
  binary64 (12 # 10) = 5404319552844595 # 4503599627370496
  /\ binary64 (1 # 3) = 6004799503160661 # 18014398509481984
  /\ binary64 (binary64 (1 # 10) + binary64 (2 # 10))
     = 1351079888211149 # 4503599627370496
  /\ binary64 (inject_Z (2 ^ 53 + 1)) = inject_Z (2 ^ 53)
  /\ binary64 (inject_Z (2 ^ 53 + 3)) = inject_Z (2 ^ 53 + 4)
  /\ binary64 (- (12 # 10)) = - (5404319552844595 # 4503599627370496)
  /\ binary64 (2 ^ (-1075)) = 0
  /\ binary64 (3 * 2 ^ (-1075)) == 2 ^ (-1073).
Proof. split_all; vm_compute; reflexivity. Qed.

Definition sample_object : text :=
  u "{" ++ quoted "players" ++ u ":[{" ++ quoted "id" ++ u ":1," ++ quoted "x"
    ++ u ":10.5," ++ quoted "team" ++ u ":" ++ quoted "home" ++ u "}], "
    ++ quoted "n" ++ u ": -2e-1, " ++ quoted "t" ++ u ":[true,null]}".

Example parse_sample :
  JSON.parse sample_object
  = Some (JObj [(u "players",
                 JArr [JObj [(u "id", JNum 1); (u "x", JNum (21 # 2));
                             (u "team", JStr (u "home"))]]);
                (u "n", JNum (-1 # 5));
                (u "t", JArr [JBool true; JNull])]).
Proof. vm_compute. reflexivity. Qed.

Example parse_rejects_bare_key : JSON.parse (u "{x}") = None.
Proof. vm_compute. reflexivity. Qed.

Example parse_rejects_trailing : JSON.parse (u "{} then {}") = None.
Proof. vm_compute. reflexivity. Qed.

Example Number_examples :
  Number (Some (JStr (u " 12.5 "))) = Fin (25 # 2)
  /\ Number (Some (JStr (u "0x1F"))) = Fin 31
  /\ Number (Some (JStr (u "abc"))) = NaN
  /\ Number (Some (JArr [JStr (u "7")])) = Fin 7
  /\ Number (Some (JObj [])) = NaN
  /\ Number None = NaN
  /\ Number (Some JNull) = Fin 0.
Proof. vm_compute. repeat split; reflexivity. Qed.

(* ----------------------------------------------------------------- *)
(** ** What a computation adds to the trace *)

Definition same_oracles (w w' : World) : Prop :=
  net w' = net w /\ latency w' = latency w /\ random w' = random w.

(** [m] only appends events that satisfy [Q], and leaves the oracles alone. *)
Definition only {A} (Q : event -> Prop) (m : M A) : Prop :=
  forall w, exists new,
    trace (snd (m w)) = trace w ++ new /\ Forall Q new /\ same_oracles w (snd (m w)).

Lemma same_oracles_refl w : same_oracles w w.
Proof. repeat split. Qed.

Lemma same_oracles_trans w1 w2 w3 :
  same_oracles w1 w2 -> same_oracles w2 w3 -> same_oracles w1 w3.
Proof.
  intros (a & b & c) (a' & b' & c'). repeat split; congruence.
Qed.

Section Only.
Context {A B : Type} (Q : event -> Prop).

Lemma only_ret (a : A) : only Q (ret a).
Proof.
  intro w. exists []. simpl. rewrite app_nil_r.
  repeat split; constructor.
Qed.

Lemma only_throw (e : exn) : only Q (@throw A e).
Proof.
  intro w. exists []. simpl. rewrite app_nil_r.
  repeat split; constructor.
Qed.

Lemma only_lift (r : result A) : only Q (lift r).
Proof.
  intro w. exists []. simpl. rewrite app_nil_r.
  repeat split; constructor.
Qed.

Lemma only_bind (m : M A) (f : A -> M B) :
  only Q m -> (forall a, only Q (f a)) -> only Q (bind m f).
Proof.
  intros Hm Hf w. unfold bind.
  destruct (Hm w) as (n1 & T1 & F1 & O1).
  destruct (m w) as [[a|e] w1]; simpl in *.
  - destruct (Hf a w1) as (n2 & T2 & F2 & O2).
    exists (n1 ++ n2). rewrite T2, T1, app_assoc.
    repeat split; try apply Forall_app; auto;
      destruct O1 as (?&?&?), O2 as (?&?&?); congruence.
  - exists n1. auto.
Qed.

Lemma only_try_catch (m : M A) (h : exn -> M A) :
  only Q m -> (forall e, only Q (h e)) -> only Q (try_catch m h).
Proof.
  intros Hm Hh w. unfold try_catch.
  destruct (Hm w) as (n1 & T1 & F1 & O1).
  destruct (m w) as [[a|e] w1]; simpl in *.
  - exists n1. auto.
  - destruct (Hh e w1) as (n2 & T2 & F2 & O2).
    exists (n1 ++ n2). rewrite T2, T1, app_assoc.
    repeat split; try apply Forall_app; auto;
      destruct O1 as (?&?&?), O2 as (?&?&?); congruence.
Qed.

End Only.

Lemma only_now Q : only Q now.
Proof.
  intro w. exists []. simpl. rewrite app_nil_r. repeat split; constructor.
Qed.

Lemma only_random Q : only Q Math_random.
Proof.
  intro w. exists []. simpl. rewrite app_nil_r. repeat split; constructor.
Qed.

Lemma only_sleep (Q : event -> Prop) ms : Q (Sleep ms) -> only Q (sleep ms).
Proof.
  intros H w. exists [Sleep ms]. simpl. repeat split. now constructor.
Qed.

Lemma only_log (Q : event -> Prop) e : Q e -> only Q (log e).
Proof.
  intros H w. exists [e]. simpl. repeat split. now constructor.
Qed.

Lemma only_fetch (Q : event -> Prop) r : Q (Fetch r) -> only Q (fetch r).
Proof.
  intros H w. exists [Fetch r]. unfold fetch.
  destruct (net w (fetches w)); simpl; repeat split; now constructor.
Qed.

Lemma only_json_of Q r : only Q (json_of r).
Proof.
  unfold json_of. destruct (JSON.parse (body r)); [apply only_ret | apply only_throw].
Qed.

Ltac only_step :=
  repeat first
    [ apply only_bind; [|intro]
    | apply only_try_catch; [|intro]
    | apply only_ret | apply only_throw | apply only_lift | apply only_now
    | apply only_random | apply only_json_of
    | apply only_sleep | apply only_log | apply only_fetch
    | match goal with |- only _ (if ?b then _ else _) => destruct b end
    | match goal with |- only _ (match ?x with _ => _ end) => destruct x end ].

(** An event that is not a PUT request. *)
Definition not_put (e : event) : Prop :=
  match e with
  | Fetch (PutBytes _ _ _ _ _ _) => False
  | _ => True
  end.

Lemma puts_app a b : puts (a ++ b) = puts a ++ puts b.
Proof. unfold puts. apply flat_map_app. Qed.

Lemma puts_not_put new : Forall not_put new -> puts new = [].
Proof.
  induction 1 as [|e l He _ IH]; [reflexivity|].
  unfold puts in *. simpl. rewrite IH.
  destruct e as [[] | |]; simpl in *; try reflexivity; contradiction.
Qed.

Lemma poll_not_put rounds fileName st mx ci :
  only not_put (PlayerPerformance.poll rounds fileName st mx ci).
Proof.
  revert ci. induction rounds as [|n IH]; intro ci; simpl.
  - apply only_throw.
  - apply only_bind; [apply only_now|intro t].
    destruct (Qlt_bool (t - st) mx); [|apply only_throw].
    apply only_bind.
    + unfold PlayerPerformance.poll_round. only_step; exact I.
    + intros [v|ci']; [apply only_ret | apply IH].
Qed.

Lemma finish_upload_not_put r : only not_put (PlayerPerformance.finish_upload r).
Proof.
  unfold PlayerPerformance.finish_upload, PlayerPerformance.waitForFileProcessing.
  only_step; try exact I; apply poll_not_put.
Qed.

(* ----------------------------------------------------------------- *)
(** ** The chunked upload *)

Lemma Math_ceil_div (n d : Z) :
  (0 < d)%Z -> Math_ceil (inject_Z n / inject_Z d) = ((n + d - 1) / d)%Z.
Proof.
  intro Hd. destruct d as [|p|p]; try lia.
  unfold Math_ceil, Qceiling, Qfloor, Qdiv, Qinv, Qmult, Qopp, inject_Z. simpl.
  rewrite Z.mul_1_r.
  assert (H : (Z.pos p > 0)%Z) by lia.
  pose proof (Z_div_mod_eq_full (- n) (Z.pos p)) as E1.
  pose proof (Z_mod_lt (- n) (Z.pos p) H) as B1.
  apply Z.div_unique with (r := (Z.pos p - 1 - (- n) mod Z.pos p)%Z).
  - left. lia.
  - lia.
Qed.

(** A server that accepts an upload of [n] PUT requests: it answers the
    start request with a 2xx status and the upload URL [url], which is not
    empty, and each of the [n] requests that follow with a 2xx status.
    Nothing is asked of the headers of those answers, nor of any later
    answer (the status polls). *)
Definition accepting (url : text) (n : nat) (w : World) : Prop :=
  url <> []
  /\ (exists r, net w (fetches w) = Some r /\ ok r = true /\ uploadUrlHeader r = Some url)
  /\ forall k, (k < n)%nat -> exists r, net w (S (fetches w) + k) = Some r /\ ok r = true.

(** The [i]-th PUT of a chunked upload of [fileSize] bytes in [n] chunks. *)
Definition chunk_put (url : text) (fileSize n i : Z) : request :=
  let start := (i * PlayerPerformance.MAX_CHUNK_SIZE)%Z in
  let end_ := Z.min (start + PlayerPerformance.MAX_CHUNK_SIZE) fileSize in
  PutBytes url (end_ - start) start
           (if (i =? n - 1)%Z then UploadFinalize else Upload) start end_.

Definition zrange (i : Z) (n : nat) : list Z := map (fun k => (i + Z.of_nat k)%Z) (seq 0 n).

Lemma zrange_S i n : zrange i (S n) = i :: zrange (i + 1) n.
Proof.
  unfold zrange. simpl. rewrite Z.add_0_r. f_equal.
  rewrite <- seq_shift, map_map. apply map_ext. intro k. lia.
Qed.

Lemma upload_chunks_puts url fileSize n :
  forall remaining i w,
    (forall k, (k < remaining)%nat ->
               exists r, net w (fetches w + k) = Some r /\ ok r = true) ->
    (Z.of_nat remaining = n - i)%Z ->
    (1 <= remaining)%nat ->
    exists new,
      trace (snd (PlayerPerformance.upload_chunks remaining url fileSize n i w))
      = trace w ++ new
      /\ puts new = map (chunk_put url fileSize n) (zrange i remaining).
Proof.
  induction remaining as [|r IH]; intros i w Hack Hrem Hpos; [lia|].
  rewrite zrange_S. cbn [PlayerPerformance.upload_chunks map].
  unfold bind at 1. unfold fetch at 1.
  destruct (Hack O ltac:(lia)) as (resp & Hnet & Hok).
  rewrite Nat.add_0_r in Hnet.
  rewrite Hnet, Hok. cbn [negb].
  unfold chunk_put at 1.
  destruct (i =? n - 1)%Z eqn:Elast.
  - (* the last chunk *)
    apply Z.eqb_eq in Elast.
    assert (r = O) by lia. subst r.
    match goal with
    | |- context [PlayerPerformance.finish_upload resp ?W] =>
        destruct (finish_upload_not_put resp W) as (new & T & F & _)
    end.
    cbn [trace] in T.
    eexists (_ :: new). rewrite T, <- app_assoc. split; [reflexivity|].
    match goal with
    | |- puts (?e :: new) = _ => change (e :: new) with ([e] ++ new)
    end.
    rewrite puts_app, (puts_not_put F), app_nil_r. reflexivity.
  - apply Z.eqb_neq in Elast.
    match goal with
    | |- context [PlayerPerformance.upload_chunks r url fileSize n (i + 1) ?W] =>
        destruct (IH (i + 1)%Z W) as (new & T & P);
          [ intros k Hk; cbn [net fetches];
            destruct (Hack (S k) ltac:(lia)) as (rk & Hk1 & Hk2);
            exists rk; split; [|exact Hk2];
            rewrite <- Hk1; f_equal; lia
          | lia | lia | ]
    end.
    cbn [trace] in T.
    eexists (_ :: new). rewrite T, <- app_assoc. split; [reflexivity|].
    match goal with
    | |- puts (?e :: new) = _ => change (e :: new) with ([e] ++ new)
    end.
    rewrite puts_app, P. reflexivity.
Qed.

Definition put_url (r : request) : text :=
  match r with PutBytes url _ _ _ _ _ => url | _ => [] end.
Definition put_length (r : request) : Z :=
  match r with PutBytes _ l _ _ _ _ => l | _ => 0%Z end.
Definition put_offset (r : request) : Z :=
  match r with PutBytes _ _ o _ _ _ => o | _ => 0%Z end.
Definition put_command (r : request) : Command :=
  match r with PutBytes _ _ _ c _ _ => c | _ => Upload end.
Definition put_body (r : request) : Z * Z :=
  match r with PutBytes _ _ _ _ a b => (a, b) | _ => (0, 0)%Z end.

Lemma nth_error_zrange i n k :
  (k < n)%nat -> nth_error (zrange i n) k = Some (i + Z.of_nat k)%Z.
Proof.
  intro H. unfold zrange. rewrite nth_error_map, nth_error_seq.
  destruct (Nat.ltb_spec k n); [reflexivity | lia].
Qed.

Lemma nth_error_chunks url fileSize n m k r :
  nth_error (map (chunk_put url fileSize n) (zrange 0 m)) k = Some r ->
  (k < m)%nat /\ r = chunk_put url fileSize n (Z.of_nat k).
Proof.
  intro H.
  assert (L : (k < m)%nat).
  { assert (N : nth_error (map (chunk_put url fileSize n) (zrange 0 m)) k <> None)
      by congruence.
    apply nth_error_Some in N. unfold zrange in N.
    now rewrite !length_map, length_seq in N. }
  split; [exact L|].
  rewrite nth_error_map, (nth_error_zrange 0 L) in H. simpl in H.
  now injection H as <-.
Qed.

(** C1.  A file larger than the 50 MiB chunk size, sent to a server that
    answers the start request with the upload URL and each chunk with a 2xx
    status, is uploaded with exactly [ceil(fileSize / MAX_CHUNK_SIZE)] PUT
    requests, whatever the server answers afterwards.  The [k]-th PUT carries
    the offset [k * MAX_CHUNK_SIZE], a body of the bytes from that offset
    up to the offset of the next PUT (the end of the file for the last
    one), and a content length of the same size; consecutive offsets are
    contiguous and strictly increasing; the command is [upload, finalize]
    on the last PUT and [upload] on every other. *)
Theorem chunked_upload_puts (videoFile : File) (url : text) (w : World) :
  let fileSize := Z.of_N (file_size videoFile) in
  let chunkSize := PlayerPerformance.MAX_CHUNK_SIZE in
  (chunkSize < fileSize)%Z ->
  accepting url (Z.to_nat (Math_ceil (inject_Z fileSize / inject_Z chunkSize))) w ->
  exists new : list event,
    trace (snd (PlayerPerformance.uploadVideoToFilesAPI videoFile w)) = trace w ++ new
    /\ Z.of_nat (length (puts new)) = Math_ceil (inject_Z fileSize / inject_Z chunkSize)
    /\ (forall k r, nth_error (puts new) k = Some r ->
          put_url r = url
          /\ put_offset r = (Z.of_nat k * chunkSize)%Z
          /\ (0 < put_length r <= chunkSize)%Z
          /\ put_body r = (put_offset r, (put_offset r + put_length r)%Z)
          /\ put_command r = (if Nat.eqb (S k) (length (puts new))
                              then UploadFinalize else Upload))
    /\ (forall k r r', nth_error (puts new) k = Some r ->
          nth_error (puts new) (S k) = Some r' ->
          put_offset r' = (put_offset r + put_length r)%Z
          /\ (put_offset r < put_offset r')%Z)
    /\ (forall r, nth_error (puts new) (length (puts new) - 1) = Some r ->
          (put_offset r + put_length r)%Z = fileSize).
Proof.
  intros fileSize chunkSize Hbig Hack.
  assert (Hmax : (0 < chunkSize)%Z) by reflexivity.
  set (n := Math_ceil (inject_Z fileSize / inject_Z chunkSize)).
  assert (Hn : n = ((fileSize + chunkSize - 1) / chunkSize)%Z)
    by (apply Math_ceil_div; exact Hmax).
  assert (Hlo : ((n - 1) * chunkSize < fileSize)%Z /\ (fileSize <= n * chunkSize)%Z).
  { pose proof (Z_div_mod_eq_full (fileSize + chunkSize - 1) chunkSize) as E.
    pose proof (Z_mod_lt (fileSize + chunkSize - 1) chunkSize ltac:(lia)) as B.
    rewrite <- Hn in E. lia. }
  assert (Hn2 : (2 <= n)%Z) by nia.
  (* the run *)
  unfold PlayerPerformance.uploadVideoToFilesAPI.
  unfold bind at 1. unfold fetch at 1.
  destruct Hack as (Hne & (resp & Hnet & Hok & Hurl) & Hchunks).
  fold n in Hchunks.
  rewrite Hnet, Hok, Hurl. cbn [negb].
  destruct url as [|c url']; [contradiction|]. set (url := c :: url') in *.
  fold fileSize.
  destruct (fileSize <=? PlayerPerformance.MAX_CHUNK_SIZE)%Z eqn:Esmall;
    [apply Z.leb_le in Esmall; unfold chunkSize in Hbig; lia|].
  fold chunkSize. fold n.
  match goal with
  | |- context [PlayerPerformance.upload_chunks _ url fileSize n 0 ?W] =>
      destruct (@upload_chunks_puts url fileSize n (Z.to_nat n) 0%Z W)
        as (new & T & P);
        [ exact Hchunks | lia | lia | ]
  end.
  cbn [trace] in T.
  eexists (_ :: new). rewrite T, <- app_assoc. split; [reflexivity|].
  match goal with
  | |- context [puts (?e :: new)] =>
      change (puts (e :: new)) with (puts new)
  end.
  rewrite P.
  assert (Hlen : length (map (chunk_put url fileSize n) (zrange 0 (Z.to_nat n)))
                 = Z.to_nat n).
  { unfold zrange. now rewrite !length_map, length_seq. }
  rewrite Hlen.
  split; [lia|]. split; [|split].
  - intros k r H. apply nth_error_chunks in H as [L ->].
    unfold chunk_put. cbn [put_url put_offset put_length put_body put_command].
    fold chunkSize.
    assert (Hk : (Z.of_nat k * chunkSize <= (n - 1) * chunkSize)%Z) by nia.
    split; [reflexivity|]. split; [reflexivity|]. split; [lia|].
    split; [f_equal; lia|].
    destruct (Nat.eqb_spec (S k) (Z.to_nat n)) as [E|E].
    + rewrite (proj2 (Z.eqb_eq _ _)); [reflexivity | lia].
    + rewrite (proj2 (Z.eqb_neq _ _)); [reflexivity | lia].
  - intros k r r' H H'.
    apply nth_error_chunks in H as [L ->].
    apply nth_error_chunks in H' as [L' ->].
    unfold chunk_put. cbn [put_offset put_length]. fold chunkSize.
    assert (Hk : (Z.of_nat (S k) * chunkSize <= (n - 1) * chunkSize)%Z) by nia.
    lia.
  - intros r H. apply nth_error_chunks in H as [L ->].
    unfold chunk_put. cbn [put_offset put_length]. fold chunkSize.
    replace (Z.of_nat (Z.to_nat n - 1)) with (n - 1)%Z by lia. lia.
Qed.

(** A server answer that serves every request of an upload: status 200,
    the upload URL header, and a body naming an ACTIVE file. *)
Definition ready_body : text :=
  u "{" ++ quoted "file" ++ u ":{" ++ quoted "name" ++ u ":" ++ quoted "files/abc"
    ++ u "," ++ quoted "uri" ++ u ":" ++ quoted "https://files/abc"
    ++ u "," ++ quoted "mimeType" ++ u ":" ++ quoted "video/mp4" ++ u "},"
    ++ quoted "state" ++ u ":" ++ quoted "ACTIVE" ++ u "}".

Definition ready : response := MkResponse 200 (Some (u "https://upload/session1")) ready_body.

(** A world at time 0 with nothing done yet. *)
Definition world_of (net_ : nat -> option response) (random_ : nat -> N) : World :=
  MkWorld 0 [] 0 0 net_ (fun _ => 100%N) random_.

Definition ready_world : World := world_of (fun _ => Some ready) (fun _ => 0%N).

Definition video_of_size (bytes : N) : File :=
  MkFile (u "match.mp4") bytes (u "video/mp4").

(** A server that names the upload URL once, in its answer to the start
    request, and answers every other request with status 200 and the body
    of an ACTIVE file, without that header. *)
Definition session_world : World :=
  world_of (fun k => match k with
                     | O => Some (MkResponse 200 (Some (u "https://upload/session1")) [])
                     | _ => Some (MkResponse 200 None ready_body)
                     end)
           (fun _ => 0%N).

Lemma session_world_accepting n : accepting (u "https://upload/session1") n session_world.
Proof.
  split; [discriminate|]. split.
  - eexists. repeat split.
  - intros k _. eexists. split; reflexivity.
Qed.

(** A file of 120 MiB goes up in three PUTs: 50 MiB, 50 MiB and 20 MiB. *)
Example upload_120MiB :
  requests (trace (snd (PlayerPerformance.uploadVideoToFilesAPI
                          (video_of_size (120 * 1024 * 1024)) ready_world)))
  = [StartUpload 125829120 (u "video/mp4") (u "match.mp4");
     PutBytes (u "https://upload/session1") 52428800 0 Upload 0 52428800;
     PutBytes (u "https://upload/session1") 52428800 52428800 Upload 52428800 104857600;
     PutBytes (u "https://upload/session1") 20971520 104857600 UploadFinalize
              104857600 125829120;
     GetFile (Some (JStr (u "files/abc")))].
Proof. vm_compute. reflexivity. Qed.

Lemma chunked_upload_witness :
  (PlayerPerformance.MAX_CHUNK_SIZE
   < Z.of_N (file_size (video_of_size (120 * 1024 * 1024))))%Z
  /\ accepting (u "https://upload/session1") 3 session_world
  /\ exists new : list event,
       trace (snd (PlayerPerformance.uploadVideoToFilesAPI
                     (video_of_size (120 * 1024 * 1024)) session_world))
       = trace session_world ++ new
       /\ Z.of_nat (length (puts new)) = 3%Z.
Proof.
  split; [reflexivity|]. split; [exact (session_world_accepting 3)|].
  destruct (@chunked_upload_puts (video_of_size (120 * 1024 * 1024))
              (u "https://upload/session1") session_world
              eq_refl (session_world_accepting _))
    as (new & T & L & _).
  exists new. split; [exact T|]. rewrite L. reflexivity.
Defined.

(* ----------------------------------------------------------------- *)
(** ** The readiness pollers *)

(** A status answer that neither ends the wait nor fails it: status 2xx and
    a JSON body whose [state] is neither ACTIVE nor FAILED. *)
Definition processing (r : response) : Prop :=
  ok r = true
  /\ exists v st, JSON.parse (body r) = Some v /\ get v "state" = Ok st
                  /\ is_string st "ACTIVE" = false /\ is_string st "FAILED" = false.

Definition always_processing (w : World) : Prop :=
  forall k, exists r, net w k = Some r /\ processing r.

Lemma always_processing_same w w' :
  same_oracles w w' -> always_processing w -> always_processing w'.
Proof. intros (E & _) H k. rewrite E. apply H. Qed.

(** The update of the polling interval: [Math.min(checkInterval * 1.2, 30000)],
    the product being a double. *)
Definition grow (checkInterval : Q) : Q :=
  Math_min (binary64 (checkInterval * binary64 (12 # 10))) 30000.

(** The interval slept after the [k]-th poll when every poll so far
    answered PROCESSING. *)
Definition backoff (k : nat) : Q := Nat.iter k grow 5000.

Lemma sleeps_app a b : sleeps (a ++ b) = sleeps a ++ sleeps b.
Proof. unfold sleeps. apply flat_map_app. Qed.

Lemma polls_app a b : polls (a ++ b) = polls a ++ polls b.
Proof. unfold polls. apply flat_map_app. Qed.

Lemma iter_shift {A} (f : A -> A) k a : Nat.iter k f (f a) = f (Nat.iter k f a).
Proof. induction k; simpl; congruence. Qed.

Lemma latency_nonneg (n : N) : 0 <= inject_Z (Z.of_N n).
Proof.
  change 0 with (inject_Z 0). rewrite <- Zle_Qle. lia.
Qed.

Lemma grow_ge ci : 5000 <= ci -> 5000 <= grow ci.
Proof.
  intro H. unfold grow. apply Math_min_glb; [|lra].
  apply binary64_ge; [exact (binary64_whole 5000 ltac:(lia))|].
  assert (D : 1 <= binary64 (12 # 10)) by (vm_compute; discriminate).
  nra.
Qed.

(** One round of the performance poller always ends normally: with the
    file status, or with the interval for the next round after a sleep of
    the current interval. *)
Lemma poll_round_total fileName ci w :
  exists r w',
    PlayerPerformance.poll_round fileName ci w = (Ok r, w')
    /\ same_oracles w w'
    /\ match r with
       | PlayerPerformance.Return _ => True
       | PlayerPerformance.Continue ci' =>
           clock w + ci <= clock w' /\ (ci' = ci \/ ci' = grow ci)
       end.
Proof.
  unfold PlayerPerformance.poll_round, try_catch, bind, fetch, throw, ret, lift,
    sleep, log, json_of.
  pose proof (latency_nonneg (latency w (fetches w))) as L.
  destruct (net w (fetches w)) as [resp|]; cbn.
  2:{ eexists _, _. split; [reflexivity|]. split; [repeat split|]. cbn. split; [lra|auto]. }
  destruct (ok resp); cbn.
  2:{ eexists _, _. split; [reflexivity|]. split; [repeat split|]. cbn. split; [lra|auto]. }
  destruct (JSON.parse (body resp)) as [v|]; cbn.
  2:{ eexists _, _. split; [reflexivity|]. split; [repeat split|]. cbn. split; [lra|auto]. }
  destruct (get v "state") as [st|e]; cbn.
  2:{ eexists _, _. split; [reflexivity|]. split; [repeat split|]. cbn. split; [lra|auto]. }
  destruct (is_string st "ACTIVE"); cbn.
  { eexists _, _. split; [reflexivity|]. split; [repeat split|]. exact I. }
  destruct (is_string st "FAILED"); cbn.
  { eexists _, _. split; [reflexivity|]. split; [repeat split|]. cbn. split; [lra|auto]. }
  eexists _, _. split; [reflexivity|]. split; [repeat split|]. cbn.
  split; [lra|right; reflexivity].
Qed.

Lemma poll_S r fileName st mx ci w :
  PlayerPerformance.poll (S r) fileName st mx ci w
  = if Qlt_bool (clock w - st) mx then
      match PlayerPerformance.poll_round fileName ci w with
      | (Ok (PlayerPerformance.Return v), w') => (Ok v, w')
      | (Ok (PlayerPerformance.Continue ci'), w') =>
          PlayerPerformance.poll r fileName st mx ci' w'
      | (Throw e, w') => (Throw e, w')
      end
    else (Throw (Err "file processing timed out"), w).
Proof.
  cbn [PlayerPerformance.poll]. unfold bind at 1. unfold now at 1.
  destruct (Qlt_bool (clock w - st) mx); [|reflexivity].
  unfold bind.
  destruct (PlayerPerformance.poll_round fileName ci w) as [[[v|ci']|e] w']; reflexivity.
Qed.

(** The outcomes the performance poller can have. *)
Definition ended (o : result json) : Prop :=
  (exists fileStatus, o = Ok fileStatus) \/ o = Throw (Err "file processing timed out").

Lemma poll_ends fileName st mx :
  forall r ci w,
    5000 <= ci ->
    mx - (clock w - st) <= 5000 * inject_Z (Z.of_nat r) ->
    ended (fst (PlayerPerformance.poll (S r) fileName st mx ci w)).
Proof.
  induction r as [|r IH]; intros ci w Hci Hbudget; rewrite poll_S.
  - destruct (Qlt_bool (clock w - st) mx) eqn:E; [|right; reflexivity].
    apply Qlt_bool_iff in E.
    change (inject_Z (Z.of_nat 0)) with 0 in Hbudget. lra.
  - destruct (Qlt_bool (clock w - st) mx) eqn:E; [|right; reflexivity].
    destruct (poll_round_total fileName ci w) as (o & w' & -> & _ & H).
    destruct o as [v|ci']; [left; eexists; reflexivity|].
    destruct H as [Hclock Hci'].
    apply IH.
    + destruct Hci' as [->| ->]; [exact Hci | now apply grow_ge].
    + rewrite Nat2Z.inj_succ, <- Z.add_1_r, inject_Z_plus in Hbudget.
      change (inject_Z 1) with 1 in Hbudget. lra.
Qed.

Lemma rounds_budget (mx : Q) :
  mx <= 5000 * inject_Z (Z.of_nat (Z.to_nat (Qceiling (mx / 5000)))).
Proof.
  pose proof (Qle_ceiling (mx / 5000)) as C.
  assert (Z : inject_Z (Qceiling (mx / 5000))
              <= inject_Z (Z.of_nat (Z.to_nat (Qceiling (mx / 5000))))).
  { rewrite <- Zle_Qle. lia. }
  assert (D : mx == 5000 * (mx / 5000)) by (field).
  lra.
Qed.

(** The performance poller always ends, and it never passes on the error
    of a failed status request: it returns the status of an ACTIVE file or
    it throws the timeout error. *)
Theorem performance_poller_ends fileName mx w :
  ended (fst (PlayerPerformance.waitForFileProcessing fileName mx w)).
Proof.
  unfold PlayerPerformance.waitForFileProcessing, PlayerPerformance.rounds_for.
  unfold bind at 1. unfold now at 1.
  apply poll_ends; [lra|].
  pose proof (rounds_budget mx). lra.
Qed.

Lemma poll_round_processing fileName ci w r :
  net w (fetches w) = Some r -> processing r ->
  PlayerPerformance.poll_round fileName ci w
  = (Ok (PlayerPerformance.Continue (grow ci)),
     MkWorld (clock w + inject_Z (Z.of_N (latency w (fetches w))) + ci)
             ((trace w ++ [Fetch (GetFile fileName)]) ++ [Sleep ci])
             (S (fetches w)) (draws w) (net w) (latency w) (random w)).
Proof.
  intros Hnet (Hok & v & st & Hparse & Hget & Ha & Hf).
  unfold PlayerPerformance.poll_round, try_catch, bind, fetch, json_of, lift.
  rewrite Hnet, Hok. cbn. rewrite Hparse. cbn. rewrite Hget, Ha, Hf. reflexivity.
Qed.

Lemma performance_poll_sleeps fileName st mx :
  forall r ci w,
    always_processing w ->
    exists n new,
      trace (snd (PlayerPerformance.poll r fileName st mx ci w)) = trace w ++ new
      /\ sleeps new = map (fun k => Nat.iter k grow ci) (seq 0 n)
      /\ (forall r', r = S r' -> Qlt_bool (clock w - st) mx = true -> (1 <= n)%nat).
Proof.
  induction r as [|r IH]; intros ci w Hw.
  - exists O, []. cbn. rewrite app_nil_r. repeat split. discriminate.
  - rewrite poll_S.
    destruct (Qlt_bool (clock w - st) mx) eqn:E.
    + destruct (Hw (fetches w)) as (resp & Hnet & Hp).
      rewrite (poll_round_processing fileName ci w Hnet Hp).
      match goal with
      | |- context [PlayerPerformance.poll r fileName st mx (grow ci) ?W] =>
          destruct (IH (grow ci) W) as (n & new & T & S_ & _);
            [eapply always_processing_same; [|exact Hw]; repeat split|]
      end.
      cbn [trace] in T.
      exists (S n), (Fetch (GetFile fileName) :: Sleep ci :: new).
      rewrite T, <- !app_assoc. split; [reflexivity|]. split; [|lia].
      change (Fetch (GetFile fileName) :: Sleep ci :: new)
        with ([Fetch (GetFile fileName); Sleep ci] ++ new).
      rewrite sleeps_app, S_. cbn [sleeps flat_map app seq map Nat.iter].
      f_equal. rewrite <- seq_shift, map_map. apply map_ext.
      intro k. rewrite iter_shift. reflexivity.
    + exists O, []. cbn. rewrite app_nil_r. repeat split. discriminate.
Qed.

Lemma large_video_poll_S r fileName st mx w :
  LargeVideo.poll (S r) fileName st mx w
  = if Qlt_bool (clock w - st) mx then
      bind (fetch (GetFile fileName))
        (fun statusResponse =>
           if negb (ok statusResponse)
           then throw (ErrStatus "file status check failed" (status statusResponse))
           else
             bind (json_of statusResponse)
               (fun fileStatus =>
                  bind (lift (get fileStatus "state"))
                    (fun state =>
                       if is_string state "ACTIVE" then ret fileStatus
                       else if is_string state "FAILED"
                            then throw (Err "file processing failed")
                            else bind (sleep 5000)
                                   (fun _ => LargeVideo.poll r fileName st mx)))) w
    else (Throw (Err "file processing timed out"), w).
Proof.
  cbn [LargeVideo.poll]. unfold bind at 1. unfold now at 1.
  destruct (Qlt_bool (clock w - st) mx); reflexivity.
Qed.

Lemma large_video_poll_sleeps fileName st mx :
  forall r w,
    always_processing w ->
    exists n new,
      trace (snd (LargeVideo.poll r fileName st mx w)) = trace w ++ new
      /\ sleeps new = repeat 5000 n
      /\ (forall r', r = S r' -> Qlt_bool (clock w - st) mx = true -> (1 <= n)%nat).
Proof.
  induction r as [|r IH]; intros w Hw.
  - exists O, []. cbn. rewrite app_nil_r. repeat split. discriminate.
  - rewrite large_video_poll_S.
    destruct (Qlt_bool (clock w - st) mx) eqn:E.
    + destruct (Hw (fetches w)) as (resp & Hnet & Hok & v & s & Hparse & Hget & Ha & Hf).
      unfold bind at 1. unfold fetch at 1. rewrite Hnet, Hok. cbn [negb].
      unfold bind at 1. unfold json_of. rewrite Hparse. unfold ret at 1.
      unfold bind at 1. unfold lift at 1. rewrite Hget, Ha, Hf.
      unfold bind at 1. unfold sleep at 1.
      cbn [clock trace fetches draws net latency random].
      match goal with
      | |- context [LargeVideo.poll r fileName st mx ?W] =>
          destruct (IH W) as (n & new & T & S_ & _);
            [eapply always_processing_same; [|exact Hw]; repeat split|]
      end.
      cbn [trace] in T.
      exists (S n), (Fetch (GetFile fileName) :: Sleep 5000 :: new).
      rewrite T, <- !app_assoc. split; [reflexivity|]. split; [|lia].
      change (Fetch (GetFile fileName) :: Sleep 5000 :: new)
        with ([Fetch (GetFile fileName); Sleep 5000] ++ new).
      rewrite sleeps_app, S_. reflexivity.
    + exists O, []. cbn. rewrite app_nil_r. repeat split. discriminate.
Qed.

Lemma backoff_bounds k : 5000 <= backoff k /\ backoff k <= 30000.
Proof.
  induction k as [|k [L H]]; [split; unfold backoff; cbn; lra|].
  change (backoff (S k)) with (grow (backoff k)). split.
  - now apply grow_ge.
  - apply Math_min_le_r.
Qed.

Lemma backoff_capped k : (10 <= k)%nat -> backoff k = 30000.
Proof.
  intro H. replace k with ((k - 10) + 10)%nat by lia.
  induction (k - 10)%nat as [|j IH]; [vm_compute; reflexivity|].
  change (backoff (S j + 10)) with (grow (backoff (j + 10))).
  rewrite IH. vm_compute. reflexivity.
Qed.

Lemma backoff_monotone k : backoff k <= backoff (S k).
Proof.
  destruct (Nat.lt_ge_cases k 10) as [H|H].
  - do 10 (destruct k as [|k]; [vm_compute; discriminate|]). lia.
  - rewrite !backoff_capped by lia. apply Qle_refl.
Qed.

(** The first ten intervals are the doubles that the repeated product
    gives; they differ from [5000 * 1.2^k] by less than [10^-11] ms. *)
Lemma backoff_about k :
  (k < 10)%nat -> Qabs (backoff k - 5000 * (12 # 10) ^ Z.of_nat k) <= 1 # 100000000000.
Proof.
  intro H. do 10 (destruct k as [|k]; [vm_compute; discriminate|]). lia.
Qed.

(** X16.  While every status poll answers PROCESSING, the performance
    poller sleeps [backoff 0], [backoff 1], ... between polls: the
    sequence starts at 5000 ms, each interval is the smaller of the
    interval before times 1.2 (a product of doubles) and 30000 ms, it
    never decreases and never exceeds 30000 ms; the first ten intervals
    are within [10^-11] ms of [5000 * 1.2^k], and from the eleventh on the
    interval is 30000 ms. *)
Theorem polling_intervals (fileName : jsval) (maxWaitTime : Q) (w : World) :
  always_processing w ->
  (exists n new,
      trace (snd (PlayerPerformance.waitForFileProcessing fileName maxWaitTime w))
      = trace w ++ new
      /\ sleeps new = map backoff (seq 0 n)
      /\ (0 < maxWaitTime -> (1 <= n)%nat))
  /\ backoff 0 = 5000
  /\ (forall k, backoff (S k)
                = Math_min (binary64 (backoff k * binary64 (12 # 10))) 30000)
  /\ (forall k, backoff k <= backoff (S k))
  /\ (forall k, 5000 <= backoff k /\ backoff k <= 30000)
  /\ (forall k, (k < 10)%nat ->
                Qabs (backoff k - 5000 * (12 # 10) ^ Z.of_nat k) <= 1 # 100000000000)
  /\ (forall k, (10 <= k)%nat -> backoff k = 30000).
Proof.
  intro Hw.
  assert (Hstart : 0 < maxWaitTime -> Qlt_bool (clock w - clock w) maxWaitTime = true).
  { intro H. apply Qlt_bool_iff. lra. }
  split.
  - unfold PlayerPerformance.waitForFileProcessing, PlayerPerformance.rounds_for.
    unfold bind at 1. unfold now at 1.
    destruct (@performance_poll_sleeps fileName (clock w) maxWaitTime
                (S (Z.to_nat (Qceiling (maxWaitTime / 5000)))) 5000 w Hw)
      as (n & new & T & S_ & N).
    exists n, new. split; [exact T|]. split; [exact S_|].
    intro H. eapply N; [reflexivity | now apply Hstart].
  - split; [reflexivity|]. split; [reflexivity|].
    split; [apply backoff_monotone|]. split; [apply backoff_bounds|].
    split; [apply backoff_about | apply backoff_capped].
Qed.

Definition processing_body : text :=
  u "{" ++ quoted "name" ++ u ":" ++ quoted "files/abc" ++ u ","
    ++ quoted "state" ++ u ":" ++ quoted "PROCESSING" ++ u "}".

Definition busy : response := MkResponse 200 None processing_body.

(** A world whose file stays in processing for ever. *)
Definition busy_world : World := world_of (fun _ => Some busy) (fun _ => 0%N).

Lemma busy_world_processing : always_processing busy_world.
Proof.
  intro k. exists busy. split; [reflexivity|]. split; [reflexivity|].
  eexists _, _. split; [vm_compute; reflexivity|]. cbv. repeat split.
Qed.

Lemma polling_intervals_witness :
  always_processing busy_world
  /\ exists n new,
       trace (snd (PlayerPerformance.waitForFileProcessing
                     (Some (JStr (u "files/abc"))) 600000 busy_world))
       = trace busy_world ++ new
       /\ sleeps new = map backoff (seq 0 n)
       /\ (0 < 600000 -> (1 <= n)%nat).
Proof.
  split; [exact busy_world_processing|].
  exact (proj1 (@polling_intervals (Some (JStr (u "files/abc"))) 600000 busy_world
                  busy_world_processing)).
Defined.

(** C8, the code at the failing input.  Answered PROCESSING every time,
    the large-video poller sleeps 5000 ms after each of the 59 polls that
    fit into its budget of 300 s: its second interval is 5000 ms again,
    which is not 5000 ms times 1.2.  Its sibling, the performance poller,
    does on the same answers what the claim says: it sleeps 5000, 6000,
    7200, 8640, 10368 ms and so on, each interval 1.2 times the one
    before as doubles, never more than 30000 ms. *)
Theorem large_video_poller_does_not_back_off :
  let fileName := Some (JStr (u "files/abc")) in
  let s := sleeps (trace (snd (LargeVideo.waitForFileProcessing
                                 fileName 300000 busy_world))) in
  let s' := sleeps (trace (snd (PlayerPerformance.waitForFileProcessing
                                  fileName 300000 busy_world))) in
  always_processing busy_world
  /\ s = repeat 5000 59
  /\ nth_error s 1 = Some 5000
  /\ ~ 5000 == Math_min (binary64 (5000 * binary64 (12 # 10))) 30000
  /\ firstn 5 s' = [5000; 6000; 7200; 8640; 10368]
  /\ s' = map backoff (seq 0 (length s'))
  /\ Forall (fun ms => ms <= 30000) s'.
Proof.
  cbv zeta. split; [exact busy_world_processing|].
  split; [vm_compute; reflexivity|]. split; [vm_compute; reflexivity|].
  split; [vm_compute; discriminate|].
  split; [vm_compute; reflexivity|].
  split; [vm_compute; reflexivity|].
  vm_compute. repeat constructor; discriminate.
Qed.

Definition failed_body : text :=
  u "{" ++ quoted "name" ++ u ":" ++ quoted "files/abc" ++ u ","
    ++ quoted "state" ++ u ":" ++ quoted "FAILED" ++ u "}".

(** A status endpoint that answers PROCESSING, then once 503, then ACTIVE. *)
Definition flaky_world : World :=
  world_of (fun k => match k with
                     | 0%nat => Some busy
                     | 1%nat => Some (MkResponse 503 None (u "Service Unavailable"))
                     | _ => Some ready
                     end)
           (fun _ => 0%N).

(** A status endpoint whose second request cannot be sent. *)
Definition offline_world : World :=
  world_of (fun k => match k with
                     | 0%nat => Some busy
                     | 1%nat => None
                     | _ => Some ready
                     end)
           (fun _ => 0%N).

(** A file whose processing failed on the server. *)
Definition failed_world : World :=
  world_of (fun _ => Some (MkResponse 200 None failed_body)) (fun _ => 0%N).

(** C3, the code at the failing inputs.  The large-video poller passes on
    the error of one failed status request, a 503 or a rejected fetch,
    although the next poll would have found the file ACTIVE; the
    performance poller on the same answers logs the error, polls again and
    returns the ACTIVE file.  The performance poller treats a reported
    FAILED state the same way: it keeps polling until the deadline and
    throws the timeout error. *)
Theorem pollers_on_failed_status_request :
  let fileName := Some (JStr (u "files/abc")) in
  let large w := LargeVideo.waitForFileProcessing fileName 300000 w in
  let perf w := PlayerPerformance.waitForFileProcessing fileName 600000 w in
  (fst (large flaky_world) = Throw (ErrStatus "file status check failed" 503)
   /\ length (polls (trace (snd (large flaky_world)))) = 2%nat)
  /\ (fst (large offline_world) = Throw NetworkError
      /\ length (polls (trace (snd (large offline_world)))) = 2%nat)
  /\ (fst (perf flaky_world) = Ok (match JSON.parse ready_body with
                                   | Some v => v
                                   | None => JNull
                                   end)
      /\ length (polls (trace (snd (perf flaky_world)))) = 3%nat
      /\ In (ConsoleError (ErrStatus "file status check failed" 503))
            (trace (snd (perf flaky_world))))
  /\ (fst (perf offline_world) = Ok (match JSON.parse ready_body with
                                     | Some v => v
                                     | None => JNull
                                     end))
  /\ (fst (large failed_world) = Throw (Err "file processing failed")
      /\ length (polls (trace (snd (large failed_world)))) = 1%nat)
  /\ (fst (perf failed_world) = Throw (Err "file processing timed out")
      /\ length (polls (trace (snd (perf failed_world)))) = 118%nat).
Proof.
  cbv zeta. split_all; try (vm_compute; reflexivity).
  vm_compute. repeat (first [left; reflexivity | right]).
Qed.

(* ----------------------------------------------------------------- *)
(** ** Empty files *)

(** On the client both entry points reject an empty file before anything
    else happens: the world is left as it was. *)
Lemma client_rejects_empty_file (init : result unit) (frame : result (text * Q))
  (videoFile : File) (w : World) :
  file_size videoFile = 0%N ->
  (exists e, FootballAI.uploadAndAnalyzeVideo init frame videoFile w = (Throw e, w))
  /\ forall (A : Type) (playerName : text) (go_on : M A),
       FootballAI.analyzePlayerPerformance videoFile playerName go_on w
       = (Throw (Err "Video file invalid or empty"), w).
Proof.
  intro H. split.
  - unfold FootballAI.uploadAndAnalyzeVideo, try_catch. rewrite H. cbn [N.eqb].
    destruct (negb (is_prefix (u "video/") (file_type videoFile))); cbn;
      eexists; reflexivity.
  - intros A playerName go_on.
    unfold FootballAI.analyzePlayerPerformance, try_catch. rewrite H. cbn [N.eqb].
    vm_compute. reflexivity.
Qed.

(** C9, the code at the failing input.  Both server-side upload functions
    send an empty file like any small file: the start request declares a
    length of 0 and a PUT of 0 bytes with [upload, finalize] follows, then
    the status poll.  Nothing is rejected. *)
Theorem server_uploads_empty_file :
  requests (trace (snd (PlayerPerformance.uploadVideoToFilesAPI
                          (video_of_size 0) ready_world)))
  = [StartUpload 0 (u "video/mp4") (u "match.mp4");
     PutBytes (u "https://upload/session1") 0 0 UploadFinalize 0 0;
     GetFile (Some (JStr (u "files/abc")))]
  /\ (exists file w',
        PlayerPerformance.uploadVideoToFilesAPI (video_of_size 0) ready_world
        = (Ok file, w'))
  /\ requests (trace (snd (LargeVideo.uploadVideoToFilesAPI
                             (video_of_size 0) ready_world)))
     = [StartUpload 0 (u "video/mp4") (u "match.mp4");
        PutBytes (u "https://upload/session1") 0 0 UploadFinalize 0 0;
        GetFile (Some (JStr (u "files/abc")))]
  /\ (exists file w',
        LargeVideo.uploadVideoToFilesAPI (video_of_size 0) ready_world
        = (Ok file, w')).
Proof.
  split; [vm_compute; reflexivity|].
  split; [eexists _, _; vm_compute; reflexivity|].
  split; [vm_compute; reflexivity|].
  eexists _, _; vm_compute; reflexivity.
Qed.

Lemma only_weaken {A} (Q : event -> Prop) (m : M A) : only Q m -> only (fun _ => True) m.
Proof.
  intros H w. destruct (H w) as (new & T & _ & O).
  exists new. split; [exact T|]. split; [|exact O].
  apply Forall_forall. intros; exact I.
Qed.

Lemma upload_chunks_any n url fs c :
  forall i, only (fun _ => True) (PlayerPerformance.upload_chunks n url fs c i).
Proof.
  induction n as [|n IH]; intro i; cbn [PlayerPerformance.upload_chunks].
  - apply only_ret.
  - apply only_bind; [apply only_fetch; exact I|intro r].
    destruct (negb (ok r)); [apply only_throw|].
    destruct (i =? c - 1)%Z; [|apply IH].
    exact (only_weaken (finish_upload_not_put r)).
Qed.

Lemma bind_fetch_first {A} (req : request) (f : response -> M A) (w : World) :
  (forall r, only (fun _ => True) (f r)) ->
  exists new, trace (snd (bind (fetch req) f w)) = trace w ++ Fetch req :: new.
Proof.
  intro H. unfold bind, fetch.
  destruct (net w (fetches w)) as [resp|].
  - match goal with
    | |- context [f resp ?W] => destruct (H resp W) as (new & T & _)
    end.
    cbn [trace] in T. exists new. rewrite T, <- app_assoc. reflexivity.
  - exists []. reflexivity.
Qed.

(** Whatever the file and whatever the server answers, the first thing
    the server-side upload does is a network request: no size is rejected
    before it. *)
Lemma server_upload_starts_with_request (videoFile : File) (w : World) :
  exists new,
    trace (snd (PlayerPerformance.uploadVideoToFilesAPI videoFile w))
    = trace w
        ++ Fetch (StartUpload (Z.of_N (file_size videoFile)) (file_type videoFile)
                              (file_name videoFile)) :: new.
Proof.
  unfold PlayerPerformance.uploadVideoToFilesAPI.
  apply bind_fetch_first. intro resp.
  destruct (negb (ok resp)); [apply only_throw|].
  destruct (uploadUrlHeader resp) as [[|c url]|]; [apply only_throw| |apply only_throw].
  destruct (Z.of_N (file_size videoFile) <=? PlayerPerformance.MAX_CHUNK_SIZE)%Z.
  - apply only_bind; [apply only_fetch; exact I|intro r].
    destruct (negb (ok r)); [apply only_throw|].
    exact (only_weaken (finish_upload_not_put r)).
  - apply upload_chunks_any.
Qed.

(* ----------------------------------------------------------------- *)
(** ** Extraction of the JSON object from the reply *)

Definition obj_a1 : text := u "{" ++ quoted "a" ++ u ":1}".

Example extract_plain :
  PlayerPerformance.extractJsonFromText obj_a1 = Ok (JObj [(u "a", JNum 1)]).
Proof. vm_compute. reflexivity. Qed.

Example extract_fenced :
  PlayerPerformance.extractJsonFromText
    (u "Here you go:" ++ [10%N] ++ u "```json" ++ [10%N] ++ obj_a1 ++ [10%N] ++ u "```")
  = Ok (JObj [(u "a", JNum 1)]).
Proof. vm_compute. reflexivity. Qed.

(** Braces in the prose around a fenced object: the first method fails,
    the second finds the fence. *)
Example extract_fenced_with_braces :
  PlayerPerformance.extractJsonFromText
    (u "The {players} are:" ++ [10%N] ++ u "```json" ++ [10%N] ++ obj_a1 ++ [10%N]
       ++ u "```" ++ [10%N] ++ u "as {requested}.")
  = Ok (JObj [(u "a", JNum 1)]).
Proof. vm_compute. reflexivity. Qed.

Example extract_braces_in_prose :
  PlayerPerformance.extractJsonFromText (u "Use {braces} like this: " ++ obj_a1)
  = Throw (Err "cannot extract valid JSON data from the AI response")
  /\ PlayerPerformance.extractJsonFromText (u "An empty object is {}. Result: " ++ obj_a1)
     = Ok (JObj [])
  /\ FootballAI.extractJsonFromString (u "Use {braces} like this: " ++ obj_a1)
     = Ok (u "{braces} like this: " ++ obj_a1).
Proof. vm_compute. repeat split; reflexivity. Qed.

(** What [[\s\S]*] followed by [k] computes: [k] is tried after the whole
    rest first, then after one unit less, and so on. *)
Fixpoint greedy_any (k : Regex.mstate -> option Regex.mstate) (i : nat) (s : text)
  (c : list (nat * (nat * nat))) : option Regex.mstate :=
  match s with
  | [] => k (Regex.MState i [] c)
  | x :: s' =>
      match greedy_any k (S i) s' c with
      | Some r => Some r
      | None => k (Regex.MState i s c)
      end
  end.

Lemma star_any_greedy k c :
  forall s n i,
    (length s < n)%nat ->
    Regex.star_loop true (Regex.rmatch Regex.any) k n (Regex.MState i s c)
    = greedy_any k i s c.
Proof.
  induction s as [|x s IH]; intros n i Hn; destruct n as [|n]; try (simpl in Hn; lia).
  - reflexivity.
  - cbn [Regex.star_loop Regex.rmatch Regex.any Regex.rest Regex.pos Regex.caps greedy_any].
    rewrite orb_negb_r.
    assert (E : Nat.eqb (S i) i = false) by (apply Nat.eqb_neq; lia).
    rewrite E. rewrite IH by (simpl in Hn; lia). reflexivity.
Qed.

(** The continuation of the star in [/\{[\s\S]*\}/]: one closing brace. *)
Definition closing (st : Regex.mstate) : option Regex.mstate :=
  Regex.rmatch Regex.rbrace st Some.

Lemma greedy_any_no_brace c :
  forall s i, ~ In RBRACE s -> greedy_any closing i s c = None.
Proof.
  induction s as [|x s IH]; intros i H; [reflexivity|].
  cbn [greedy_any]. rewrite IH by (intro; apply H; now right).
  unfold closing, Regex.rbrace.
  cbn [Regex.rmatch Regex.rest Regex.pos Regex.caps].
  destruct (N.eqb_spec RBRACE x) as [E|E]; [|reflexivity].
  exfalso. apply H. now left.
Qed.

Lemma greedy_any_last c post :
  ~ In RBRACE post ->
  forall body i,
    greedy_any closing i (body ++ RBRACE :: post) c
    = Some (Regex.MState (i + length body + 1) post c).
Proof.
  intros Hpost inner. induction inner as [|x inner IH]; intro i.
  - cbn [app greedy_any]. rewrite greedy_any_no_brace by exact Hpost.
    unfold closing, Regex.rbrace.
    cbn [Regex.rmatch Regex.rest Regex.pos Regex.caps].
    rewrite N.eqb_refl. cbn [length]. do 2 f_equal. lia.
  - cbn [app greedy_any length]. rewrite IH. do 2 f_equal. lia.
Qed.

Lemma match_object_here body post i :
  ~ In RBRACE post ->
  Regex.rmatch PlayerPerformance.re_object
    (Regex.MState i (LBRACE :: body ++ RBRACE :: post) []) Some
  = Some (Regex.MState (S i + length body + 1) post []).
Proof.
  intro Hpost. unfold PlayerPerformance.re_object.
  cbn [Regex.rmatch Regex.lbrace Regex.rest Regex.pos Regex.caps].
  rewrite N.eqb_refl.
  rewrite star_any_greedy by (cbn; lia).
  exact (@greedy_any_last [] post Hpost body (S i)).
Qed.

Lemma exec_object body post :
  ~ In RBRACE post ->
  forall pre i,
    ~ In LBRACE pre ->
    Regex.exec_from PlayerPerformance.re_object i (pre ++ LBRACE :: body ++ RBRACE :: post)
    = Some ((i + length pre)%nat,
            Regex.MState (i + length pre + 1 + length body + 1) post []).
Proof.
  intros Hpost. induction pre as [|x pre IH]; intros i Hpre.
  - cbn [app Regex.exec_from].
    rewrite match_object_here by exact Hpost.
    cbn [length]. do 2 f_equal; [lia | f_equal; lia].
  - cbn [app Regex.exec_from].
    assert (E : Regex.rmatch PlayerPerformance.re_object
                  (Regex.MState i (x :: pre ++ LBRACE :: body ++ RBRACE :: post) []) Some
                = None).
    { unfold PlayerPerformance.re_object, Regex.lbrace.
      cbn [Regex.rmatch Regex.rest Regex.pos Regex.caps].
      destruct (N.eqb_spec LBRACE x) as [E|E]; [|reflexivity].
      exfalso. apply Hpre. now left. }
    rewrite E. rewrite IH by (intro; apply Hpre; now right).
    cbn [length]. do 2 f_equal; [lia | f_equal; lia].
Qed.

Lemma slice_middle (pre mid post : text) a b :
  a = length pre -> b = (length pre + length mid)%nat ->
  Regex.slice a b (pre ++ mid ++ post) = mid.
Proof.
  intros -> ->. unfold Regex.slice.
  rewrite skipn_app, skipn_all, Nat.sub_diag. cbn [app skipn].
  replace (length pre + length mid - length pre)%nat with (length mid) by lia.
  rewrite firstn_app, firstn_all, Nat.sub_diag. cbn. now rewrite app_nil_r.
Qed.

Lemma indexOf_first c pre rest_ :
  ~ In c pre -> indexOf c (pre ++ c :: rest_) = Some (length pre).
Proof.
  induction pre as [|x pre IH]; intro H; cbn.
  - now rewrite N.eqb_refl.
  - destruct (N.eqb_spec x c) as [E|E]; [exfalso; apply H; now left|].
    rewrite IH; [reflexivity | intro; apply H; now right].
Qed.

Lemma lastIndexOf_none c s : ~ In c s -> lastIndexOf c s = None.
Proof.
  induction s as [|x s IH]; intro H; cbn; [reflexivity|].
  rewrite IH by (intro; apply H; now right).
  destruct (N.eqb_spec x c) as [E|E]; [exfalso; apply H; now left | reflexivity].
Qed.

Lemma lastIndexOf_last c pre post :
  ~ In c post -> lastIndexOf c (pre ++ c :: post) = Some (length pre).
Proof.
  intro H. induction pre as [|x pre IH]; cbn.
  - rewrite lastIndexOf_none by exact H. now rewrite N.eqb_refl.
  - now rewrite IH.
Qed.

Lemma substring_middle (pre mid post : text) :
  substring (length pre) (length pre + length mid) (pre ++ mid ++ post) = mid.
Proof.
  unfold substring. rewrite !length_app.
  rewrite (Nat.min_l (length pre)) by lia.
  rewrite (Nat.min_l (length pre + length mid)) by lia.
  rewrite Nat.min_l, Nat.max_r by lia.
  now apply slice_middle.
Qed.

(** C2, as amended.  A reply that consists of the text of a JSON object
    (it starts with an opening and ends with a closing brace, and
    [JSON.parse] accepts it), preceded by noise without an opening brace
    and followed by noise without a closing brace -- prose, code fences --
    is recovered: [extractJsonFromText] returns the parsed object and
    [extractJsonFromString] returns exactly the object's text. *)
Theorem extraction_round_trip (pre body post : text) (v : json) :
  let object := LBRACE :: body ++ [RBRACE] in
  ~ In LBRACE pre ->
  ~ In RBRACE post ->
  JSON.parse object = Some v ->
  PlayerPerformance.extractJsonFromText (pre ++ object ++ post) = Ok v
  /\ FootballAI.extractJsonFromString (pre ++ object ++ post) = Ok object.
Proof.
  intros object Hpre Hpost Hparse.
  assert (Et : pre ++ object ++ post = pre ++ LBRACE :: body ++ RBRACE :: post).
  { unfold object. cbn [app]. now rewrite <- app_assoc. }
  assert (Lo : length object = (1 + length body + 1)%nat).
  { unfold object. cbn [length]. rewrite length_app. cbn. lia. }
  split.
  - unfold PlayerPerformance.extractJsonFromText, Regex.str_match, Regex.exec.
    rewrite Et, (@exec_object body post Hpost pre 0%nat Hpre), <- Et.
    cbn [Regex.pos Regex.caps find].
    rewrite (@slice_middle pre object post) by (rewrite ?Lo; lia).
    now rewrite Hparse.
  - unfold FootballAI.extractJsonFromString.
    rewrite Et at 1. rewrite (@indexOf_first LBRACE pre _ Hpre).
    assert (Et' : pre ++ object ++ post = (pre ++ LBRACE :: body) ++ RBRACE :: post).
    { rewrite Et. now rewrite <- app_assoc. }
    rewrite Et' at 1. rewrite (@lastIndexOf_last RBRACE _ post Hpost).
    rewrite length_app. cbn [length].
    destruct (Nat.leb_spec (length pre + S (length body)) (length pre)); [lia|].
    f_equal.
    replace (length pre + S (length body) + 1)%nat with (length pre + length object)%nat
      by lia.
    apply substring_middle.
Qed.

Lemma extraction_round_trip_witness :
  let pre := u "Here you go:" ++ [10%N] ++ u "```json" ++ [10%N] in
  let body := quoted "a" ++ u ":1" in
  let post := [10%N] ++ u "```" in
  ~ In LBRACE pre
  /\ ~ In RBRACE post
  /\ JSON.parse (LBRACE :: body ++ [RBRACE]) = Some (JObj [(u "a", JNum 1)])
  /\ PlayerPerformance.extractJsonFromText (pre ++ (LBRACE :: body ++ [RBRACE]) ++ post)
     = Ok (JObj [(u "a", JNum 1)])
  /\ FootballAI.extractJsonFromString (pre ++ (LBRACE :: body ++ [RBRACE]) ++ post)
     = Ok (LBRACE :: body ++ [RBRACE]).
Proof.
  intros pre body post.
  assert (H1 : ~ In LBRACE pre).
  { vm_compute. intro H. repeat (destruct H as [H|H]; [discriminate H|]). exact H. }
  assert (H2 : ~ In RBRACE post).
  { vm_compute. intro H. repeat (destruct H as [H|H]; [discriminate H|]). exact H. }
  assert (H3 : JSON.parse (LBRACE :: body ++ [RBRACE]) = Some (JObj [(u "a", JNum 1)])).
  { vm_compute. reflexivity. }
  split; [exact H1|]. split; [exact H2|]. split; [exact H3|].
  exact (@extraction_round_trip pre body post _ H1 H2 H3).
Defined.

(** The counterexample to C2 as stated: prose with braces in front of the
    object.  All four methods of [extractJsonFromText] fail and it throws;
    [extractJsonFromString] returns text that is not the object and that
    [JSON.parse] rejects. *)
Lemma extraction_fails_on_braces_in_prose :
  let reply := u "Use {braces} like this: " ++ obj_a1 in
  JSON.parse obj_a1 = Some (JObj [(u "a", JNum 1)])
  /\ PlayerPerformance.extractJsonFromText reply
     = Throw (Err "cannot extract valid JSON data from the AI response")
  /\ PlayerPerformance.extractJsonFromText reply <> Ok (JObj [(u "a", JNum 1)])
  /\ FootballAI.extractJsonFromString reply = Ok (u "{braces} like this: " ++ obj_a1)
  /\ FootballAI.extractJsonFromString reply <> Ok obj_a1
  /\ JSON.parse (u "{braces} like this: " ++ obj_a1) = None.
Proof.
  cbv zeta. repeat split; try (vm_compute; reflexivity); vm_compute; discriminate.
Qed.

(* ----------------------------------------------------------------- *)
(** ** Inversion of computations that ended normally *)

Lemma bind_Ok_inv {A B} (m : M A) (f : A -> M B) w b w' :
  bind m f w = (Ok b, w') ->
  exists a w1, m w = (Ok a, w1) /\ f a w1 = (Ok b, w').
Proof.
  unfold bind. destruct (m w) as [[a|e] w1]; intro H; [|discriminate].
  now exists a, w1.
Qed.

Lemma lift_Ok_inv {A} (r : result A) w a w' :
  lift r w = (Ok a, w') -> r = Ok a /\ w' = w.
Proof. unfold lift. intro H. injection H as -> ->. auto. Qed.

Lemma ret_Ok_inv {A} (a0 : A) w a w' :
  ret a0 w = (Ok a, w') -> a = a0 /\ w' = w.
Proof. unfold ret. intro H. injection H as -> ->. auto. Qed.

Lemma try_catch_rethrow_inv {A} (m : M A) (g : exn -> exn) w a w' :
  try_catch m (fun e => throw (g e)) w = (Ok a, w') -> m w = (Ok a, w').
Proof.
  unfold try_catch, throw. destruct (m w) as [[a0|e] w1]; intro H;
    [exact H | discriminate].
Qed.

Ltac invert_run :=
  repeat match goal with
    | H : bind _ _ _ = (Ok _, _) |- _ =>
        apply bind_Ok_inv in H; destruct H as (? & ? & ? & H)
    | H : lift _ _ = (Ok _, _) |- _ =>
        apply lift_Ok_inv in H; destruct H as [? ?]; subst
    | H : ret _ _ = (Ok _, _) |- _ =>
        apply ret_Ok_inv in H; destruct H as [? ?]; subst
    end.

Lemma mapi_M_Forall {A B} (f : A -> nat -> M B) (P : B -> Prop) :
  (forall a i w b w', f a i w = (Ok b, w') -> P b) ->
  forall l i w bs w', mapi_M f l i w = (Ok bs, w') -> Forall P bs.
Proof.
  intro Hf. induction l as [|a l IH]; intros i w bs w' H; cbn [mapi_M] in H.
  - invert_run. constructor.
  - invert_run. constructor; eauto.
Qed.

Lemma mapi_M_length {A B} (f : A -> nat -> M B) :
  forall l i w bs w', mapi_M f l i w = (Ok bs, w') -> length bs = length l.
Proof.
  induction l as [|a l IH]; intros i w bs w' H; cbn [mapi_M] in H.
  - invert_run. reflexivity.
  - invert_run. cbn. f_equal. eauto.
Qed.

Lemma get_get_opt (player : json) (k : string) (v : jsval) :
  get player k = Ok v -> v = get_opt (Some player) k.
Proof.
  destruct player; cbn; intro H; try (injection H as <-; reflexivity); discriminate.
Qed.

(* ----------------------------------------------------------------- *)
(** ** Normalisation of detections in the static-frame analysis *)

(** [player.k] for a raw candidate that is not [null]. *)
Definition raw (player : json) (k : string) : jsval := get_opt (Some player) k.

(** The fields of a processed detection that do not depend on chance. *)
Lemma processPlayer_fields teamColors_ ts player index w p w' :
  FootballAI.processPlayer teamColors_ ts player index w = (Ok p, w') ->
  FootballAI.id p = js_or (raw player "id") (Some (index_number index))
  /\ FootballAI.x p = clamp 0 98 (number_or (raw player "x") 50)
  /\ FootballAI.y p = clamp 0 98 (number_or (raw player "y") 50)
  /\ FootballAI.width p = clamp 4 18 (number_or (raw player "width") 8)
  /\ FootballAI.height p = clamp 8 28 (number_or (raw player "height") 18)
  /\ FootballAI.confidence p = clamp (6 # 10) 1 (number_or (raw player "confidence") (8 # 10))
  /\ FootballAI.jersey p = js_or (raw player "jersey") (Some (index_label index))
  /\ FootballAI.team p
     = js_or (raw player "team") (Some (JStr (u (if Nat.even index then "home" else "away"))))
  /\ FootballAI.teamColor p
     = js_or (js_or (raw player "teamColor")
                    (if is_string (raw player "team") "home"
                     then get_opt teamColors_ "home" else get_opt teamColors_ "away"))
             (Some (JStr (u (if Nat.even index then "Blue" else "Red"))))
  /\ FootballAI.timestamp p = ts
  /\ FootballAI.isReferee p = false.
Proof.
  unfold FootballAI.processPlayer. intro H. invert_run.
  repeat match goal with
         | H : get player _ = Ok _ |- _ => apply get_get_opt in H; subst
         end.
  cbn. unfold raw. repeat split.
Qed.

Lemma mapi_M_Forall2 {A B} (f : A -> nat -> M B) (R : A -> B -> Prop) :
  (forall a i w b w', f a i w = (Ok b, w') -> R a b) ->
  forall l i w bs w', mapi_M f l i w = (Ok bs, w') -> Forall2 R l bs.
Proof.
  intro Hf. induction l as [|a l IH]; intros i w bs w' H; cbn [mapi_M] in H.
  - invert_run. constructor.
  - invert_run. constructor; eauto.
Qed.

Lemma filter_R_Forall {A} (p : A -> result bool) :
  forall l r, filter_R p l = Ok r -> Forall (fun a => p a = Ok true) r /\ incl r l.
Proof.
  induction l as [|a l IH]; intros r H; cbn [filter_R] in H.
  - injection H as <-. split; [constructor | apply incl_refl].
  - destruct (p a) as [b|e] eqn:E; [|discriminate].
    destruct (filter_R p l) as [r0|e]; [|discriminate].
    destruct (IH r0 eq_refl) as [F I].
    injection H as <-. destruct b.
    + split; [now constructor | now apply incl_cons; [left | apply incl_tl]].
    + split; [exact F | now apply incl_tl].
Qed.

(** A candidate the filter lets through is not flagged as a referee. *)
Lemma validPlayer_not_referee player :
  FootballAI.validPlayer player = Ok true -> truthy (raw player "isReferee") = false.
Proof.
  unfold FootballAI.validPlayer, raw.
  destruct player; cbn [get get_opt]; intro H; try reflexivity.
  destruct (truthy (lookup (u "isReferee") m)); [discriminate H | reflexivity].
Qed.

(** A candidate flagged as a referee is dropped, whatever its other fields. *)
Lemma referee_is_dropped player :
  truthy (raw player "isReferee") = true -> FootballAI.validPlayer player = Ok false.
Proof.
  unfold FootballAI.validPlayer, raw.
  destruct player; cbn [get get_opt truthy]; intro H; try discriminate H.
  rewrite H. reflexivity.
Qed.

Lemma read_analysis_players responseText a :
  FootballAI.read_analysis responseText = Ok a ->
  Forall (fun player => FootballAI.validPlayer player = Ok true) (FootballAI.players a)
  /\ FootballAI.players a <> [].
Proof.
  unfold FootballAI.read_analysis.
  destruct (indexOf LBRACE responseText) as [f|]; [|discriminate].
  destruct (lastIndexOf RBRACE responseText) as [l|]; [|discriminate].
  destruct (JSON.parse _) as [v|]; [|discriminate].
  destruct (get v "players") as [[[]|]|]; try discriminate.
  destruct (filter_R FootballAI.validPlayer l0) as [[|p r]|] eqn:E; try discriminate.
  intro H. injection H as <-. cbn. split; [|discriminate].
  now apply filter_R_Forall in E.
Qed.

Lemma attempt_result frameDataUrl w a w' :
  FootballAI.attempt frameDataUrl w = (Ok a, w') ->
  exists responseText, FootballAI.read_analysis responseText = Ok a.
Proof.
  unfold FootballAI.attempt. intro H. invert_run.
  destruct (negb (ok x)); [discriminate|].
  invert_run. eauto.
Qed.

Lemma attempts_loop_result frameDataUrl ts :
  forall n w r w',
    FootballAI.attempts_loop n frameDataUrl ts w = (Ok r, w') ->
    r = None
    \/ r = Some (FootballAI.fallbackAnalysis ts)
    \/ exists a responseText, r = Some a /\ FootballAI.read_analysis responseText = Ok a.
Proof.
  induction n as [|n IH]; intros w r w' H; cbn [FootballAI.attempts_loop] in H.
  - invert_run. now left.
  - apply bind_Ok_inv in H. destruct H as (o & w1 & H1 & H2).
    destruct o as [a|].
    + invert_run. unfold try_catch in H1.
      destruct (bind (FootballAI.attempt frameDataUrl) _ w) as [[o|e] w2] eqn:E.
      * injection H1 as -> ->. invert_run.
        right. right.
        match goal with
        | Ha : FootballAI.attempt _ _ = _ |- _ =>
            destruct (attempt_result _ _ Ha) as (t & Ht)
        end.
        match goal with
        | Hs : Some _ = Some _ |- _ => injection Hs as <-
        end.
        eauto.
      * invert_run.
        destruct (Nat.eqb _ _); invert_run; [now right; left|].
        discriminate.
    + eapply IH. exact H2.
Qed.

Lemma clamp_le lo hi v : lo <= v -> clamp lo hi v <= v.
Proof.
  intro H. unfold clamp. apply Math_max_lub; [exact H | apply Math_min_le_r].
Qed.

Lemma clamp_eq lo hi v : lo <= v -> v <= hi -> clamp lo hi v == v.
Proof.
  intros L H. apply Qle_antisym; [now apply clamp_le|].
  unfold clamp. eapply Qle_trans; [|apply Math_max_ge_r].
  apply Math_min_glb; [exact H | apply Qle_refl].
Qed.

(** What the filter of the static-frame analysis demands of a candidate
    it keeps; a field that is not a number counts as 0. *)
Lemma validPlayer_bounds player :
  FootballAI.validPlayer player = Ok true ->
  let x := number_or (raw player "x") 0 in
  let y := number_or (raw player "y") 0 in
  let width := number_or (raw player "width") 0 in
  let height := number_or (raw player "height") 0 in
  let confidence := number_or (raw player "confidence") 0 in
  2 <= width /\ width <= 20 /\ 6 <= height /\ height <= 30
  /\ 0 <= x /\ x <= 98 /\ 0 <= y /\ y <= 98
  /\ binary64 (x + width) <= 100 /\ binary64 (y + height) <= 100
  /\ 6 # 10 <= confidence.
Proof.
  unfold FootballAI.validPlayer, raw.
  destruct (get player "isReferee") as [r|]; [|discriminate].
  destruct (truthy r); [discriminate|].
  cbv zeta.
  repeat match goal with
         | |- (if ?b then _ else _) = _ -> _ =>
             let E := fresh "E" in destruct b eqn:E; [discriminate|]
         end.
  intros _.
  repeat match goal with
         | H : (_ || _)%bool = false |- _ => apply orb_false_iff in H; destruct H
         | H : Qlt_bool _ _ = false |- _ => apply Qlt_bool_false in H
         end.
  repeat split; assumption.
Qed.

Lemma validPlayer_throws player e :
  FootballAI.validPlayer player = Throw e -> player = JNull.
Proof.
  unfold FootballAI.validPlayer.
  destruct player; cbn [get]; try reflexivity;
    repeat match goal with
           | |- (if ?b then _ else _) = _ -> _ => destruct b
           | |- (let _ := _ in _) = _ -> _ => cbv zeta
           end; discriminate.
Qed.

(** C5, as amended.  In the static-frame analysis a candidate whose [x]
    is out of range ([x < 0], [x > 98], or a sum [x + width] that is above
    100 as the code computes it, in double arithmetic) is dropped by the
    filter, not clamped.  A candidate the filter keeps has a numeric width
    between 2 and 20; it is returned with [x] in [0, 98] -- its own [x]
    when that is a number -- and a width in [4, 18], and the sum
    [x + width] of the returned values, computed in the same arithmetic,
    is at most 100 whenever its raw width is 4 or more. *)
Theorem out_of_range_x_is_dropped :
  (forall player xv,
      raw player "x" = Some (JNum xv) -> xv < 0 \/ 98 < xv ->
      FootballAI.validPlayer player = Ok false)
  /\ (forall player xv wv,
        raw player "x" = Some (JNum xv) -> raw player "width" = Some (JNum wv) ->
        100 < binary64 (xv + wv) ->
        FootballAI.validPlayer player = Ok false)
  /\ (forall teamColors_ ts player index w p w',
        FootballAI.validPlayer player = Ok true ->
        FootballAI.processPlayer teamColors_ ts player index w = (Ok p, w') ->
        0 <= FootballAI.x p /\ FootballAI.x p <= 98
        /\ 4 <= FootballAI.width p /\ FootballAI.width p <= 18
        /\ (forall xv, raw player "x" = Some (JNum xv) -> FootballAI.x p == xv)
        /\ exists wv,
             raw player "width" = Some (JNum wv) /\ 2 <= wv /\ wv <= 20
             /\ (4 <= wv -> binary64 (FootballAI.x p + FootballAI.width p) <= 100)).
Proof.
  split; [|split].
  - intros player xv Hx Hout.
    destruct (FootballAI.validPlayer player) as [[|]|e] eqn:E.
    + apply validPlayer_bounds in E. cbv zeta in E. rewrite Hx in E.
      cbn [number_or] in E. lra.
    + reflexivity.
    + apply validPlayer_throws in E. subst player. discriminate Hx.
  - intros player xv wv Hx Hw Hout.
    destruct (FootballAI.validPlayer player) as [[|]|e] eqn:E.
    + apply validPlayer_bounds in E. cbv zeta in E. rewrite Hx, Hw in E.
      cbn [number_or] in E. lra.
    + reflexivity.
    + apply validPlayer_throws in E. subst player. discriminate Hx.
  - intros teamColors_ ts player index w p w' Hvalid Hp.
    apply processPlayer_fields in Hp.
    destruct Hp as (_ & Hx & _ & Hw & _).
    apply validPlayer_bounds in Hvalid. cbv zeta in Hvalid.
    destruct Hvalid as (W2 & W20 & _ & _ & X0 & X98 & _ & _ & XW & _).
    rewrite Hx, Hw.
    destruct (@clamp_bounds 0 98 (number_or (raw player "x") 50)) as [A B]; [lra|].
    destruct (@clamp_bounds 4 18 (number_or (raw player "width") 8)) as [C D]; [lra|].
    repeat (split; [assumption|]). split.
    + intros xv E. rewrite E in *. cbn [number_or] in *. now apply clamp_eq.
    + destruct (raw player "width") as [[| |wv| | |]|]; cbn [number_or] in *; try lra.
      exists wv. split; [reflexivity|]. split; [exact W2|]. split; [exact W20|].
      intro W4.
      pose proof (@clamp_le 4 18 wv W4) as Wle.
      assert (H100 : binary64 100 == 100) by exact (binary64_whole 100 ltac:(lia)).
      assert (X50 : clamp 0 98 50 <= 50) by (apply clamp_le; lra).
      destruct (raw player "x") as [[| |xv| | |]|]; cbn [number_or] in *;
        try (apply (binary64_le H100); lra).
      pose proof (@clamp_le 0 98 xv X0) as Xle.
      eapply Qle_trans; [apply binary64_monotone | exact XW]. lra.
Qed.

(** The sum is the code's: a width of 2.0000000000000004 beside [x = 98]
    gives a sum that rounds to 100, and the candidate is kept. *)
Example sum_that_rounds_to_100 :
  let player :=
    JObj [(u "x", JNum 98); (u "y", JNum 40);
          (u "width", JNum (20000000000000004 # 10000000000000000));
          (u "height", JNum 20); (u "confidence", JNum (9 # 10))] in
  100 < 98 + (20000000000000004 # 10000000000000000)
  /\ binary64 (98 + (20000000000000004 # 10000000000000000)) = 100
  /\ FootballAI.validPlayer player = Ok true.
Proof.
  cbv zeta. split; [reflexivity|]. split; vm_compute; reflexivity.
Qed.

(* Replies of the model, as text. *)
Definition kv (k : string) (v : text) : text := quoted k ++ u ":" ++ v.

Fixpoint join_comma (l : list text) : text :=
  match l with
  | [] => []
  | [a] => a
  | a :: r => a ++ u "," ++ join_comma r
  end.

Definition object_text (fields : list text) : text := u "{" ++ join_comma fields ++ u "}".
Definition array_text (items : list text) : text := u "[" ++ join_comma items ++ u "]".

(** A candidate that is valid but for the [x] given. *)
Definition candidate_at (x : string) : text :=
  object_text [kv "id" (u "1"); kv "x" (u x); kv "y" (u "10"); kv "width" (u "8");
               kv "height" (u "18"); kv "confidence" (u "0.9");
               kv "team" (quoted "home")].

Definition reply_with (candidates : list text) : text :=
  u "Here is the analysis: " ++ object_text [kv "players" (array_text candidates)].

Definition parsed (t : text) : json :=
  match JSON.parse t with Some v => v | None => JNull end.

(** A model that gives the same reply to every request. *)
Definition replying (reply : text) : World :=
  world_of (fun _ => Some (MkResponse 200 None reply)) (fun k => (N.of_nat k * 2 ^ 50)%N).

Definition frame_url : text := u "data:image/jpeg;base64,AAAA".

(** The detections of a run, or none when it threw. *)
Definition detections (r : result (list FootballAI.PlayerDetection) * World)
  : list FootballAI.PlayerDetection :=
  match fst r with Ok ps => ps | Throw _ => [] end.

Lemma out_of_range_x_witness :
  let player := parsed (candidate_at "90") in
  FootballAI.validPlayer player = Ok true
  /\ exists p w',
       FootballAI.processPlayer None 10 player 0 (replying []) = (Ok p, w')
       /\ FootballAI.x p == 90
       /\ binary64 (FootballAI.x p + FootballAI.width p) <= 100.
Proof.
  cbv zeta.
  assert (V : FootballAI.validPlayer (parsed (candidate_at "90")) = Ok true)
    by (vm_compute; reflexivity).
  split; [exact V|].
  destruct (FootballAI.processPlayer None 10 (parsed (candidate_at "90")) 0 (replying []))
    as [[p|e] w'] eqn:E; [|vm_compute in E; discriminate E].
  exists p, w'. split; [reflexivity|].
  destruct (proj2 (proj2 out_of_range_x_is_dropped) None 10
              (parsed (candidate_at "90")) 0%nat (replying []) p w' V E)
    as (_ & _ & _ & _ & Hx & wv & Hw & _ & _ & Hsum).
  split.
  - apply Hx. vm_compute. reflexivity.
  - apply Hsum. vm_compute in Hw. injection Hw as <-. vm_compute. discriminate.
Defined.

(** The counterexample to C5 as stated: a candidate with [x = 150], valid
    in every other field, is dropped by the filter and not clamped.  Alone
    in a reply it makes the attempt fail; beside a valid candidate it
    leaves that one as the only detection.  The same candidate with
    [x = 50] is kept. *)
Lemma x_150_is_dropped_not_clamped :
  let c150 := parsed (candidate_at "150") in
  let c50 := parsed (candidate_at "50") in
  raw c150 "x" = Some (JNum 150)
  /\ FootballAI.validPlayer c150 = Ok false
  /\ FootballAI.validPlayer c50 = Ok true
  /\ FootballAI.read_analysis (reply_with [candidate_at "150"])
     = Throw (Err "Static frame analysis: No valid players detected after filtering")
  /\ FootballAI.read_analysis (reply_with [candidate_at "150"; candidate_at "50"])
     = Ok (FootballAI.MkAnalysis None [c50])
  /\ map FootballAI.x
         (detections (FootballAI.analyzeStaticFrameForPlayers (Ok tt) frame_url 10
                        (replying (reply_with [candidate_at "150"; candidate_at "50"]))))
     = [50].
Proof.
  cbv zeta. split_all; vm_compute; reflexivity.
Qed.

(* ----------------------------------------------------------------- *)
(** ** Retry and fallback *)

(** Computations that cannot throw and leave the trace alone: they only
    draw random numbers. *)
Definition quiet {A} (m : M A) : Prop :=
  forall w, exists a w',
    m w = (Ok a, w') /\ trace w' = trace w /\ same_oracles w w'
    /\ fetches w' = fetches w /\ clock w' = clock w.

Lemma quiet_ret {A} (a : A) : quiet (ret a).
Proof. intro w. exists a, w. repeat split. Qed.

Lemma quiet_random : quiet Math_random.
Proof. intro w. eexists _, _. repeat split. Qed.

Lemma quiet_bind {A B} (m : M A) (f : A -> M B) :
  quiet m -> (forall a, quiet (f a)) -> quiet (bind m f).
Proof.
  intros Hm Hf w. destruct (Hm w) as (a & w1 & E1 & T1 & O1 & F1 & C1).
  destruct (Hf a w1) as (b & w2 & E2 & T2 & O2 & F2 & C2).
  exists b, w2. unfold bind. rewrite E1, E2.
  repeat split; try congruence;
    destruct O1 as (?&?&?), O2 as (?&?&?); congruence.
Qed.

Lemma quiet_lift_get m k : quiet (lift (get (JObj m) k)).
Proof. intro w. eexists _, _. repeat split. Qed.

Lemma quiet_movement_loop n : forall a b c d, quiet (FootballAI.movement_loop n a b c d).
Proof.
  induction n as [|n IH]; intros a b c d; cbn [FootballAI.movement_loop].
  - apply quiet_ret.
  - repeat (apply quiet_bind; [apply quiet_random|intro]).
    apply quiet_bind; [apply IH | intro; apply quiet_ret].
Qed.

Lemma quiet_processPlayer teamColors_ ts m index :
  quiet (FootballAI.processPlayer teamColors_ ts (JObj m) index).
Proof.
  unfold FootballAI.processPlayer.
  repeat (apply quiet_bind; [apply quiet_lift_get|intro]).
  apply quiet_bind; [|intro; apply quiet_ret].
  unfold FootballAI.generateRealisticMovementPatternWithBounds.
  apply quiet_bind; [apply quiet_movement_loop | intro; apply quiet_ret].
Qed.

Lemma quiet_mapi_M {A B} (f : A -> nat -> M B) (P : A -> Prop) :
  (forall a i, P a -> quiet (f a i)) ->
  forall l i, Forall P l -> quiet (mapi_M f l i).
Proof.
  intro Hf. induction l as [|a l IH]; intros i Hl; cbn [mapi_M].
  - apply quiet_ret.
  - inversion Hl; subst.
    apply quiet_bind; [now apply Hf | intro].
    apply quiet_bind; [now apply IH | intro; apply quiet_ret].
Qed.

(* ----------------------------------------------------------------- *)
(** ** Referees *)

Lemma quiet_lift_get_any v k : v <> JNull -> quiet (lift (get v k)).
Proof.
  intros Hv w. destruct v; try contradiction; eexists _, _; repeat split.
Qed.

Lemma quiet_frame_processPlayer teamColors_ ts player index :
  player <> JNull -> quiet (FootballAI.processPlayer teamColors_ ts player index).
Proof.
  intro Hp. unfold FootballAI.processPlayer.
  do 9 (apply quiet_bind; [now apply quiet_lift_get_any|intro]).
  apply quiet_bind; [|intro; apply quiet_ret].
  unfold FootballAI.generateRealisticMovementPatternWithBounds.
  apply quiet_bind; [apply quiet_movement_loop | intro; apply quiet_ret].
Qed.

(** The candidates that a reply of the model proposes: the [players]
    array of the object between the first opening and the last closing
    brace of its text. *)
Definition candidates (responseText : text) : option (list json) :=
  match indexOf LBRACE responseText, lastIndexOf RBRACE responseText with
  | Some firstBrace, Some lastBrace =>
      match JSON.parse (substring firstBrace (lastBrace + 1) responseText) with
      | Some analysisResult =>
          match get analysisResult "players" with
          | Ok (Some (JArr l)) => Some l
          | _ => None
          end
      | None => None
      end
  | _, _ => None
  end.

(** The detection [p] is the normalisation of the candidate [player]. *)
Definition normalised (player : json) (p : FootballAI.PlayerDetection) : Prop :=
  FootballAI.x p = clamp 0 98 (number_or (raw player "x") 50)
  /\ FootballAI.y p = clamp 0 98 (number_or (raw player "y") 50)
  /\ FootballAI.width p = clamp 4 18 (number_or (raw player "width") 8)
  /\ FootballAI.height p = clamp 8 28 (number_or (raw player "height") 18)
  /\ FootballAI.confidence p
     = clamp (6 # 10) 1 (number_or (raw player "confidence") (8 # 10))
  /\ FootballAI.isReferee p = false.

Lemma processPlayer_normalised teamColors_ ts player index w p w' :
  FootballAI.processPlayer teamColors_ ts player index w = (Ok p, w') ->
  normalised player p.
Proof.
  intro H. apply processPlayer_fields in H. unfold normalised. tauto.
Qed.

(** The analysis that an attempt reads is the filtered list of the
    candidates of its reply. *)
Lemma read_analysis_candidates responseText a :
  FootballAI.read_analysis responseText = Ok a ->
  exists l,
    candidates responseText = Some l
    /\ filter_R FootballAI.validPlayer l = Ok (FootballAI.players a).
Proof.
  unfold FootballAI.read_analysis, candidates.
  destruct (indexOf LBRACE responseText) as [f|]; [|discriminate].
  destruct (lastIndexOf RBRACE responseText) as [l|]; [|discriminate].
  destruct (JSON.parse _) as [v|]; [|discriminate].
  destruct (get v "players") as [[[]|]|]; try discriminate.
  destruct (filter_R FootballAI.validPlayer l0) as [[|p r]|] eqn:E; try discriminate.
  intro H. injection H as <-. eexists. split; [reflexivity|exact E].
Qed.

(** One attempt makes one request, and what it returns it has read from
    the answer to that request. *)
Lemma frame_attempt_shape frameDataUrl w :
  exists o,
    FootballAI.attempt frameDataUrl w
    = (o,
       MkWorld (clock w + inject_Z (Z.of_N (latency w (fetches w))))
               (trace w ++ [Fetch (GenerateFromFrame (FootballAI.split_comma_1 frameDataUrl))])
               (S (fetches w)) (draws w) (net w) (latency w) (random w))
    /\ forall a, o = Ok a ->
                 exists r, net w (fetches w) = Some r /\ ok r = true
                           /\ FootballAI.read_analysis (body r) = Ok a.
Proof.
  unfold FootballAI.attempt, bind, fetch.
  destruct (net w (fetches w)) as [r|];
    [|eexists; split; [reflexivity|intros a H; discriminate H]].
  destruct (ok r) eqn:Hok; cbn [negb];
    [|eexists; split; [reflexivity|intros a H; discriminate H]].
  unfold lift. eexists; split; [reflexivity|].
  intros a H. exists r. now repeat split.
Qed.

(** The analysis with which the loop ends is the default configuration,
    or it was read from the answer to the last request made. *)
Lemma frame_attempts_reply frameDataUrl ts :
  forall remaining w a w',
    FootballAI.attempts_loop remaining frameDataUrl ts w = (Ok (Some a), w') ->
    net w' = net w
    /\ (a = FootballAI.fallbackAnalysis ts
        \/ exists r, net w (pred (fetches w')) = Some r /\ ok r = true
                     /\ FootballAI.read_analysis (body r) = Ok a).
Proof.
  induction remaining as [|remaining IH]; intros w a w';
    cbn [FootballAI.attempts_loop]; [discriminate|].
  destruct (frame_attempt_shape frameDataUrl w) as (o & E & Hgood).
  unfold bind at 1. unfold try_catch. unfold bind at 1. rewrite E.
  destruct o as [a0|e].
  - cbv [ret]. intro H. injection H as <- <-. cbn [net fetches pred].
    split; [reflexivity|]. right. now apply Hgood.
  - destruct (Nat.eqb _ _).
    + cbv [bind log ret]. intro H. injection H as <- <-. cbn [net].
      split; [reflexivity | now left].
    + cbv [bind log sleep ret]. cbn [clock trace fetches draws net latency random].
      intro H. apply IH in H as [N R]. cbn [net] in N, R. split; assumption.
Qed.

Lemma quiet_world {A} (m : M A) w o w' :
  quiet m -> m w = (o, w') -> fetches w' = fetches w /\ net w' = net w.
Proof.
  intros Q H. destruct (Q w) as (a & w1 & E & _ & (N & _) & F & _).
  rewrite E in H. injection H as _ <-. now split.
Qed.

(** C6.  In the static-frame analysis a candidate whose [isReferee] is
    true (or any other truthy value) is dropped by the filter whatever its
    other fields are, and the candidates an analysis read from a reply
    keeps are all unflagged.  Whenever the analysis returns, every
    detection has [isReferee = false], and the detections are, one for
    one and in order, the normalisations either of the default
    configuration (when every attempt failed) or of those candidates of
    the reply to the last request that pass the filter: no candidate of
    that reply that is flagged as a referee is among them. *)
Theorem referees_never_surface :
  (forall player,
      truthy (raw player "isReferee") = true -> FootballAI.validPlayer player = Ok false)
  /\ (forall responseText a,
        FootballAI.read_analysis responseText = Ok a ->
        Forall (fun player => truthy (raw player "isReferee") = false)
               (FootballAI.players a))
  /\ (forall init frameDataUrl ts w ps w',
        FootballAI.analyzeStaticFrameForPlayers init frameDataUrl ts w = (Ok ps, w') ->
        Forall (fun p => FootballAI.isReferee p = false) ps
        /\ (Forall2 normalised (FootballAI.players (FootballAI.fallbackAnalysis ts)) ps
            \/ exists r l kept,
                 net w (pred (fetches w')) = Some r
                 /\ candidates (body r) = Some l
                 /\ filter_R FootballAI.validPlayer l = Ok kept
                 /\ Forall2 normalised kept ps
                 /\ Forall (fun player => truthy (raw player "isReferee") = false) kept
                 /\ (forall player,
                        In player l -> truthy (raw player "isReferee") = true ->
                        ~ In player kept))).
Proof.
  split; [exact referee_is_dropped|]. split.
  - intros t a H. apply read_analysis_players in H as [H _].
    eapply Forall_impl; [|exact H]. exact validPlayer_not_referee.
  - intros init frameDataUrl ts w ps w' H.
    unfold FootballAI.analyzeStaticFrameForPlayers in H.
    apply try_catch_rethrow_inv in H. invert_run.
    match goal with
    | Hl : FootballAI.attempts_loop _ _ _ _ = (Ok ?r, _) |- _ =>
        destruct r as [a|]; [|discriminate];
        apply frame_attempts_reply in Hl as [N R]
    end.
    match goal with
    | Hm : mapi_M _ _ _ ?W = (Ok ps, w') |- _ =>
        rename Hm into M_; set (w1 := W) in *
    end.
    split.
    { eapply mapi_M_Forall; [|exact M_].
      intros; eapply processPlayer_fields; eassumption. }
    assert (F2 : Forall2 normalised (FootballAI.players a) ps).
    { eapply mapi_M_Forall2; [|exact M_].
      intros player i w0 p w0'. apply processPlayer_normalised. }
    destruct R as [->|(r & Hnet & Hok & Hr)]; [now left|]. right.
    destruct (read_analysis_candidates _ Hr) as (l & Hl & Hkept).
    pose proof (read_analysis_players _ Hr) as [Hvalid _].
    assert (Hun : Forall (fun player => truthy (raw player "isReferee") = false)
                         (FootballAI.players a)).
    { eapply Forall_impl; [|exact Hvalid]. exact validPlayer_not_referee. }
    assert (Q : quiet (mapi_M (FootballAI.processPlayer (FootballAI.teamColors a) ts)
                              (FootballAI.players a) 0)).
    { apply quiet_mapi_M with (P := fun player => player <> JNull).
      - intros player i Hp. now apply quiet_frame_processPlayer.
      - eapply Forall_impl; [|exact Hvalid]. intros player V ->. discriminate V. }
    destruct (@quiet_world _ _ _ _ _ Q M_) as [Fw _].
    exists r, l, (FootballAI.players a).
    split; [rewrite Fw; exact Hnet|]. split; [exact Hl|]. split; [exact Hkept|].
    split; [exact F2|]. split; [exact Hun|].
    intros player _ Hflag Hin.
    rewrite Forall_forall in Hun. rewrite (Hun player Hin) in Hflag. discriminate.
Qed.

Definition is_object (v : json) : Prop :=
  match v with JObj _ => True | _ => False end.

(** An answer of the model with which an attempt of the static-frame
    analysis fails: no answer, a status that is not 2xx, or a reply from
    which no valid player can be read. *)
Definition failing_frame_attempt (o : option response) : Prop :=
  match o with
  | None => True
  | Some r => ok r = false \/ exists e, FootballAI.read_analysis (body r) = Throw e
  end.

Lemma frame_attempt_fails frameDataUrl w :
  failing_frame_attempt (net w (fetches w)) ->
  exists e,
    FootballAI.attempt frameDataUrl w
    = (Throw e,
       MkWorld (clock w + inject_Z (Z.of_N (latency w (fetches w))))
               (trace w ++ [Fetch (GenerateFromFrame (FootballAI.split_comma_1 frameDataUrl))])
               (S (fetches w)) (draws w) (net w) (latency w) (random w)).
Proof.
  unfold failing_frame_attempt, FootballAI.attempt, bind, fetch.
  destruct (net w (fetches w)) as [r|]; [|intros _; eexists; reflexivity].
  intros [H|(e & H)].
  - rewrite H. eexists; reflexivity.
  - destruct (ok r); cbn [negb]; [|eexists; reflexivity].
    unfold lift. rewrite H. eexists; reflexivity.
Qed.

(** The retry loop of the static-frame analysis when every attempt fails:
    [n] attempts are left, so [5 - n] were made. *)
Lemma frame_attempts_all_fail frameDataUrl ts :
  forall n w,
    (forall k, failing_frame_attempt (net w k)) ->
    (1 <= n <= 5)%nat ->
    exists w' new,
      FootballAI.attempts_loop n frameDataUrl ts w
      = (Ok (Some (FootballAI.fallbackAnalysis ts)), w')
      /\ trace w' = trace w ++ new
      /\ same_oracles w w'
      /\ requests new
         = repeat (GenerateFromFrame (FootballAI.split_comma_1 frameDataUrl)) n
      /\ sleeps new
         = map (fun a => 2000 * inject_Z (Z.of_nat a)) (seq (6 - n) (n - 1)).
Proof.
  induction n as [|n IH]; intros w Hw Hn; [lia|].
  cbn [FootballAI.attempts_loop].
  destruct (frame_attempt_fails frameDataUrl w (Hw (fetches w))) as (e & E).
  unfold bind at 1. unfold try_catch. unfold bind at 1. rewrite E.
  unfold FootballAI.maxAttempts.
  destruct (Nat.eqb_spec (5 - n) 5) as [Hlast|Hmore].
  - assert (n = O) by lia. subst n.
    cbv [bind log ret]. cbn [trace clock fetches draws net latency random].
    eexists _, _. split; [reflexivity|]. cbn [trace].
    rewrite <- app_assoc. split; [reflexivity|]. split; [repeat split|].
    split; reflexivity.
  - cbv [bind log sleep ret].
    cbn [trace clock fetches draws net latency random].
    match goal with
    | |- context [FootballAI.attempts_loop n frameDataUrl ts ?W] =>
        destruct (IH W) as (w' & new & R & T & O & Rq & Sl);
          [exact Hw | lia | ]
    end.
    cbn [trace] in T.
    eexists w', (_ :: _ :: _ :: new). split; [exact R|].
    split; [rewrite T, <- !app_assoc; reflexivity|].
    split; [destruct O as (?&?&?); repeat split; assumption|].
    split.
    + change (requests (?a :: ?b :: ?c :: new))
        with (GenerateFromFrame (FootballAI.split_comma_1 frameDataUrl) :: requests new).
      rewrite Rq. reflexivity.
    + change (sleeps (?a :: ?b :: Sleep ?c :: new)) with (c :: sleeps new).
      rewrite Sl.
      replace (6 - S n)%nat with (5 - n)%nat by lia.
      replace (S n - 1)%nat with (S (n - 1)) by lia.
      cbn [seq map]. do 2 f_equal. f_equal. lia.
Qed.

(** The fields of a detection that are no matter of chance: everything
    but the movement pattern. *)
Definition core (p : FootballAI.PlayerDetection) :=
  (FootballAI.id p,
   (FootballAI.x p, FootballAI.y p, FootballAI.width p, FootballAI.height p),
   FootballAI.confidence p,
   (FootballAI.jersey p, FootballAI.team p, FootballAI.teamColor p),
   FootballAI.timestamp p, FootballAI.isReferee p).

Definition core_of (teamColors_ : jsval) (ts : Q) (player : json) (index : nat) :=
  (js_or (raw player "id") (Some (index_number index)),
   (clamp 0 98 (number_or (raw player "x") 50),
    clamp 0 98 (number_or (raw player "y") 50),
    clamp 4 18 (number_or (raw player "width") 8),
    clamp 8 28 (number_or (raw player "height") 18)),
   clamp (6 # 10) 1 (number_or (raw player "confidence") (8 # 10)),
   (js_or (raw player "jersey") (Some (index_label index)),
    js_or (raw player "team") (Some (JStr (u (if Nat.even index then "home" else "away")))),
    js_or (js_or (raw player "teamColor")
                 (if is_string (raw player "team") "home"
                  then get_opt teamColors_ "home" else get_opt teamColors_ "away"))
          (Some (JStr (u (if Nat.even index then "Blue" else "Red"))))),
   ts, false).

Lemma processPlayer_core teamColors_ ts player index w p w' :
  FootballAI.processPlayer teamColors_ ts player index w = (Ok p, w') ->
  core p = core_of teamColors_ ts player index.
Proof.
  intro H. apply processPlayer_fields in H.
  destruct H as (H1 & H2 & H3 & H4 & H5 & H6 & H7 & H8 & H9 & H10 & H11).
  unfold core, core_of. now rewrite H1, H2, H3, H4, H5, H6, H7, H8, H9, H10, H11.
Qed.

Fixpoint mapi {A B} (h : A -> nat -> B) (l : list A) (index : nat) : list B :=
  match l with
  | [] => []
  | a :: l' => h a index :: mapi h l' (S index)
  end.

Lemma mapi_M_map {A B C} (f : A -> nat -> M B) (g : B -> C) (h : A -> nat -> C) :
  (forall a i w b w', f a i w = (Ok b, w') -> g b = h a i) ->
  forall l i w bs w', mapi_M f l i w = (Ok bs, w') -> map g bs = mapi h l i.
Proof.
  intro Hf. induction l as [|a l IH]; intros i w bs w' H; cbn [mapi_M] in H.
  - invert_run. reflexivity.
  - invert_run. cbn [map mapi]. f_equal; eauto.
Qed.

(** The fallback detections of the static-frame analysis, normalised. *)
Definition fallback_detections (ts : Q) :=
  let d id_ x_ y_ w_ h_ c_ jersey_ team_ color_ :=
    (Some (JNum id_), (x_, y_, w_, h_), c_,
     (Some (JStr (u jersey_)), Some (JStr (u team_)), Some (JStr (u color_))),
     ts, false) in
  [d 1 15 20 8 20 (22 # 25) "10" "home" "Blue";
   d 2 70 30 7 18 (17 # 20) "7" "away" "Red";
   d 3 40 15 8 22 (41 # 50) "9" "home" "Blue";
   d 4 60 50 7 19 (4 # 5) "11" "away" "Red";
   d 5 25 65 8 21 (39 # 50) "8" "home" "Blue";
   d 6 80 10 7 17 (83 # 100) "3" "away" "Red"]%string.

Lemma frame_fallback_run frameDataUrl ts w :
  (forall k, failing_frame_attempt (net w k)) ->
  exists ps w' new,
    FootballAI.analyzeStaticFrameForPlayers (Ok tt) frameDataUrl ts w = (Ok ps, w')
    /\ trace w' = trace w ++ new
    /\ requests new
       = repeat (GenerateFromFrame (FootballAI.split_comma_1 frameDataUrl)) 5
    /\ sleeps new = [2000 * 1; 2000 * 2; 2000 * 3; 2000 * 4]
    /\ map core ps = fallback_detections ts.
Proof.
  intro Hw.
  destruct (@frame_attempts_all_fail frameDataUrl ts 5 w Hw ltac:(lia))
    as (w1 & new & R & T & O & Rq & Sl).
  assert (Q : quiet (mapi_M (FootballAI.processPlayer
                               (FootballAI.teamColors (FootballAI.fallbackAnalysis ts)) ts)
                            (FootballAI.players (FootballAI.fallbackAnalysis ts)) 0)).
  { apply quiet_mapi_M with (P := is_object).
    - intros [] i H; try contradiction. apply quiet_processPlayer.
    - cbn. repeat constructor. }
  destruct (Q w1) as (ps & w2 & E & T2 & _).
  exists ps, w2, new.
  split.
  - unfold FootballAI.analyzeStaticFrameForPlayers, try_catch.
    unfold bind at 1. unfold lift at 1. unfold bind at 1.
    unfold FootballAI.maxAttempts. rewrite R. rewrite E. reflexivity.
  - split; [congruence|]. split; [exact Rq|]. split; [exact Sl|].
    rewrite (mapi_M_map _ core (core_of (FootballAI.teamColors (FootballAI.fallbackAnalysis ts)) ts)
               (fun a i w b w' H => processPlayer_core _ _ _ _ _ H) _ _ _ E).
    vm_compute. reflexivity.
Qed.

(** The same for the server-side video analysis. *)
Definition failing_video_attempt (o : option response) : Prop :=
  match o with
  | None => True
  | Some r =>
      ok r = false
      \/ JSON.parse (body r) = None
      \/ exists v e, JSON.parse (body r) = Some v /\ LargeVideo.read_analysis v = Throw e
  end.

Lemma video_attempt_fails fileUri mimeType w :
  failing_video_attempt (net w (fetches w)) ->
  exists e,
    LargeVideo.attempt fileUri mimeType w
    = (Throw e,
       MkWorld (clock w + inject_Z (Z.of_N (latency w (fetches w))))
               (trace w ++ [Fetch (GenerateContent
                                     (js_or mimeType (Some (JStr (u "video/mp4")))) fileUri)])
               (S (fetches w)) (draws w) (net w) (latency w) (random w)).
Proof.
  unfold failing_video_attempt, LargeVideo.attempt, bind, fetch.
  destruct (net w (fetches w)) as [r|]; [|intros _; eexists; reflexivity].
  intros [H|[H|(v & e & H & H')]].
  - rewrite H. eexists; reflexivity.
  - destruct (ok r); cbn [negb]; [|eexists; reflexivity].
    unfold json_of. rewrite H. eexists; reflexivity.
  - destruct (ok r); cbn [negb]; [|eexists; reflexivity].
    unfold json_of. rewrite H. unfold ret, lift. rewrite H'. eexists; reflexivity.
Qed.

Lemma video_attempts_all_fail fileUri mimeType :
  forall n w,
    (forall k, failing_video_attempt (net w k)) ->
    (1 <= n <= 3)%nat ->
    exists w' new,
      LargeVideo.attempts_loop n fileUri mimeType w
      = (Ok (Some LargeVideo.fallbackResult), w')
      /\ trace w' = trace w ++ new
      /\ same_oracles w w'
      /\ requests new
         = repeat (GenerateContent (js_or mimeType (Some (JStr (u "video/mp4")))) fileUri) n
      /\ sleeps new
         = map (fun a => 2000 * inject_Z (Z.of_nat a)) (seq (4 - n) (n - 1)).
Proof.
  induction n as [|n IH]; intros w Hw Hn; [lia|].
  cbn [LargeVideo.attempts_loop].
  destruct (video_attempt_fails fileUri mimeType w (Hw (fetches w))) as (e & E).
  unfold bind at 1. unfold try_catch. unfold bind at 1. rewrite E.
  unfold LargeVideo.maxAttempts.
  destruct (Nat.eqb_spec (3 - n) 3) as [Hlast|Hmore].
  - assert (n = O) by lia. subst n.
    cbv [bind log ret]. cbn [trace clock fetches draws net latency random].
    eexists _, _. split; [reflexivity|]. cbn [trace].
    rewrite <- app_assoc. split; [reflexivity|]. split; [repeat split|].
    split; reflexivity.
  - cbv [bind log sleep ret].
    cbn [trace clock fetches draws net latency random].
    match goal with
    | |- context [LargeVideo.attempts_loop n fileUri mimeType ?W] =>
        destruct (IH W) as (w' & new & R & T & O & Rq & Sl);
          [exact Hw | lia | ]
    end.
    cbn [trace] in T.
    eexists w', (_ :: _ :: _ :: new). split; [exact R|].
    split; [rewrite T, <- !app_assoc; reflexivity|].
    split; [destruct O as (?&?&?); repeat split; assumption|].
    split.
    + change (requests (?a :: ?b :: ?c :: new))
        with (GenerateContent (js_or mimeType (Some (JStr (u "video/mp4")))) fileUri
                :: requests new).
      rewrite Rq. reflexivity.
    + change (sleeps (?a :: ?b :: Sleep ?c :: new)) with (c :: sleeps new).
      rewrite Sl.
      replace (4 - S n)%nat with (3 - n)%nat by lia.
      replace (S n - 1)%nat with (S (n - 1)) by lia.
      cbn [seq map]. do 2 f_equal. f_equal. lia.
Qed.

Lemma quiet_tabulate_M {A} (f : nat -> M A) :
  (forall i, quiet (f i)) -> forall n i, quiet (tabulate_M f n i).
Proof.
  intro Hf. induction n as [|n IH]; intro i; cbn [tabulate_M].
  - apply quiet_ret.
  - apply quiet_bind; [apply Hf|intro].
    apply quiet_bind; [apply IH | intro; apply quiet_ret].
Qed.

Lemma quiet_video_processPlayer teamColors_ m index :
  quiet (LargeVideo.processPlayer teamColors_ (JObj m) index).
Proof.
  unfold LargeVideo.processPlayer.
  repeat (apply quiet_bind; [apply quiet_lift_get|intro]).
  apply quiet_bind; [|intro; apply quiet_ret].
  apply quiet_tabulate_M. intro i. unfold LargeVideo.position.
  repeat (apply quiet_bind; [apply quiet_random|intro]). apply quiet_ret.
Qed.

Definition video_core (p : LargeVideo.Player) :=
  (LargeVideo.id p, (LargeVideo.x p, LargeVideo.y p), LargeVideo.confidence p,
   (LargeVideo.jersey p, LargeVideo.team p, LargeVideo.teamColor p),
   LargeVideo.timestamp p).

Definition video_core_of (teamColors_ : jsval) (player : json) (index : nat) :=
  (js_or (raw player "id") (Some (index_number index)),
   (match raw player "x" with Some (JNum v) => clamp 0 100 v | _ => 50 end,
    match raw player "y" with Some (JNum v) => clamp 0 100 v | _ => 50 end),
   match raw player "confidence" with Some (JNum v) => clamp 0 1 v | _ => 4 # 5 end,
   (js_or (raw player "jersey") (Some (index_label index)),
    js_or (raw player "team") (Some (JStr (u (if Nat.even index then "home" else "away")))),
    js_or (js_or (raw player "teamColor")
                 (if is_string (raw player "team") "home"
                  then get_opt teamColors_ "home" else get_opt teamColors_ "away"))
          (Some (if Nat.even index then LargeVideo.blue else LargeVideo.red))),
   number_or (raw player "timestamp") 0).

Lemma video_processPlayer_core teamColors_ player index w p w' :
  LargeVideo.processPlayer teamColors_ player index w = (Ok p, w') ->
  video_core p = video_core_of teamColors_ player index.
Proof.
  unfold LargeVideo.processPlayer. intro H. invert_run.
  repeat match goal with
         | H : get player _ = Ok _ |- _ => apply get_get_opt in H; subst
         end.
  reflexivity.
Qed.

(** The fallback players of the video analysis, normalised. *)
Definition video_fallback_players :=
  let d id_ x_ y_ c_ jersey_ team_ color_ ts_ :=
    (Some (JNum id_), (x_, y_), c_,
     (Some (JStr (u jersey_)), Some (JStr (u team_)), Some color_), ts_) in
  [d 1 30 45 (4 # 5) "10" "home" LargeVideo.blue 10;
   d 2 70 55 (4 # 5) "7" "away" LargeVideo.red 12;
   d 3 50 35 (7 # 10) "9" "home" LargeVideo.blue 8;
   d 4 80 25 (7 # 10) "11" "away" LargeVideo.red 14]%string.

Lemma video_fallback_run fileUri mimeType w :
  (forall k, failing_video_attempt (net w k)) ->
  exists r w' new,
    LargeVideo.analyzeVideoWithFilesAPI fileUri mimeType w = (Ok r, w')
    /\ trace w' = trace w ++ new
    /\ requests new
       = repeat (GenerateContent (js_or mimeType (Some (JStr (u "video/mp4")))) fileUri) 3
    /\ sleeps new = [2000 * 1; 2000 * 2]
    /\ map video_core (LargeVideo.players r) = video_fallback_players
    /\ LargeVideo.teamColors r = Some LargeVideo.defaultTeamColors.
Proof.
  intro Hw.
  destruct (@video_attempts_all_fail fileUri mimeType 3 w Hw ltac:(lia))
    as (w1 & new & R & T & O & Rq & Sl).
  set (tc := Some LargeVideo.defaultTeamColors).
  set (raws := [LargeVideo.fallbackPlayer 1 30 45 (4 # 5) "10" "home" LargeVideo.blue 10;
                LargeVideo.fallbackPlayer 2 70 55 (4 # 5) "7" "away" LargeVideo.red 12;
                LargeVideo.fallbackPlayer 3 50 35 (7 # 10) "9" "home" LargeVideo.blue 8;
                LargeVideo.fallbackPlayer 4 80 25 (7 # 10) "11" "away" LargeVideo.red 14]).
  assert (Q : quiet (mapi_M (LargeVideo.processPlayer tc) raws 0)).
  { apply quiet_mapi_M with (P := is_object).
    - intros [] i H; try contradiction. apply quiet_video_processPlayer.
    - cbn. repeat constructor. }
  destruct (Q w1) as (ps & w2 & E & T2 & _).
  exists (LargeVideo.MkAnalysis ps tc), w2, new.
  split.
  - unfold LargeVideo.analyzeVideoWithFilesAPI, LargeVideo.maxAttempts.
    unfold bind at 1. rewrite R.
    change (getv (Some LargeVideo.fallbackResult) "players") with (Ok (Some (JArr raws))).
    change (getv (Some LargeVideo.fallbackResult) "teamColors") with (Ok tc).
    cbv [bind lift]. rewrite E. reflexivity.
  - split; [congruence|]. split; [exact Rq|]. split; [exact Sl|]. split; [|reflexivity].
    cbn [LargeVideo.players].
    rewrite (mapi_M_map _ video_core (video_core_of tc)
               (fun a i w b w' H => video_processPlayer_core _ _ _ _ H) _ _ _ E).
    vm_compute. reflexivity.
Qed.

(** C4, as amended.  When every inference attempt fails, the static-frame
    analysis of the client makes exactly 5 attempts and the video analysis
    of the server exactly 3, sleeping 2000 ms times the attempt number
    between two attempts, and then returns normally -- no error surfaces --
    with the normalised fallback set: six detections on the client, four
    players and the default team colours on the server.  The value
    returned has the shape of any other result; no field of it says that
    it is a fallback. *)
Theorem fallback_after_exhaustion :
  (forall frameDataUrl ts w,
      (forall k, failing_frame_attempt (net w k)) ->
      exists ps w' new,
        FootballAI.analyzeStaticFrameForPlayers (Ok tt) frameDataUrl ts w = (Ok ps, w')
        /\ trace w' = trace w ++ new
        /\ requests new
           = repeat (GenerateFromFrame (FootballAI.split_comma_1 frameDataUrl))
                    FootballAI.maxAttempts
        /\ sleeps new = [2000 * 1; 2000 * 2; 2000 * 3; 2000 * 4]
        /\ map core ps = fallback_detections ts
        /\ length ps = 6%nat)
  /\ (forall fileUri mimeType w,
        (forall k, failing_video_attempt (net w k)) ->
        exists r w' new,
          LargeVideo.analyzeVideoWithFilesAPI fileUri mimeType w = (Ok r, w')
          /\ trace w' = trace w ++ new
          /\ requests new
             = repeat (GenerateContent (js_or mimeType (Some (JStr (u "video/mp4"))))
                                       fileUri)
                      LargeVideo.maxAttempts
          /\ sleeps new = [2000 * 1; 2000 * 2]
          /\ map video_core (LargeVideo.players r) = video_fallback_players
          /\ LargeVideo.teamColors r = Some LargeVideo.defaultTeamColors
          /\ length (LargeVideo.players r) = 4%nat).
Proof.
  split.
  - intros frameDataUrl ts w Hw.
    destruct (@frame_fallback_run frameDataUrl ts w Hw)
      as (ps & w' & new & R & T & Rq & Sl & C).
    exists ps, w', new. repeat (split; [assumption|]).
    rewrite <- (length_map core), C. reflexivity.
  - intros fileUri mimeType w Hw.
    destruct (@video_fallback_run fileUri mimeType w Hw)
      as (r & w' & new & R & T & Rq & Sl & C & TC).
    exists r, w', new. repeat (split; [assumption|]).
    rewrite <- (length_map video_core), C. reflexivity.
Qed.

(** A world without network: every request is rejected. *)
Definition offline : World := world_of (fun _ => None) (fun k => (N.of_nat k * 2 ^ 50)%N).

Lemma fallback_after_exhaustion_witness :
  (forall k, failing_frame_attempt (net offline k))
  /\ exists ps w' new,
       FootballAI.analyzeStaticFrameForPlayers (Ok tt) frame_url 10 offline = (Ok ps, w')
       /\ trace w' = trace offline ++ new
       /\ requests new
          = repeat (GenerateFromFrame (FootballAI.split_comma_1 frame_url))
                   FootballAI.maxAttempts
       /\ sleeps new = [2000 * 1; 2000 * 2; 2000 * 3; 2000 * 4]
       /\ map core ps = fallback_detections 10
       /\ length ps = 6%nat.
Proof.
  assert (H : forall k, failing_frame_attempt (net offline k)) by (intro k; exact I).
  split; [exact H|].
  exact (proj1 fallback_after_exhaustion frame_url 10 offline H).
Defined.

(** A reply of the model that describes the very players of the fallback
    set, for a frame taken at 10 seconds. *)
Definition detection_text (id_ x_ y_ width_ height_ confidence_ jersey_ team_ color_ : string)
  : text :=
  object_text [kv "id" (u id_); kv "x" (u x_); kv "y" (u y_); kv "width" (u width_);
               kv "height" (u height_); kv "confidence" (u confidence_);
               kv "jersey" (quoted jersey_); kv "team" (quoted team_);
               kv "teamColor" (quoted color_); kv "timestamp" (u "10");
               kv "isReferee" (u "false")].

Definition fallback_like_reply : text :=
  object_text
    [kv "teamColors" (object_text [kv "home" (quoted "Blue"); kv "away" (quoted "Red")]);
     kv "players"
        (array_text
           [detection_text "1" "15" "20" "8" "20" "0.88" "10" "home" "Blue";
            detection_text "2" "70" "30" "7" "18" "0.85" "7" "away" "Red";
            detection_text "3" "40" "15" "8" "22" "0.82" "9" "home" "Blue";
            detection_text "4" "60" "50" "7" "19" "0.80" "11" "away" "Red";
            detection_text "5" "25" "65" "8" "21" "0.78" "8" "home" "Blue";
            detection_text "6" "80" "10" "7" "17" "0.83" "3" "away" "Red"])].

(** The counterexample to C4 as stated: no degraded-mode flag reaches the
    caller.  A run in which all five attempts fail and a run whose first
    attempt succeeds return the same value, so nothing the caller computes
    from the value returned tells the fallback from a real result. *)
Lemma fallback_is_not_flagged :
  let failed := FootballAI.analyzeStaticFrameForPlayers (Ok tt) frame_url 10 offline in
  let succeeded :=
    FootballAI.analyzeStaticFrameForPlayers (Ok tt) frame_url 10
      (replying fallback_like_reply) in
  (forall k, failing_frame_attempt (net offline k))
  /\ length (requests (trace (snd failed))) = 5%nat
  /\ (exists a, FootballAI.read_analysis fallback_like_reply = Ok a)
  /\ length (requests (trace (snd succeeded))) = 1%nat
  /\ (exists ps, fst failed = Ok ps /\ fst succeeded = Ok ps /\ length ps = 6%nat)
  /\ forall flag : result (list FootballAI.PlayerDetection) -> bool,
       flag (fst failed) = flag (fst succeeded).
Proof.
  cbv zeta.
  assert (E : fst (FootballAI.analyzeStaticFrameForPlayers (Ok tt) frame_url 10 offline)
              = fst (FootballAI.analyzeStaticFrameForPlayers (Ok tt) frame_url 10
                       (replying fallback_like_reply)))
    by (vm_compute; reflexivity).
  split; [intro k; exact I|].
  split; [vm_compute; reflexivity|].
  split; [eexists; vm_compute; reflexivity|].
  split; [vm_compute; reflexivity|].
  split.
  - rewrite <- E.
    destruct (@frame_fallback_run frame_url 10 offline (fun k => I))
      as (ps & w' & new & R & _ & _ & _ & C).
    exists ps. rewrite R. repeat split.
    rewrite <- (length_map core), C. reflexivity.
  - intro flag. now rewrite E.
Qed.

(* ----------------------------------------------------------------- *)
(** ** The fallback data and chance *)

Lemma Math_random_range w r w' :
  Math_random w = (Ok r, w') -> 0 <= r /\ r < 1.
Proof.
  unfold Math_random. intro H. injection H as <- _.
  pose proof (N.mod_lt (random w (draws w)) (2 ^ 53) ltac:(discriminate)) as B.
  unfold Qle, Qlt. cbn [Qnum Qden].
  change (2 ^ 53)%N with 9007199254740992%N in *.
  change (2 ^ 53)%positive with 9007199254740992%positive.
  generalize dependent (random w (draws w) mod 9007199254740992)%N. intros m B. lia.
Qed.

(** The largest draw: [1 - 2^-53]. *)
Definition largest_draw : Q := Qmake (2 ^ 53 - 1) (2 ^ 53).

Lemma Math_random_max w r w' :
  Math_random w = (Ok r, w') -> r <= largest_draw.
Proof.
  unfold Math_random. intro H. injection H as <- _.
  pose proof (N.mod_lt (random w (draws w)) (2 ^ 53) ltac:(discriminate)) as B.
  unfold Qle, largest_draw. cbn [Qnum Qden].
  change (2 ^ 53)%N with 9007199254740992%N in *.
  change (2 ^ 53)%positive with 9007199254740992%positive.
  change (2 ^ 53 - 1)%Z with 9007199254740991%Z.
  generalize dependent (random w (draws w) mod 9007199254740992)%N. intros m B. lia.
Qed.

Lemma quiet_now : quiet now.
Proof. intro w. exists (clock w), w. repeat split. Qed.

Lemma quiet_random_below n : quiet (PlayerPerformance.random_below n).
Proof.
  unfold PlayerPerformance.random_below.
  apply quiet_bind; [apply quiet_random | intro; apply quiet_ret].
Qed.

(** [Math.floor(Math.random() * n)] is one of [0 .. n - 1] for the
    factors [n] of the source: the product of the largest draw, as a
    double, is still below [n]. *)
Lemma random_below_range n w q w' :
  (0 < n)%Z ->
  binary64 (largest_draw * inject_Z n) < inject_Z n ->
  PlayerPerformance.random_below n w = (Ok q, w') ->
  exists k : Z, q = inject_Z k /\ (0 <= k <= n - 1)%Z.
Proof.
  intros Hn Hmax H. unfold PlayerPerformance.random_below in H. invert_run.
  match goal with
  | Hr : Math_random _ = _ |- _ =>
      pose proof (Math_random_max Hr) as M_; apply Math_random_range in Hr as [L U]
  end.
  eexists. split; [reflexivity|]. unfold Math_floor.
  assert (N0 : 0 < inject_Z n) by (change 0 with (inject_Z 0); rewrite <- Zlt_Qlt; lia).
  split.
  - change 0%Z with (Qfloor 0). apply Qfloor_resp_le.
    apply binary64_ge; [reflexivity | nra].
  - assert (F : inject_Z (Qfloor (binary64 (x * inject_Z n))) < inject_Z n).
    { eapply Qle_lt_trans; [apply Qfloor_le|].
      eapply Qle_lt_trans; [apply binary64_monotone | exact Hmax]. nra. }
    rewrite <- Zlt_Qlt in F. lia.
Qed.

(** A field that is a finite number within bounds. *)
Definition within (lo hi : Q) (v : num) : Prop :=
  exists q, v = Fin q /\ lo <= q /\ q <= hi.

(** A field that is a whole number within bounds. *)
Definition whole_within (lo hi : Z) (v : num) : Prop :=
  exists q k, v = Fin q /\ q == inject_Z k /\ (lo <= k <= hi)%Z.

(** Two draws that differ in every number: all zeros, and all one half. *)
Definition chance_low : World := world_of (fun _ => None) (fun _ => 0%N).
Definition chance_mid : World := world_of (fun _ => None) (fun _ => (2 ^ 52)%N).

(** Every draw the largest there is. *)
Definition chance_high : World := world_of (fun _ => None) (fun _ => (2 ^ 53 - 1)%N).

Definition performance_numbers (d : PlayerPerformance.PerformanceData) : list num :=
  [PlayerPerformance.overall d; PlayerPerformance.speed d; PlayerPerformance.passing d;
   PlayerPerformance.positioning d; PlayerPerformance.touches d;
   PlayerPerformance.distance d; PlayerPerformance.topSpeed d;
   PlayerPerformance.passAccuracy d;
   PlayerPerformance.right (PlayerPerformance.dominantFoot d);
   PlayerPerformance.left (PlayerPerformance.dominantFoot d)].

(** The numeric fields of a run's result, as fractions in lowest terms. *)
Definition numbers_of (r : result PlayerPerformance.PerformanceData) : list Q :=
  match r with
  | Ok d => flat_map (fun v => match v with Fin q => [Qred q] | _ => [] end)
                     (performance_numbers d)
  | Throw _ => []
  end.

Example fallback_performance_runs :
  numbers_of (fst (PlayerPerformance.generateFallbackPerformanceData
                     (u "Ada") chance_low))
  = [70; 65; 65; 65; 80; 6; 20; 75; 60; 40]
  /\ numbers_of (fst (PlayerPerformance.generateFallbackPerformanceData
                     (u "Ada") chance_mid))
     = [80; 80; 80; 80; 110; 15 # 2; 24; 85; 75; 25].
Proof. split; vm_compute; reflexivity. Qed.

(** The upper ends of the ranges: with the largest draws the distance is
    9 and the top speed 28, as doubles. *)
Example fallback_performance_upper_ends :
  numbers_of (fst (PlayerPerformance.generateFallbackPerformanceData
                     (u "Ada") chance_high))
  = [89; 93; 93; 93; 139; 9; 28; 94; 89; 11].
Proof. vm_compute. reflexivity. Qed.

Ltac invert_now :=
  repeat match goal with
    | H : now _ = (Ok _, _) |- _ => unfold now in H; injection H as ? ?; subst
    end.

Lemma quiet_generateFallbackPerformanceData playerName :
  quiet (PlayerPerformance.generateFallbackPerformanceData playerName).
Proof.
  unfold PlayerPerformance.generateFallbackPerformanceData.
  apply quiet_bind; [apply quiet_random_below|intro].
  do 2 (apply quiet_bind; [apply quiet_now|intro]).
  do 4 (apply quiet_bind; [apply quiet_random_below|intro]).
  do 2 (apply quiet_bind; [apply quiet_random|intro]).
  do 3 (apply quiet_bind; [apply quiet_random_below|intro]).
  apply quiet_ret.
Qed.

(** The fallback performance data: always produced, its numbers drawn
    within fixed ranges. *)
Lemma fallback_performance_ranges playerName w :
  exists d w',
    PlayerPerformance.generateFallbackPerformanceData playerName w = (Ok d, w')
    /\ trace w' = trace w
    /\ PlayerPerformance.opponent d = PlayerPerformance.defaultOpponent
    /\ (exists o,
          PlayerPerformance.overall d = Fin o
          /\ whole_within 70 89 (PlayerPerformance.overall d)
          /\ within (o - 5) (o + 4) (PlayerPerformance.speed d)
          /\ within (o - 5) (o + 4) (PlayerPerformance.passing d)
          /\ within (o - 5) (o + 4) (PlayerPerformance.positioning d))
    /\ whole_within 80 139 (PlayerPerformance.touches d)
    /\ within 6 9 (PlayerPerformance.distance d)
    /\ within 20 28 (PlayerPerformance.topSpeed d)
    /\ whole_within 75 94 (PlayerPerformance.passAccuracy d)
    /\ whole_within 60 89 (PlayerPerformance.right (PlayerPerformance.dominantFoot d))
    /\ whole_within 11 40 (PlayerPerformance.left (PlayerPerformance.dominantFoot d)).
Proof.
  destruct (quiet_generateFallbackPerformanceData playerName w)
    as (d & w' & E & T & _).
  exists d, w'. split; [exact E|]. split; [exact T|].
  revert E. unfold PlayerPerformance.generateFallbackPerformanceData. intro E.
  invert_run. invert_now.
  repeat match goal with
         | H : PlayerPerformance.random_below ?n _ = (Ok ?q, _) |- _ =>
             let k := fresh "k" in
             let B := fresh "B" in
             apply random_below_range in H; [|reflexivity|vm_compute; reflexivity];
             destruct H as (k & -> & B)
         | H : Math_random _ = (Ok _, _) |- _ => apply Math_random_range in H
         end.
  cbn [PlayerPerformance.opponent PlayerPerformance.overall PlayerPerformance.speed
       PlayerPerformance.passing PlayerPerformance.positioning PlayerPerformance.touches
       PlayerPerformance.distance PlayerPerformance.topSpeed
       PlayerPerformance.passAccuracy PlayerPerformance.dominantFoot
       PlayerPerformance.right PlayerPerformance.left].
  assert (I : forall a b : Z, inject_Z a + inject_Z b == inject_Z (a + b))
    by (intros; now rewrite inject_Z_plus).
  assert (J : forall a b : Z, inject_Z a - inject_Z b == inject_Z (a - b)).
  { intros. unfold Qminus. rewrite <- inject_Z_opp, <- inject_Z_plus. reflexivity. }
  assert (P : forall k lo hi, (lo <= k <= hi)%Z ->
                inject_Z lo <= inject_Z k /\ inject_Z k <= inject_Z hi)
    by (intros; rewrite <- !Zle_Qle; lia).
  split; [reflexivity|].
  split.
  { eexists. split; [reflexivity|]. split.
    - eexists _, (70 + _)%Z. split; [reflexivity|]. split; [apply (I 70%Z)|lia].
    - repeat split; eexists; (split; [reflexivity|]);
        match goal with
        | |- _ <= _ + inject_Z ?k - 5 /\ _ =>
            destruct (P k 0%Z 9%Z ltac:(lia)) as [L U];
            change (inject_Z 0) with 0 in L; change (inject_Z 9) with 9 in U; lra
        end. }
  split; [eexists _, (80 + _)%Z; split; [reflexivity|]; split; [apply (I 80%Z)|lia]|].
  assert (D : forall (c f lo hi : Z) (r : Q),
             0 <= r -> r < 1 -> (0 <= f)%Z -> lo = c -> hi = (c + f)%Z ->
             (Z.abs hi <= 2 ^ 53)%Z -> (Z.abs lo <= 2 ^ 53)%Z -> (f <= 2 ^ 53)%Z ->
             inject_Z lo <= binary64 (inject_Z c + binary64 (r * inject_Z f))
             /\ binary64 (inject_Z c + binary64 (r * inject_Z f)) <= inject_Z hi).
  { intros c f lo hi r R0 R1 F0 -> -> Hhi Hlo Hf.
    assert (F : 0 <= inject_Z f) by (change 0 with (inject_Z 0); rewrite <- Zle_Qle; lia).
    assert (P0 : 0 <= binary64 (r * inject_Z f))
      by (apply binary64_ge; [reflexivity | nra]).
    assert (P1 : binary64 (r * inject_Z f) <= inject_Z f)
      by (apply binary64_le; [apply binary64_whole; lia | nra]).
    split.
    - apply binary64_ge; [now apply binary64_whole | lra].
    - apply binary64_le; [now apply binary64_whole|]. rewrite inject_Z_plus. lra. }
  split; [eexists; split; [reflexivity|]; apply (D 6 3 6 9)%Z; try tauto; try lia;
          reflexivity|].
  split; [eexists; split; [reflexivity|]; apply (D 20 8 20 28)%Z; try tauto; try lia;
          reflexivity|].
  split; [eexists _, (75 + _)%Z; split; [reflexivity|]; split; [apply (I 75%Z)|lia]|].
  split; [eexists _, (60 + _)%Z; split; [reflexivity|]; split; [apply (I 60%Z)|lia]|].
  eexists _, (40 - _)%Z; split; [reflexivity|]; split; [apply (J 40%Z)|lia].
Qed.

(** The first movement position of the first player of a video analysis,
    its abscissa in lowest terms. *)
Definition first_abscissa (r : result LargeVideo.Analysis) : option Q :=
  match r with
  | Ok a =>
      match LargeVideo.players a with
      | p :: _ =>
          match LargeVideo.positions (LargeVideo.movementPattern p) with
          | pos :: _ => option_map Qred (LargeVideo.pos_x pos)
          | [] => None
          end
      | [] => None
      end
  | Throw _ => None
  end.

(** C7, as amended.  What is fixed in the fallback data and what is drawn.
    After the attempts of the server's video analysis are exhausted, any
    two runs return players that agree on identifier, position,
    confidence, jersey, team, team colour and timestamp, and the same team
    colours; the movement patterns are left out, they are drawn with
    Math.random.  The fallback performance data is always produced,
    without a request, and its numbers are drawn within fixed ranges:
    overall a whole number in 70..89, speed, passing and positioning
    within overall-5 .. overall+4, touches whole in 80..139, distance a
    double in [6, 9], topSpeed a double in [20, 28] (the upper ends are
    reached), passAccuracy whole in 75..94, the right foot whole in 60..89
    and the left foot whole in 11..40. *)
Theorem fallback_fixed_up_to_chance :
  (forall fileUri mimeType w1 w2,
      (forall k, failing_video_attempt (net w1 k)) ->
      (forall k, failing_video_attempt (net w2 k)) ->
      exists r1 w1' r2 w2',
        LargeVideo.analyzeVideoWithFilesAPI fileUri mimeType w1 = (Ok r1, w1')
        /\ LargeVideo.analyzeVideoWithFilesAPI fileUri mimeType w2 = (Ok r2, w2')
        /\ map video_core (LargeVideo.players r1) = map video_core (LargeVideo.players r2)
        /\ LargeVideo.teamColors r1 = LargeVideo.teamColors r2)
  /\ (forall playerName w,
        exists d w',
          PlayerPerformance.generateFallbackPerformanceData playerName w = (Ok d, w')
          /\ trace w' = trace w
          /\ PlayerPerformance.opponent d = PlayerPerformance.defaultOpponent
          /\ (exists o,
                PlayerPerformance.overall d = Fin o
                /\ whole_within 70 89 (PlayerPerformance.overall d)
                /\ within (o - 5) (o + 4) (PlayerPerformance.speed d)
                /\ within (o - 5) (o + 4) (PlayerPerformance.passing d)
                /\ within (o - 5) (o + 4) (PlayerPerformance.positioning d))
          /\ whole_within 80 139 (PlayerPerformance.touches d)
          /\ within 6 9 (PlayerPerformance.distance d)
          /\ within 20 28 (PlayerPerformance.topSpeed d)
          /\ whole_within 75 94 (PlayerPerformance.passAccuracy d)
          /\ whole_within 60 89
               (PlayerPerformance.right (PlayerPerformance.dominantFoot d))
          /\ whole_within 11 40
               (PlayerPerformance.left (PlayerPerformance.dominantFoot d))).
Proof.
  split.
  - intros fileUri mimeType w1 w2 H1 H2.
    destruct (@video_fallback_run fileUri mimeType w1 H1)
      as (r1 & w1' & n1 & R1 & _ & _ & _ & C1 & T1).
    destruct (@video_fallback_run fileUri mimeType w2 H2)
      as (r2 & w2' & n2 & R2 & _ & _ & _ & C2 & T2).
    exists r1, w1', r2, w2'. repeat split; congruence.
  - intros playerName w. apply fallback_performance_ranges.
Qed.

(** The counterexample to C7 as stated: the fallback data is not a
    function of its inputs.  Two runs for the same player name on the same
    clock, which differ in the draws of Math.random only, return different
    performance scores; and two exhausted video analyses of the same file
    return different movement patterns. *)
Lemma fallback_depends_on_chance :
  clock chance_low = clock chance_mid
  /\ numbers_of (fst (PlayerPerformance.generateFallbackPerformanceData
                     (u "Ada") chance_low))
     = [70; 65; 65; 65; 80; 6; 20; 75; 60; 40]
  /\ numbers_of (fst (PlayerPerformance.generateFallbackPerformanceData
                     (u "Ada") chance_mid))
     = [80; 80; 80; 80; 110; 15 # 2; 24; 85; 75; 25]
  /\ fst (PlayerPerformance.generateFallbackPerformanceData (u "Ada") chance_low)
     <> fst (PlayerPerformance.generateFallbackPerformanceData (u "Ada") chance_mid)
  /\ (forall k, failing_video_attempt (net chance_low k))
  /\ (forall k, failing_video_attempt (net chance_mid k))
  /\ first_abscissa (fst (LargeVideo.analyzeVideoWithFilesAPI None None chance_low))
     = Some (45 # 2)
  /\ first_abscissa (fst (LargeVideo.analyzeVideoWithFilesAPI None None chance_mid))
     = Some 30
  /\ fst (LargeVideo.analyzeVideoWithFilesAPI None None chance_low)
     <> fst (LargeVideo.analyzeVideoWithFilesAPI None None chance_mid).
Proof.
  assert (P1 : numbers_of (fst (PlayerPerformance.generateFallbackPerformanceData
                                  (u "Ada") chance_low))
               = [70; 65; 65; 65; 80; 6; 20; 75; 60; 40])
    by (vm_compute; reflexivity).
  assert (P2 : numbers_of (fst (PlayerPerformance.generateFallbackPerformanceData
                                  (u "Ada") chance_mid))
               = [80; 80; 80; 80; 110; 15 # 2; 24; 85; 75; 25])
    by (vm_compute; reflexivity).
  assert (V1 : first_abscissa (fst (LargeVideo.analyzeVideoWithFilesAPI None None chance_low))
               = Some (45 # 2))
    by (vm_compute; reflexivity).
  assert (V2 : first_abscissa (fst (LargeVideo.analyzeVideoWithFilesAPI None None chance_mid))
               = Some 30)
    by (vm_compute; reflexivity).
  split; [reflexivity|].
  split; [exact P1|]. split; [exact P2|].
  split.
  { intro E. rewrite E, P2 in P1. discriminate P1. }
  split; [intro k; exact I|]. split; [intro k; exact I|].
  split; [exact V1|]. split; [exact V2|].
  intro E. rewrite E, V2 in V1. discriminate V1.
Qed.

(* ----------------------------------------------------------------- *)
(** ** The validated performance data *)

Lemma Qle_bool_false (a b : Q) : Qle_bool a b = false -> b < a.
Proof.
  intro H. apply Qnot_le_lt. intro L. apply Qle_bool_iff in L. congruence.
Qed.

(** [Math.max(0, Math.min(hi, Number(v) || d))] is a finite number between
    0 and [hi], whatever [v] is. *)
Lemma bounded_range (hi : Q) (v : jsval) (d : Q) :
  0 <= hi -> within 0 hi (PlayerPerformance.bounded hi v d).
Proof.
  intro Hhi. unfold PlayerPerformance.bounded, num_or, within.
  assert (D : (if num_truthy (Number v) then Number v else Fin d) <> NaN).
  { destruct (Number v) as [| |q|]; cbn; try destruct (Qeq_bool q 0); cbn; discriminate. }
  destruct (if num_truthy (Number v) then Number v else Fin d) as [| |q|];
    [contradiction | | |].
  - exists 0. cbn. repeat split; [apply Qle_refl | exact Hhi].
  - cbn [num_min num_leb].
    destruct (Qle_bool hi q) eqn:E1; cbn [num_max num_leb].
    + apply Qle_bool_iff in Hhi. rewrite Hhi. apply Qle_bool_iff in Hhi.
      exists hi. repeat split; [exact Hhi | apply Qle_refl].
    + apply Qle_bool_false in E1.
      destruct (Qle_bool 0 q) eqn:E2.
      * apply Qle_bool_iff in E2. exists q. repeat split; [exact E2 | lra].
      * exists 0. repeat split; [apply Qle_refl | exact Hhi].
  - cbn [num_min num_leb num_max].
    apply Qle_bool_iff in Hhi. rewrite Hhi. apply Qle_bool_iff in Hhi.
    exists hi. repeat split; [exact Hhi | apply Qle_refl].
Qed.

(** The default is taken exactly when [Number(v)] is [NaN] or zero. *)
Lemma bounded_default (hi : Q) (v : jsval) (d : Q) :
  0 <= d -> d < hi ->
  num_truthy (Number v) = false -> PlayerPerformance.bounded hi v d = Fin d.
Proof.
  intros H0 H1 F. unfold PlayerPerformance.bounded, num_or. rewrite F.
  cbn [num_min num_leb].
  destruct (Qle_bool hi d) eqn:E1.
  - apply Qle_bool_iff in E1. lra.
  - cbn [num_max num_leb]. apply Qle_bool_iff in H0. now rewrite H0.
Qed.

(** A number other than zero is clamped, not replaced. *)
Lemma bounded_number (hi q d : Q) :
  0 <= hi -> ~ q == 0 ->
  exists r, PlayerPerformance.bounded hi (Some (JNum q)) d = Fin r /\ r == clamp 0 hi q.
Proof.
  intros Hhi Hq. unfold PlayerPerformance.bounded, num_or, clamp, Math_max, Math_min.
  cbn [Number ToNumber num_truthy].
  destruct (Qeq_bool q 0) eqn:E; [apply Qeq_bool_iff in E; contradiction|].
  cbn [negb num_min num_leb].
  destruct (Qle_bool hi q) eqn:E1; cbn [num_max num_leb].
  - destruct (Qle_bool 0 hi) eqn:E2; eexists; split; reflexivity.
  - destruct (Qle_bool 0 q) eqn:E2; eexists; split; reflexivity.
Qed.

(** The parsed values on which the validator does not throw: anything but
    [null] whose [date] is falsy or a string. *)
Definition accepted (v : json) : bool :=
  match get v "date" with
  | Throw _ => false
  | Ok d => negb (truthy d) || match d with Some (JStr _) => true | _ => false end
  end.

(** Every numeric field of validated performance data within its bounds. *)
Definition in_bounds (d : PlayerPerformance.PerformanceData) : Prop :=
  within 0 100 (PlayerPerformance.overall d)
  /\ within 0 100 (PlayerPerformance.speed d)
  /\ within 0 100 (PlayerPerformance.passing d)
  /\ within 0 100 (PlayerPerformance.positioning d)
  /\ within 0 500 (PlayerPerformance.touches d)
  /\ within 0 20 (PlayerPerformance.distance d)
  /\ within 0 50 (PlayerPerformance.topSpeed d)
  /\ within 0 100 (PlayerPerformance.passAccuracy d)
  /\ within 0 100 (PlayerPerformance.right (PlayerPerformance.dominantFoot d))
  /\ within 0 100 (PlayerPerformance.left (PlayerPerformance.dominantFoot d)).

(** Whether [Number(v)] is [NaN] or zero, so that [||] takes the default. *)
Definition no_number (v : jsval) : Prop := num_truthy (Number v) = false.

(** [v.k], [undefined] where the access throws. *)
Definition field (v : json) (k : string) : jsval :=
  match get v k with Ok x => x | Throw _ => None end.

(** The defaults of the validator, field by field. *)
Definition defaults_used (v : json) (d : PlayerPerformance.PerformanceData) : Prop :=
  (no_number (field v "overall") -> PlayerPerformance.overall d = Fin 75)
  /\ (no_number (field v "speed") -> PlayerPerformance.speed d = Fin 80)
  /\ (no_number (field v "passing") -> PlayerPerformance.passing d = Fin 78)
  /\ (no_number (field v "positioning") -> PlayerPerformance.positioning d = Fin 82)
  /\ (no_number (field v "touches") -> PlayerPerformance.touches d = Fin 120)
  /\ (no_number (field v "distance") -> PlayerPerformance.distance d = Fin (15 # 2))
  /\ (no_number (field v "topSpeed") -> PlayerPerformance.topSpeed d = Fin (45 # 2))
  /\ (no_number (field v "passAccuracy") -> PlayerPerformance.passAccuracy d = Fin 85)
  /\ (no_number (get_opt (field v "dominantFoot") "right") ->
      PlayerPerformance.right (PlayerPerformance.dominantFoot d) = Fin 65)
  /\ (no_number (get_opt (field v "dominantFoot") "left") ->
      PlayerPerformance.left (PlayerPerformance.dominantFoot d) = Fin 35).

Lemma validated_in_bounds date_parses v w d w' :
  PlayerPerformance.validatePerformanceData date_parses v w = (Ok d, w') ->
  in_bounds d /\ defaults_used v d.
Proof.
  unfold PlayerPerformance.validatePerformanceData. intro E.
  invert_run. invert_now.
  split.
  - unfold in_bounds.
    cbn [PlayerPerformance.overall PlayerPerformance.speed
         PlayerPerformance.passing PlayerPerformance.positioning PlayerPerformance.touches
         PlayerPerformance.distance PlayerPerformance.topSpeed
         PlayerPerformance.passAccuracy PlayerPerformance.dominantFoot
         PlayerPerformance.right PlayerPerformance.left].
    repeat split; apply bounded_range; discriminate.
  - unfold defaults_used, field.
    cbn [PlayerPerformance.overall PlayerPerformance.speed
         PlayerPerformance.passing PlayerPerformance.positioning PlayerPerformance.touches
         PlayerPerformance.distance PlayerPerformance.topSpeed
         PlayerPerformance.passAccuracy PlayerPerformance.dominantFoot
         PlayerPerformance.right PlayerPerformance.left].
    repeat match goal with H : get v _ = Ok _ |- _ => rewrite H; clear H end.
    repeat split; intro F; apply bounded_default; try exact F;
      unfold Qle, Qlt; cbn; lia.
Qed.

Lemma isValidDateString_returns date_parses (x : jsval) :
  negb (truthy x) || match x with Some (JStr _) => true | _ => false end = true ->
  exists b, PlayerPerformance.isValidDateString date_parses x = Ok b.
Proof.
  unfold PlayerPerformance.isValidDateString. intro H.
  destruct (negb (truthy x)); [eexists; reflexivity|].
  destruct x as [[]|]; try discriminate H.
  repeat match goal with |- context [if ?c then _ else _] => destruct c end;
    eexists; reflexivity.
Qed.

Lemma isValidDateString_throws date_parses (x : jsval) :
  negb (truthy x) || match x with Some (JStr _) => true | _ => false end = false ->
  PlayerPerformance.isValidDateString date_parses x = Throw TypeError.
Proof.
  unfold PlayerPerformance.isValidDateString. intro H.
  destruct (negb (truthy x)); [discriminate H|].
  destruct x as [[]|]; try discriminate H; reflexivity.
Qed.

(** The validator returns on the accepted values, without an effect. *)
Lemma validator_returns date_parses v w :
  accepted v = true ->
  exists d, PlayerPerformance.validatePerformanceData date_parses v w = (Ok d, w).
Proof.
  unfold accepted. intro H.
  destruct v; try discriminate H;
    destruct (@isValidDateString_returns date_parses _ H) as [ok_ Hb];
    unfold PlayerPerformance.validatePerformanceData, bind, lift, now, ret;
    cbv beta iota; unfold get at 1 2; cbv beta iota; unfold get in Hb; rewrite Hb;
    cbv beta iota; eexists; reflexivity.
Qed.

(** On every other value it throws a [TypeError]. *)
Lemma validator_throws date_parses v w :
  accepted v = false ->
  PlayerPerformance.validatePerformanceData date_parses v w = (Throw TypeError, w).
Proof.
  unfold accepted. intro H.
  destruct v; try reflexivity;
    pose proof (@isValidDateString_throws date_parses _ H) as Hb;
    unfold PlayerPerformance.validatePerformanceData, bind, lift, now, ret;
    cbv beta iota; unfold get at 1 2; cbv beta iota; unfold get in Hb; rewrite Hb;
    reflexivity.
Qed.

(** A reply of the model whose feet do not add up: overall beyond its
    range, speed as a string, both feet at 90. *)
Definition lopsided_reply : text :=
  object_text [kv "overall" (u "250"); kv "speed" (quoted "88");
               kv "dominantFoot"
                  (object_text [kv "right" (u "90"); kv "left" (u "90")])].

Definition lopsided : json :=
  JObj [(u "overall", JNum 250); (u "speed", JStr (u "88"));
        (u "dominantFoot", JObj [(u "right", JNum 90); (u "left", JNum 90)])].

(** C10, as amended.  The validator returns, without an effect, on every
    parsed value but [null] whose date is falsy or a string.  Whenever it
    returns, overall, speed, passing, positioning and passAccuracy lie in
    [0,100], touches in [0,500], distance in [0,20], topSpeed in [0,50] and
    both dominantFoot percentages in [0,100]; a field whose [Number(...)] is
    [NaN] or zero takes its default 75, 80, 78, 82, 120, 7.5, 22.5, 85, 65
    or 35.  The two feet are bounded one by one and their sum is not
    checked: for the reply with both feet at 90 the sum returned is 180. *)
Theorem validated_performance_data (date_parses : text -> bool) :
  (forall v w,
      accepted v = true ->
      exists d, PlayerPerformance.validatePerformanceData date_parses v w = (Ok d, w))
  /\ (forall v w d w',
        PlayerPerformance.validatePerformanceData date_parses v w = (Ok d, w') ->
        in_bounds d /\ defaults_used v d)
  /\ PlayerPerformance.extractJsonFromText lopsided_reply = Ok lopsided
  /\ (forall w,
        numbers_of (fst (PlayerPerformance.validatePerformanceData date_parses lopsided w))
        = [100; 88; 78; 82; 120; 15 # 2; 45 # 2; 85; 90; 90])
  /\ (forall w, exists d r l,
        PlayerPerformance.validatePerformanceData date_parses lopsided w = (Ok d, w)
        /\ PlayerPerformance.right (PlayerPerformance.dominantFoot d) = Fin r
        /\ PlayerPerformance.left (PlayerPerformance.dominantFoot d) = Fin l
        /\ r + l == 180 /\ ~ r + l == 100).
Proof.
  split; [intros v w; apply validator_returns|].
  split; [intros v w d w'; apply validated_in_bounds|].
  split; [vm_compute; reflexivity|].
  split; [intro w; vm_compute; reflexivity|].
  intro w. eexists _, 90, 90.
  split; [vm_compute; reflexivity|].
  split; [reflexivity|]. split; [reflexivity|]. split; [reflexivity|].
  intro H. discriminate H.
Qed.

(** The counterexample to C10 as stated: the validator does not return for
    every parsed model output.  The reply [null] is extracted as [null], and
    reading its [matchId] throws; a reply whose date is the number 5 is
    extracted as such, and calling [trim] on the number throws. *)
Lemma validator_throws_on_null_or_numeric_date :
  PlayerPerformance.extractJsonFromText (u "null") = Ok JNull
  /\ fst (PlayerPerformance.validatePerformanceData (fun _ => true) JNull chance_low)
     = Throw TypeError
  /\ PlayerPerformance.extractJsonFromText (object_text [kv "date" (u "5")])
     = Ok (JObj [(u "date", JNum 5)])
  /\ fst (PlayerPerformance.validatePerformanceData (fun _ => true)
            (JObj [(u "date", JNum 5)]) chance_low)
     = Throw TypeError.
Proof. repeat split; vm_compute; reflexivity. Qed.

(* ================================================================= *)
(** * Further properties of the pipeline *)

(* ----------------------------------------------------------------- *)
(** ** More on traces and outcomes *)

Lemma requests_app a b : requests (a ++ b) = requests a ++ requests b.
Proof. unfold requests. apply flat_map_app. Qed.

Lemma bind_Throw_inv {A B} (m : M A) (f : A -> M B) w e w' :
  bind m f w = (Throw e, w') ->
  m w = (Throw e, w') \/ exists a w1, m w = (Ok a, w1) /\ f a w1 = (Throw e, w').
Proof.
  unfold bind. destruct (m w) as [[a|e0] w1]; intro H.
  - right. now exists a, w1.
  - left. injection H as -> ->. reflexivity.
Qed.

Lemma try_catch_Ok_inv {A} (m : M A) (h : exn -> M A) w a w' :
  try_catch m h w = (Ok a, w') ->
  m w = (Ok a, w') \/ exists e w1, m w = (Throw e, w1) /\ h e w1 = (Ok a, w').
Proof.
  unfold try_catch. destruct (m w) as [[a0|e] w1]; intro H.
  - left. exact H.
  - right. now exists e, w1.
Qed.

(** A computation that never throws. *)
Definition total {A} (m : M A) : Prop := forall w, exists a w', m w = (Ok a, w').

Lemma total_ret {A} (a : A) : total (ret a).
Proof. intro w. now exists a, w. Qed.

Lemma total_bind {A B} (m : M A) (f : A -> M B) :
  total m -> (forall a, total (f a)) -> total (bind m f).
Proof.
  intros Hm Hf w. destruct (Hm w) as (a & w1 & E). unfold bind. rewrite E. apply Hf.
Qed.

Lemma total_try_catch {A} (m : M A) (h : exn -> M A) :
  (forall e, total (h e)) -> total (try_catch m h).
Proof.
  intros Hh w. unfold try_catch. destruct (m w) as [[a|e] w1].
  - now exists a, w1.
  - apply Hh.
Qed.

Lemma total_log e : total (log e).
Proof. intro w. eexists _, _. reflexivity. Qed.

Lemma total_sleep ms : total (sleep ms).
Proof. intro w. eexists _, _. reflexivity. Qed.

(** An event that is a status poll. *)
Definition is_poll (fileName : jsval) (e : event) : Prop :=
  match e with
  | Fetch r => r = GetFile fileName
  | _ => True
  end.

Lemma requests_polls fileName new :
  Forall (is_poll fileName) new ->
  requests new = repeat (GetFile fileName) (length (requests new)).
Proof.
  induction 1 as [|e l He _ IH]; [reflexivity|].
  destruct e as [r| |]; cbn in *; try exact IH.
  subst r. f_equal. exact IH.
Qed.

(* ----------------------------------------------------------------- *)
(** ** The upload functions: refusals and single PUTs *)

(** The error an upload function throws when its first request is not
    answered with an upload URL. *)
Definition start_error (o : option response) : exn :=
  match o with
  | None => NetworkError
  | Some r =>
      if negb (ok r) then ErrStatus "Files API metadata request failed" (status r)
      else Err "no upload URL received"
  end.

(** The answer to the start request does not open an upload session. *)
Definition refused (o : option response) : Prop :=
  match o with
  | None => True
  | Some r => ok r = false \/ uploadUrlHeader r = None
  end.

(** X1.  When the start request of an upload is rejected by the network,
    answered with a status that is not 2xx, or answered without the
    X-Goog-Upload-URL header, both upload functions throw -- the network
    error, the status error or the missing-URL error -- and the start
    request is the only request they have made: no byte of the file is
    sent and the file status is never polled. *)
Theorem upload_stops_at_refused_start (videoFile : File) (w : World) :
  let start := StartUpload (Z.of_N (file_size videoFile)) (file_type videoFile)
                           (file_name videoFile) in
  refused (net w (fetches w)) ->
  (exists w',
      LargeVideo.uploadVideoToFilesAPI videoFile w
      = (Throw (start_error (net w (fetches w))), w')
      /\ trace w' = trace w ++ [Fetch start])
  /\ (exists w',
        PlayerPerformance.uploadVideoToFilesAPI videoFile w
        = (Throw (start_error (net w (fetches w))), w')
        /\ trace w' = trace w ++ [Fetch start]).
Proof.
  intros start H.
  unfold LargeVideo.uploadVideoToFilesAPI, PlayerPerformance.uploadVideoToFilesAPI,
    bind, fetch, start_error, throw.
  destruct (net w (fetches w)) as [r|]; cbn in H |- *.
  - destruct (ok r) eqn:Eok; cbn.
    + destruct H as [H|H]; [discriminate H|]. rewrite H.
      split; eexists; split; reflexivity.
    + split; eexists; split; reflexivity.
  - split; eexists; split; reflexivity.
Qed.

(** A server that refuses every start request with status 503. *)
Definition refusing_world : World :=
  world_of (fun _ => Some (MkResponse 503 None (u "Service Unavailable"))) (fun _ => 0%N).

Lemma upload_stops_at_refused_start_witness :
  refused (net refusing_world (fetches refusing_world))
  /\ fst (LargeVideo.uploadVideoToFilesAPI (video_of_size 1024) refusing_world)
     = Throw (ErrStatus "Files API metadata request failed" 503)
  /\ fst (PlayerPerformance.uploadVideoToFilesAPI (video_of_size 1024) refusing_world)
     = Throw (ErrStatus "Files API metadata request failed" 503).
Proof.
  assert (H : refused (net refusing_world (fetches refusing_world)))
    by (left; reflexivity).
  split; [exact H|].
  destruct (@upload_stops_at_refused_start (video_of_size 1024) refusing_world H)
    as [(w1 & E1 & _) (w2 & E2 & _)].
  rewrite E1, E2. split; reflexivity.
Defined.

Lemma large_video_poll_not_put rounds fileName st mx :
  only not_put (LargeVideo.poll rounds fileName st mx).
Proof.
  induction rounds as [|n IH]; simpl.
  - apply only_throw.
  - apply only_bind; [apply only_now|intro t].
    destruct (Qlt_bool (t - st) mx); [|apply only_throw].
    apply only_bind; [apply only_fetch; exact I|intro resp].
    destruct (negb (ok resp)); [apply only_throw|].
    apply only_bind; [apply only_json_of|intro v].
    apply only_bind; [apply only_lift|intro s].
    destruct (is_string s "ACTIVE"); [apply only_ret|].
    destruct (is_string s "FAILED"); [apply only_throw|].
    apply only_bind; [apply only_sleep; exact I|intro]. apply IH.
Qed.

(** X2.  When the start request is answered 2xx with a non-empty upload
    URL and the request after it is answered 2xx -- nothing is asked of
    any later answer -- the large-video function sends a file of any size
    in one PUT at offset 0 that carries the whole file and the command
    [upload, finalize]; the performance function does the same for every
    file of at most 50 MiB, 50 MiB included. *)
Theorem whole_file_in_one_put (videoFile : File) (url : text) (w : World) :
  let fileSize := Z.of_N (file_size videoFile) in
  accepting url 1 w ->
  (exists new,
      trace (snd (LargeVideo.uploadVideoToFilesAPI videoFile w)) = trace w ++ new
      /\ puts new = [PutBytes url fileSize 0 UploadFinalize 0 fileSize])
  /\ ((fileSize <= PlayerPerformance.MAX_CHUNK_SIZE)%Z ->
      exists new,
        trace (snd (PlayerPerformance.uploadVideoToFilesAPI videoFile w)) = trace w ++ new
        /\ puts new = [PutBytes url fileSize 0 UploadFinalize 0 fileSize]).
Proof.
  intros fileSize (Hurl0 & (resp & Hnet & Hok & Hurl) & Hput).
  destruct (Hput O ltac:(lia)) as (resp2 & Hnet2 & Hok2).
  rewrite Nat.add_0_r in Hnet2.
  destruct url as [|c url]; [congruence|].
  split.
  - unfold LargeVideo.uploadVideoToFilesAPI. fold fileSize.
    unfold bind at 1. unfold fetch at 1. rewrite Hnet, Hok, Hurl. cbn [negb].
    unfold bind at 1. unfold fetch at 1.
    cbn [clock trace fetches draws net latency random].
    rewrite Hnet2, Hok2. cbn [negb].
    assert (R : only not_put
                  (uploadResult <- json_of resp2 ;;
                   file <- lift (get uploadResult "file") ;;
                   fileName <- lift (getv file "name") ;;
                   LargeVideo.waitForFileProcessing fileName LargeVideo.defaultMaxWaitTime ;;;
                   ret file)).
    { unfold LargeVideo.waitForFileProcessing.
      only_step; try exact I; apply large_video_poll_not_put. }
    match goal with
    | |- context [snd (_ ?W)] => destruct (R W) as (new & T & F & _)
    end.
    rewrite T. cbn [trace].
    eexists (_ :: _ :: new). rewrite <- !app_assoc. split; [reflexivity|].
    cbn [app]. unfold puts. cbn [flat_map app]. f_equal. exact (puts_not_put F).
  - intro Hsmall.
    unfold PlayerPerformance.uploadVideoToFilesAPI. fold fileSize.
    unfold bind at 1. unfold fetch at 1. rewrite Hnet, Hok, Hurl. cbn [negb].
    apply Z.leb_le in Hsmall. rewrite Hsmall.
    unfold bind at 1. unfold fetch at 1.
    cbn [clock trace fetches draws net latency random].
    rewrite Hnet2, Hok2. cbn [negb].
    match goal with
    | |- context [PlayerPerformance.finish_upload resp2 ?W] =>
        destruct (finish_upload_not_put resp2 W) as (new & T & F & _)
    end.
    rewrite T. cbn [trace].
    eexists (_ :: _ :: new). rewrite <- !app_assoc. split; [reflexivity|].
    cbn [app]. unfold puts. cbn [flat_map app]. f_equal. exact (puts_not_put F).
Qed.

Lemma whole_file_in_one_put_witness :
  accepting (u "https://upload/session1") 1 session_world
  /\ (Z.of_N (file_size (video_of_size (50 * 1024 * 1024)))
      <= PlayerPerformance.MAX_CHUNK_SIZE)%Z
  /\ exists new,
       trace (snd (PlayerPerformance.uploadVideoToFilesAPI
                     (video_of_size (50 * 1024 * 1024)) session_world))
       = trace session_world ++ new
       /\ puts new = [PutBytes (u "https://upload/session1") 52428800 0 UploadFinalize
                               0 52428800].
Proof.
  assert (S : (Z.of_N (file_size (video_of_size (50 * 1024 * 1024)))
               <= PlayerPerformance.MAX_CHUNK_SIZE)%Z) by (vm_compute; discriminate).
  split; [exact (session_world_accepting 1)|]. split; [exact S|].
  exact (proj2 (@whole_file_in_one_put (video_of_size (50 * 1024 * 1024))
                  (u "https://upload/session1") session_world
                  (session_world_accepting 1)) S).
Defined.

Lemma requests_fetches l : requests (map Fetch l) = l.
Proof. induction l as [|r l IH]; [reflexivity|]. cbn. f_equal. exact IH. Qed.

Lemma upload_chunks_stop url fileSize n r :
  forall j remaining i w,
    (Z.of_nat j < n - i)%Z ->
    (j < remaining)%nat ->
    (forall k, (k < j)%nat -> exists rk, net w (fetches w + k) = Some rk /\ ok rk = true) ->
    net w (fetches w + j) = Some r ->
    ok r = false ->
    exists w',
      PlayerPerformance.upload_chunks remaining url fileSize n i w
      = (Throw (ErrStatus "chunk upload failed" (status r)), w')
      /\ trace w' = trace w ++ map Fetch (map (chunk_put url fileSize n) (zrange i (S j))).
Proof.
  induction j as [|j IH]; intros remaining i w Hj Hrem Hack Hbad Hok;
    (destruct remaining as [|remaining]; [lia|]);
    rewrite zrange_S; cbn [PlayerPerformance.upload_chunks map]; unfold chunk_put at 1.
  - rewrite Nat.add_0_r in Hbad.
    unfold bind at 1. unfold fetch at 1. rewrite Hbad, Hok. cbn [negb].
    eexists. split; [reflexivity|]. reflexivity.
  - destruct (Hack O ltac:(lia)) as (r0 & Hnet0 & Hok0).
    rewrite Nat.add_0_r in Hnet0.
    unfold bind at 1. unfold fetch at 1. rewrite Hnet0, Hok0. cbn [negb].
    destruct (i =? n - 1)%Z eqn:Elast; [apply Z.eqb_eq in Elast; lia|].
    match goal with
    | |- context [PlayerPerformance.upload_chunks remaining url fileSize n (i + 1) ?W] =>
        destruct (IH remaining (i + 1)%Z W) as (w' & E & T)
    end.
    + lia.
    + lia.
    + intros k Hk. cbn [net fetches].
      destruct (Hack (S k) ltac:(lia)) as (rk & Hnet & Hokk).
      exists rk. split; [|exact Hokk].
      rewrite <- Hnet. f_equal. lia.
    + cbn [net fetches]. rewrite <- Hbad. f_equal. lia.
    + exact Hok.
    + exists w'. split; [exact E|]. rewrite T. cbn [trace].
      rewrite <- app_assoc. reflexivity.
Qed.

(** X3.  After a start request answered 2xx with a non-empty upload URL,
    a chunk that the server answers with a status that is not 2xx ends a
    chunked upload at once: the performance function throws the
    chunk error with that status, and the requests it has made are the
    start request and the chunks up to the failed one -- no later chunk,
    no status poll; unless the failed chunk is the last one, no PUT with
    the command [upload, finalize] was sent. *)
Theorem failed_chunk_ends_upload (videoFile : File) (url : text) (w : World)
  (r0 r : response) (j : nat) :
  let fileSize := Z.of_N (file_size videoFile) in
  let n := Math_ceil (inject_Z fileSize / inject_Z PlayerPerformance.MAX_CHUNK_SIZE) in
  (PlayerPerformance.MAX_CHUNK_SIZE < fileSize)%Z ->
  net w (fetches w) = Some r0 -> ok r0 = true -> uploadUrlHeader r0 = Some url ->
  url <> [] ->
  (Z.of_nat j < n)%Z ->
  (forall k, (k < j)%nat ->
             exists rk, net w (S (fetches w) + k) = Some rk /\ ok rk = true) ->
  net w (S (fetches w) + j) = Some r -> ok r = false ->
  exists w',
    PlayerPerformance.uploadVideoToFilesAPI videoFile w
    = (Throw (ErrStatus "chunk upload failed" (status r)), w')
    /\ requests (trace w')
       = requests (trace w)
         ++ StartUpload fileSize (file_type videoFile) (file_name videoFile)
            :: map (chunk_put url fileSize n) (zrange 0 (S j))
    /\ ((Z.of_nat (S j) < n)%Z ->
        Forall (fun q => put_command q = Upload)
               (map (chunk_put url fileSize n) (zrange 0 (S j)))).
Proof.
  intros fileSize n Hbig Hnet0 Hok0 Hurl Hurl0 Hj Hack Hbad Hok.
  destruct url as [|c url]; [congruence|].
  unfold PlayerPerformance.uploadVideoToFilesAPI. fold fileSize.
  unfold bind at 1. unfold fetch at 1. rewrite Hnet0, Hok0, Hurl. cbn [negb].
  destruct (fileSize <=? PlayerPerformance.MAX_CHUNK_SIZE)%Z eqn:Esmall;
    [apply Z.leb_le in Esmall; lia|].
  fold n.
  match goal with
  | |- context [PlayerPerformance.upload_chunks _ (c :: url) fileSize n 0 ?W] =>
      destruct (@upload_chunks_stop (c :: url) fileSize n r j (Z.to_nat n) 0%Z W)
        as (w' & E & T)
  end.
  - lia.
  - lia.
  - exact Hack.
  - exact Hbad.
  - exact Hok.
  - exists w'. split; [exact E|]. split.
    + rewrite T. cbn [trace]. rewrite !requests_app, requests_fetches.
      rewrite <- app_assoc. reflexivity.
    + intro Hnotlast. apply Forall_forall. intros q Hq.
      apply in_map_iff in Hq as (i & <- & Hi).
      unfold zrange in Hi. apply in_map_iff in Hi as (k & <- & Hk).
      apply in_seq in Hk. unfold chunk_put. cbn [put_command].
      rewrite (proj2 (Z.eqb_neq _ _)); [reflexivity | lia].
Qed.

(** A server that accepts the start request and the first chunk and
    answers the second chunk with status 500. *)
Definition second_chunk_refused : World :=
  world_of (fun k => match k with
                     | 2%nat => Some (MkResponse 500 None (u "Internal Server Error"))
                     | _ => Some ready
                     end)
           (fun _ => 0%N).

Lemma failed_chunk_ends_upload_witness :
  exists w',
    PlayerPerformance.uploadVideoToFilesAPI (video_of_size (120 * 1024 * 1024))
      second_chunk_refused
    = (Throw (ErrStatus "chunk upload failed" 500), w')
    /\ requests (trace w')
       = [StartUpload 125829120 (u "video/mp4") (u "match.mp4");
          PutBytes (u "https://upload/session1") 52428800 0 Upload 0 52428800;
          PutBytes (u "https://upload/session1") 52428800 52428800 Upload
                   52428800 104857600].
Proof.
  destruct (@failed_chunk_ends_upload (video_of_size (120 * 1024 * 1024))
              (u "https://upload/session1") second_chunk_refused
              ready (MkResponse 500 None (u "Internal Server Error")) 1)
    as (w' & E & R & _).
  - vm_compute. reflexivity.
  - reflexivity.
  - reflexivity.
  - reflexivity.
  - discriminate.
  - vm_compute. reflexivity.
  - intros k Hk. exists ready. assert (k = O) by lia. subst k. split; reflexivity.
  - reflexivity.
  - reflexivity.
  - exists w'. split; [exact E|]. rewrite R. vm_compute. reflexivity.
Defined.

(* ----------------------------------------------------------------- *)
(** ** The pollers: how many status requests *)

Lemma budget_step (mx e lat d : Q) (r : nat) :
  mx - e <= 5000 * inject_Z (Z.of_nat (S r)) ->
  0 <= lat -> 5000 <= d ->
  mx - (e + lat + d) <= 5000 * inject_Z (Z.of_nat r).
Proof.
  intros H L D.
  rewrite Nat2Z.inj_succ, <- Z.add_1_r, inject_Z_plus in H.
  change (inject_Z 1) with 1 in H. lra.
Qed.

Lemma budget_positive (mx e : Q) (r : nat) :
  mx - e <= 5000 * inject_Z (Z.of_nat r) -> e < mx -> (1 <= r)%nat.
Proof.
  intros H L. destruct r as [|r]; [|lia].
  change (inject_Z (Z.of_nat 0)) with 0 in H. lra.
Qed.

(** What a poller has done when it ends: status requests only, [n] of
    them at most, and an outcome of the source. *)
Definition polled (fileName : jsval) (n : nat) (w : World) (run : result json * World)
  : Prop :=
  exists new,
    trace (snd run) = trace w ++ new
    /\ Forall (is_poll fileName) new
    /\ (length (requests new) <= n)%nat
    /\ fst run <> Throw (Err "rounds exhausted").

Lemma get_throws (v : json) (k : string) (e : exn) : get v k = Throw e -> e = TypeError.
Proof. destruct v; cbn; intro H; try discriminate H. now injection H as <-. Qed.

Ltac one_poll fileName :=
  exists [Fetch (GetFile fileName)];
  split; [reflexivity|];
  split; [constructor; [exact eq_refl|constructor]|];
  split; [cbn; lia|];
  let H := fresh in intro H; discriminate H.

Lemma large_video_poll_budget fileName st mx :
  forall r w,
    mx - (clock w - st) <= 5000 * inject_Z (Z.of_nat r) ->
    polled fileName r w (LargeVideo.poll (S r) fileName st mx w).
Proof.
  induction r as [|r IH]; intros w Hb; rewrite large_video_poll_S;
    (destruct (Qlt_bool (clock w - st) mx) eqn:E;
     [apply Qlt_bool_iff in E
     | exists []; cbn; rewrite app_nil_r;
       split; [reflexivity|]; split; [constructor|]; split; [lia|];
       intro H; discriminate H]).
  - pose proof (@budget_positive mx (clock w - st) O Hb E). lia.
  - pose proof (latency_nonneg (latency w (fetches w))) as L.
    unfold bind at 1. unfold fetch at 1.
    destruct (net w (fetches w)) as [resp|]; [|one_poll fileName].
    destruct (ok resp); cbn [negb]; [|one_poll fileName].
    unfold bind at 1. unfold json_of.
    destruct (JSON.parse (body resp)) as [v|]; [|one_poll fileName].
    unfold ret at 1. unfold bind at 1. unfold lift at 1.
    destruct (get v "state") as [s|e] eqn:G;
      [|apply get_throws in G; subst e; one_poll fileName].
    destruct (is_string s "ACTIVE"); [one_poll fileName|].
    destruct (is_string s "FAILED"); [one_poll fileName|].
    unfold bind at 1. unfold sleep at 1.
    cbn [clock trace fetches draws net latency random].
    match goal with
    | |- context [LargeVideo.poll (S r) fileName st mx ?W] =>
        destruct (IH W) as (new & T & F & N & X)
    end.
    { cbn [clock].
      pose proof (@budget_step mx (clock w - st)
                    (inject_Z (Z.of_N (latency w (fetches w)))) 5000 r Hb L
                    ltac:(lra)) as B.
      lra. }
    cbn [trace] in T.
    exists (Fetch (GetFile fileName) :: Sleep 5000 :: new).
    split; [rewrite T, <- !app_assoc; reflexivity|].
    split; [constructor; [exact eq_refl|constructor; [exact I|exact F]]|].
    split; [|exact X].
    change (Fetch (GetFile fileName) :: Sleep 5000 :: new)
      with ([Fetch (GetFile fileName); Sleep 5000] ++ new).
    rewrite requests_app, length_app. cbn [requests flat_map length app]. lia.
Qed.

(** One round of the performance poller: one status request, and a sleep
    of the current interval at least when the round does not return. *)
Lemma poll_round_shape fileName ci w :
  exists o w' new,
    PlayerPerformance.poll_round fileName ci w = (Ok o, w')
    /\ trace w' = trace w ++ new
    /\ Forall (is_poll fileName) new
    /\ length (requests new) = 1%nat
    /\ match o with
       | PlayerPerformance.Return _ => True
       | PlayerPerformance.Continue ci' =>
           clock w + ci <= clock w' /\ (ci' = ci \/ ci' = grow ci)
       end.
Proof.
  unfold PlayerPerformance.poll_round, try_catch, bind, fetch, throw, ret, lift,
    sleep, log, json_of.
  pose proof (latency_nonneg (latency w (fetches w))) as L.
  assert (P : is_poll fileName (Fetch (GetFile fileName))) by exact eq_refl.
  destruct (net w (fetches w)) as [resp|]; cbn.
  2:{ eexists _, _, _. split; [reflexivity|]. cbn [trace]. rewrite <- !app_assoc.
      split; [reflexivity|]. split; [repeat constructor|]. split; [reflexivity|].
      cbn. split; [lra|auto]. }
  destruct (ok resp); cbn.
  2:{ eexists _, _, _. split; [reflexivity|]. cbn [trace]. rewrite <- !app_assoc.
      split; [reflexivity|]. split; [repeat constructor|]. split; [reflexivity|].
      cbn. split; [lra|auto]. }
  destruct (JSON.parse (body resp)) as [v|]; cbn.
  2:{ eexists _, _, _. split; [reflexivity|]. cbn [trace]. rewrite <- !app_assoc.
      split; [reflexivity|]. split; [repeat constructor|]. split; [reflexivity|].
      cbn. split; [lra|auto]. }
  destruct (get v "state") as [s|e]; cbn.
  2:{ eexists _, _, _. split; [reflexivity|]. cbn [trace]. rewrite <- !app_assoc.
      split; [reflexivity|]. split; [repeat constructor|]. split; [reflexivity|].
      cbn. split; [lra|auto]. }
  destruct (is_string s "ACTIVE"); cbn.
  { eexists _, _, _. split; [reflexivity|]. cbn [trace].
    split; [reflexivity|]. split; [repeat constructor|]. split; [reflexivity|].
    exact I. }
  destruct (is_string s "FAILED"); cbn.
  { eexists _, _, _. split; [reflexivity|]. cbn [trace]. rewrite <- !app_assoc.
    split; [reflexivity|]. split; [repeat constructor|]. split; [reflexivity|].
    cbn. split; [lra|auto]. }
  eexists _, _, _. split; [reflexivity|]. cbn [trace]. rewrite <- !app_assoc.
  split; [reflexivity|]. split; [repeat constructor|]. split; [reflexivity|].
  cbn. split; [lra|right; reflexivity].
Qed.

Lemma performance_poll_budget fileName st mx :
  forall r ci w,
    5000 <= ci ->
    mx - (clock w - st) <= 5000 * inject_Z (Z.of_nat r) ->
    polled fileName r w (PlayerPerformance.poll (S r) fileName st mx ci w).
Proof.
  induction r as [|r IH]; intros ci w Hci Hb; rewrite poll_S;
    (destruct (Qlt_bool (clock w - st) mx) eqn:E;
     [apply Qlt_bool_iff in E
     | exists []; cbn; rewrite app_nil_r;
       split; [reflexivity|]; split; [constructor|]; split; [lia|];
       intro H; discriminate H]).
  - pose proof (@budget_positive mx (clock w - st) O Hb E). lia.
  - destruct (poll_round_shape fileName ci w) as (o & w1 & new1 & -> & T1 & F1 & N1 & H).
    destruct o as [v|ci'].
    + exists new1. cbn. split; [exact T1|]. split; [exact F1|]. split; [lia|].
      intro X; discriminate X.
    + destruct H as [Hclock Hci'].
      destruct (IH ci' w1) as (new & T & F & N & X).
      * destruct Hci' as [->| ->]; [exact Hci | now apply grow_ge].
      * rewrite Nat2Z.inj_succ, <- Z.add_1_r, inject_Z_plus in Hb.
        change (inject_Z 1) with 1 in Hb. lra.
      * exists (new1 ++ new). split; [rewrite T, T1, app_assoc; reflexivity|].
        split; [now apply Forall_app|]. split; [|exact X].
        rewrite requests_app, length_app. lia.
Qed.

(** X4.  Both pollers stay within their time budget: with a budget of
    [maxWaitTime] milliseconds a poller makes at most
    [ceil(maxWaitTime / 5000)] status requests (none for a budget of zero
    or less) and no other request, whatever the server answers and however
    long the answers take, and then it has ended: with the file status or
    with an error of the source. *)
Theorem pollers_stay_within_budget (fileName : jsval) (maxWaitTime : Q) (w : World) :
  let budget := Z.to_nat (Qceiling (maxWaitTime / 5000)) in
  (exists new,
      trace (snd (LargeVideo.waitForFileProcessing fileName maxWaitTime w))
      = trace w ++ new
      /\ requests new = repeat (GetFile fileName) (length (requests new))
      /\ (length (requests new) <= budget)%nat
      /\ fst (LargeVideo.waitForFileProcessing fileName maxWaitTime w)
         <> Throw (Err "rounds exhausted"))
  /\ (exists new,
        trace (snd (PlayerPerformance.waitForFileProcessing fileName maxWaitTime w))
        = trace w ++ new
        /\ requests new = repeat (GetFile fileName) (length (requests new))
        /\ (length (requests new) <= budget)%nat
        /\ fst (PlayerPerformance.waitForFileProcessing fileName maxWaitTime w)
           <> Throw (Err "rounds exhausted")).
Proof.
  intro budget.
  assert (B : maxWaitTime - (clock w - clock w) <= 5000 * inject_Z (Z.of_nat budget)).
  { pose proof (rounds_budget maxWaitTime). unfold budget. lra. }
  split.
  - unfold LargeVideo.waitForFileProcessing, LargeVideo.rounds_for.
    unfold bind, now. fold budget.
    destruct (@large_video_poll_budget fileName (clock w) maxWaitTime budget w B)
      as (new & T & F & N & X).
    exists new. split; [exact T|]. split; [now apply requests_polls|]. now split.
  - unfold PlayerPerformance.waitForFileProcessing, PlayerPerformance.rounds_for.
    unfold bind, now. fold budget.
    destruct (@performance_poll_budget fileName (clock w) maxWaitTime budget 5000 w
                ltac:(lra) B)
      as (new & T & F & N & X).
    exists new. split; [exact T|]. split; [now apply requests_polls|]. now split.
Qed.

(* ----------------------------------------------------------------- *)
(** ** The video analysis of the server: any world *)

(** An analysis that the loop of [analyzeVideoWithFilesAPI] hands on: an
    object whose [players] is an array with an element at least. *)
Definition usable (a : json) : Prop :=
  exists m p l, a = JObj m /\ lookup (u "players") m = Some (JArr (p :: l)).

Lemma read_analysis_usable geminiResult a :
  LargeVideo.read_analysis geminiResult = Ok a -> usable a.
Proof.
  unfold LargeVideo.read_analysis.
  repeat match goal with
         | |- context [match ?x with _ => _ end] => destruct x eqn:?; try discriminate
         | |- context [if ?x then _ else _] => destruct x eqn:?; try discriminate
         end.
  intro H. injection H as <-.
  match goal with
  | Hg : get ?v "players" = Ok ?ps, Ha : LargeVideo.as_array ?ps = Some (_ :: _) |- _ =>
      destruct ps as [[]|]; cbn in Ha; try discriminate Ha; injection Ha as ->;
      destruct v; cbn in Hg; try discriminate Hg; injection Hg as Hg
  end.
  eexists _, _, _. split; [reflexivity|eassumption].
Qed.

Lemma fallbackResult_usable : usable LargeVideo.fallbackResult.
Proof. eexists _, _, _. split; reflexivity. Qed.

(** One attempt makes one request, whatever comes of it. *)
Lemma video_attempt_shape fileUri mimeType w :
  exists o,
    LargeVideo.attempt fileUri mimeType w
    = (o,
       MkWorld (clock w + inject_Z (Z.of_N (latency w (fetches w))))
               (trace w ++ [Fetch (GenerateContent
                                     (js_or mimeType (Some (JStr (u "video/mp4")))) fileUri)])
               (S (fetches w)) (draws w) (net w) (latency w) (random w))
    /\ forall a, o = Ok a -> usable a.
Proof.
  unfold LargeVideo.attempt, bind, fetch.
  destruct (net w (fetches w)) as [r|];
    [|eexists; split; [reflexivity|intros a H; discriminate H]].
  destruct (ok r); cbn [negb];
    [|eexists; split; [reflexivity|intros a H; discriminate H]].
  unfold json_of.
  destruct (JSON.parse (body r)) as [v|];
    [|eexists; split; [reflexivity|intros a H; discriminate H]].
  unfold ret, lift. eexists; split; [reflexivity|].
  intros a H. now apply read_analysis_usable in H.
Qed.

Definition retry_delay (attempt : nat) : Q := 2000 * inject_Z (Z.of_nat attempt).

Lemma video_attempts_shape fileUri mimeType :
  forall remaining w,
    (remaining <= 3)%nat ->
    exists r w' new n,
      LargeVideo.attempts_loop remaining fileUri mimeType w = (Ok r, w')
      /\ trace w' = trace w ++ new
      /\ requests new
         = repeat (GenerateContent (js_or mimeType (Some (JStr (u "video/mp4")))) fileUri) n
      /\ (n <= remaining)%nat
      /\ sleeps new = map retry_delay (seq (4 - remaining) (n - 1))
      /\ ((1 <= remaining)%nat -> (1 <= n)%nat /\ exists a, r = Some a /\ usable a).
Proof.
  induction remaining as [|remaining IH]; intros w Hrem.
  - exists None, w, [], O. cbn. rewrite app_nil_r. repeat split; lia.
  - cbn [LargeVideo.attempts_loop].
    destruct (video_attempt_shape fileUri mimeType w) as (o & E & Hgood).
    unfold bind at 1. unfold try_catch. unfold bind at 1. rewrite E.
    destruct o as [a|e].
    + cbv [ret]. eexists _, _, [_], 1%nat.
      split; [reflexivity|]. cbn [trace]. split; [reflexivity|].
      split; [reflexivity|]. split; [lia|]. split; [reflexivity|].
      intros _. split; [lia|]. exists a. split; [reflexivity|]. now apply Hgood.
    + unfold LargeVideo.maxAttempts.
      destruct (Nat.eqb_spec (3 - remaining) 3) as [Hlast|Hmore].
      * cbv [bind log ret]. cbn [trace clock fetches draws net latency random].
        eexists _, _, [_; _], 1%nat.
        split; [reflexivity|]. cbn [trace]. rewrite <- app_assoc.
        split; [reflexivity|]. split; [reflexivity|]. split; [lia|].
        split; [reflexivity|].
        intros _. split; [lia|]. eexists. split; [reflexivity|].
        exact fallbackResult_usable.
      * cbv [bind log sleep ret].
        cbn [trace clock fetches draws net latency random].
        match goal with
        | |- context [LargeVideo.attempts_loop remaining fileUri mimeType ?W] =>
            destruct (IH W ltac:(lia)) as (r & w' & new & n & R & T & Rq & N & Sl & G)
        end.
        destruct (G ltac:(lia)) as (Hn & a & -> & Ha).
        cbn [trace] in T.
        eexists (Some a), w', (_ :: _ :: _ :: new), (S n). split; [exact R|].
        split; [rewrite T, <- !app_assoc; reflexivity|].
        split.
        { change (requests (?a :: ?b :: ?c :: new))
            with (GenerateContent (js_or mimeType (Some (JStr (u "video/mp4")))) fileUri
                    :: requests new).
          rewrite Rq. reflexivity. }
        split; [lia|]. split.
        { change (sleeps (?a :: ?b :: Sleep ?c :: new)) with (c :: sleeps new).
          rewrite Sl.
          replace (4 - S remaining)%nat with (3 - remaining)%nat by lia.
          replace (S n - 1)%nat with (S (n - 1)) by lia.
          replace (4 - remaining)%nat with (S (3 - remaining)) by lia.
          reflexivity. }
        intros _. split; [lia|]. exists a. now split.
Qed.

(** A computation that leaves the trace as it is, whatever its outcome. *)
Definition silent {A} (m : M A) : Prop := only (fun _ => False) m.

Lemma silent_trace {A} (m : M A) w : silent m -> trace (snd (m w)) = trace w.
Proof.
  intro H. destruct (H w) as (new & T & F & _).
  destruct new as [|e new]; [now rewrite app_nil_r in T|].
  inversion F; contradiction.
Qed.

Lemma silent_tabulate_M {A} (f : nat -> M A) :
  (forall i, silent (f i)) -> forall n i, silent (tabulate_M f n i).
Proof.
  intro Hf. induction n as [|n IH]; intro i; cbn [tabulate_M].
  - apply only_ret.
  - apply only_bind; [apply Hf|intro].
    apply only_bind; [apply IH | intro; apply only_ret].
Qed.

Lemma silent_mapi_M {A B} (f : A -> nat -> M B) :
  (forall a i, silent (f a i)) -> forall l i, silent (mapi_M f l i).
Proof.
  intro Hf. induction l as [|a l IH]; intro i; cbn [mapi_M].
  - apply only_ret.
  - apply only_bind; [apply Hf|intro].
    apply only_bind; [apply IH | intro; apply only_ret].
Qed.

Lemma silent_video_processPlayer teamColors_ player index :
  silent (LargeVideo.processPlayer teamColors_ player index).
Proof.
  unfold LargeVideo.processPlayer, silent.
  do 8 (apply only_bind; [apply only_lift|intro]).
  apply only_bind; [|intro; apply only_ret].
  apply silent_tabulate_M. intro i. unfold LargeVideo.position, silent.
  do 2 (apply only_bind; [apply only_random|intro]). apply only_ret.
Qed.

(** X5.  In any world [analyzeVideoWithFilesAPI] makes between one and
    three requests, all of them the same inference request, and between
    two requests it sleeps 2000 ms times the number of the attempt that
    failed: nothing for one request, 2000 ms for two, 2000 ms and 4000 ms
    for three.  It does not sleep after its last attempt. *)
Theorem video_analysis_attempts (fileUri mimeType : jsval) (w : World) :
  exists new n,
    trace (snd (LargeVideo.analyzeVideoWithFilesAPI fileUri mimeType w)) = trace w ++ new
    /\ requests new
       = repeat (GenerateContent (js_or mimeType (Some (JStr (u "video/mp4")))) fileUri) n
    /\ (1 <= n <= LargeVideo.maxAttempts)%nat
    /\ sleeps new = map retry_delay (seq 1 (n - 1)).
Proof.
  unfold LargeVideo.analyzeVideoWithFilesAPI, LargeVideo.maxAttempts.
  destruct (@video_attempts_shape fileUri mimeType 3 w ltac:(lia))
    as (r & w' & new & n & R & T & Rq & N & Sl & G).
  destruct (G ltac:(lia)) as (Hn & a & -> & (m & p & l & -> & Hp)).
  exists new, n.
  unfold bind at 1. rewrite R.
  unfold bind at 1. unfold lift at 1. cbn [getv get]. rewrite Hp.
  unfold bind at 1. unfold lift at 1.
  rewrite (@silent_trace _ _ w'), T.
  - split; [reflexivity|]. split; [exact Rq|]. split; [lia|exact Sl].
  - unfold silent. apply only_bind; [|intro; apply only_ret].
    apply silent_mapi_M. intros. apply silent_video_processPlayer.
Qed.

(** A coordinate of a movement position that is not off the pitch: it is
    not below 5 and not above 95. *)
Definition on_pitch (o : option Q) : Prop :=
  match o with
  | Some q => 5 <= q /\ q <= 95
  | None => True
  end.

(** What [analyzeVideoWithFilesAPI] guarantees for a player it returns. *)
Definition well_placed (p : LargeVideo.Player) : Prop :=
  (0 <= LargeVideo.x p /\ LargeVideo.x p <= 100)
  /\ (0 <= LargeVideo.y p /\ LargeVideo.y p <= 100)
  /\ (0 <= LargeVideo.confidence p /\ LargeVideo.confidence p <= 1)
  /\ LargeVideo.timestamps (LargeVideo.movementPattern p) = [5; 10; 15; 20; 25; 30; 35]
  /\ length (LargeVideo.positions (LargeVideo.movementPattern p)) = 7%nat
  /\ Forall (fun pos => on_pitch (LargeVideo.pos_x pos) /\ on_pitch (LargeVideo.pos_y pos))
            (LargeVideo.positions (LargeVideo.movementPattern p)).

Lemma on_pitch_clamp (o : option Q) : on_pitch (option_map (clamp 5 95) o).
Proof.
  destruct o as [q|]; [|exact I]. cbn. apply clamp_bounds. discriminate.
Qed.

Lemma tabulate_positions px py :
  forall n i w ps w',
    tabulate_M (LargeVideo.position px py) n i w = (Ok ps, w') ->
    length ps = n
    /\ Forall (fun pos => on_pitch (LargeVideo.pos_x pos) /\ on_pitch (LargeVideo.pos_y pos))
              ps.
Proof.
  induction n as [|n IH]; intros i w ps w' H; cbn [tabulate_M] in H.
  - invert_run. split; [reflexivity|constructor].
  - invert_run.
    match goal with
    | Hp : LargeVideo.position _ _ _ _ = (Ok _, _) |- _ =>
        unfold LargeVideo.position in Hp; invert_run
    end.
    match goal with
    | Ht : tabulate_M _ _ _ _ = (Ok _, _) |- _ => apply IH in Ht as [L F]
    end.
    split; [cbn; now rewrite L|].
    constructor; [|exact F]. cbn [LargeVideo.pos_x LargeVideo.pos_y].
    split; apply on_pitch_clamp.
Qed.

Lemma number_or_default_range (o : jsval) (hi d : Q) :
  0 <= d -> d <= hi ->
  let r := match o with Some (JNum v) => clamp 0 hi v | _ => d end in
  0 <= r /\ r <= hi.
Proof.
  intros H0 H1. destruct o as [[]|]; cbn; try (split; assumption).
  apply clamp_bounds. lra.
Qed.

(** An outcome that is a value with the property [P] or a [TypeError]. *)
Definition value_or_TypeError {A} (P : A -> Prop) (o : result A) : Prop :=
  match o with
  | Ok a => P a
  | Throw e => e = TypeError
  end.

(** The callback of the map: a [null] element throws, any other element
    gives a well placed player. *)
Lemma video_processPlayer_outcome teamColors_ player index w :
  exists o w',
    LargeVideo.processPlayer teamColors_ player index w = (o, w')
    /\ value_or_TypeError well_placed o.
Proof.
  destruct player as [| b | q | s | l | m];
    [exists (Throw TypeError), w; split; reflexivity | | | | |].
  all: match goal with
       | |- context [LargeVideo.processPlayer _ ?v _ _] =>
           assert (Q : quiet (LargeVideo.processPlayer teamColors_ v index))
       end.
  all: try (unfold LargeVideo.processPlayer;
            do 8 (apply quiet_bind; [apply quiet_lift_get_any; discriminate|intro]);
            (apply quiet_bind; [|intro; apply quiet_ret]);
            apply quiet_tabulate_M; intro i; unfold LargeVideo.position;
            do 2 (apply quiet_bind; [apply quiet_random|intro]); apply quiet_ret).
  all: destruct (Q w) as (p & w' & E & _); exists (Ok p), w'; (split; [exact E|]).
  all: pose proof (video_processPlayer_core _ _ _ _ E) as C.
  all: revert E; unfold LargeVideo.processPlayer; intro E; invert_run.
  all: match goal with
       | Ht : tabulate_M _ _ _ _ = (Ok _, _) |- _ =>
           apply tabulate_positions in Ht as [L F]
       end.
  all: unfold video_core, video_core_of in C;
    cbn [LargeVideo.x LargeVideo.y LargeVideo.confidence LargeVideo.id LargeVideo.jersey
         LargeVideo.team LargeVideo.teamColor LargeVideo.timestamp] in C.
  all: unfold value_or_TypeError, well_placed;
    cbn [LargeVideo.x LargeVideo.y LargeVideo.confidence LargeVideo.movementPattern
         LargeVideo.timestamps LargeVideo.positions].
  all: repeat split; try assumption; try reflexivity;
    try (apply number_or_default_range; lra).
Qed.

Lemma mapi_M_outcome {A B} (f : A -> nat -> M B) (P : B -> Prop) :
  (forall a i w, exists o w', f a i w = (o, w') /\ value_or_TypeError P o) ->
  forall l i w,
    exists o w',
      mapi_M f l i w = (o, w')
      /\ value_or_TypeError (fun bs => Forall P bs /\ length bs = length l) o.
Proof.
  intro Hf. induction l as [|a l IH]; intros i w; cbn [mapi_M].
  - exists (Ok []), w. repeat split. constructor.
  - unfold bind at 1.
    destruct (Hf a i w) as (o & w1 & -> & Ho).
    destruct o as [b|e]; [|exists (Throw e), w1; now split].
    unfold bind at 1.
    destruct (IH (S i) w1) as (o & w2 & -> & Ho').
    destruct o as [bs|e]; [|exists (Throw e), w2; now split].
    destruct Ho' as [Hbs L].
    exists (Ok (b :: bs)), w2. split; [reflexivity|].
    split; [now constructor | cbn; now rewrite L].
Qed.

(** How the video analysis ends. *)
Lemma video_analysis_result (fileUri mimeType : jsval) (w : World) :
  (exists r w',
      LargeVideo.analyzeVideoWithFilesAPI fileUri mimeType w = (Ok r, w')
      /\ LargeVideo.players r <> []
      /\ Forall well_placed (LargeVideo.players r)
      /\ truthy (LargeVideo.teamColors r) = true)
  \/ (exists w',
        LargeVideo.analyzeVideoWithFilesAPI fileUri mimeType w = (Throw TypeError, w')).
Proof.
  destruct (LargeVideo.analyzeVideoWithFilesAPI fileUri mimeType w) as [o wf] eqn:E.
  revert E.
  unfold LargeVideo.analyzeVideoWithFilesAPI, LargeVideo.maxAttempts.
  destruct (@video_attempts_shape fileUri mimeType 3 w ltac:(lia))
    as (r & w' & new & n & R & _ & _ & _ & _ & G).
  destruct (G ltac:(lia)) as (_ & a & -> & (m & p & l & -> & Hp)).
  unfold bind at 1. rewrite R.
  unfold bind at 1. unfold lift at 1. cbn [getv get]. rewrite Hp.
  unfold bind at 1. unfold lift at 1.
  unfold bind at 1.
  destruct (@mapi_M_outcome _ _
              (LargeVideo.processPlayer (lookup (u "teamColors") m)) well_placed
              (fun a i w => video_processPlayer_outcome _ a i w) (p :: l) O w')
    as (o' & w2 & -> & Ho).
  destruct o' as [ps|e]; cbn in Ho.
  - destruct Ho as [F L]. unfold ret. intro E. injection E as <- <-.
    left. eexists _, _. split; [reflexivity|].
    cbn [LargeVideo.players LargeVideo.teamColors].
    split; [destruct ps; [discriminate L|discriminate]|].
    split; [exact F|].
    unfold js_or.
    destruct (truthy (lookup (u "teamColors") m)) eqn:T; [exact T|reflexivity].
  - subst e. intro E. injection E as <- <-. right. now eexists.
Qed.

(** X6.  Whatever the network and the model answer, the video analysis
    of the server ends in one of two ways.  It returns at least one
    player, every player with [x] and [y] in [0, 100], a confidence in
    [0, 1], the seven timestamps 5, 10, ..., 35 and seven movement
    positions none of which lies below 5 or above 95 in either coordinate,
    together with team colours that are never missing; or it throws a
    [TypeError].  No network error, status error or parse error of an
    attempt leaves the function. *)
Theorem video_analysis_outcome (fileUri mimeType : jsval) (w : World) :
  (exists r w',
      LargeVideo.analyzeVideoWithFilesAPI fileUri mimeType w = (Ok r, w')
      /\ LargeVideo.players r <> []
      /\ Forall well_placed (LargeVideo.players r)
      /\ truthy (LargeVideo.teamColors r) = true)
  \/ (exists w',
        LargeVideo.analyzeVideoWithFilesAPI fileUri mimeType w = (Throw TypeError, w')).
Proof. exact (video_analysis_result fileUri mimeType w). Qed.

(* ----------------------------------------------------------------- *)
(** ** The performance analysis of the server *)

(** An event that is a line on the console. *)
Definition is_log (e : event) : Prop :=
  match e with
  | ConsoleError _ => True
  | _ => False
  end.

Lemma logs_no_request new : Forall is_log new -> requests new = [] /\ sleeps new = [].
Proof.
  induction 1 as [|e l He _ [IH1 IH2]]; [split; reflexivity|].
  destruct e; try contradiction. cbn. now split.
Qed.

Lemma only_validatePerformanceData Q date_parses v :
  only Q (PlayerPerformance.validatePerformanceData date_parses v).
Proof.
  unfold PlayerPerformance.validatePerformanceData.
  apply only_bind; [apply only_lift|intro].
  apply only_bind; [apply only_now|intro].
  do 2 (apply only_bind; [apply only_lift|intro]).
  apply only_bind; [apply only_now|intro].
  do 10 (apply only_bind; [apply only_lift|intro]).
  apply only_ret.
Qed.

Section PerformanceAnalysis.

Variable date_parses : text -> bool.
Variables fileUri mimeType : jsval.

Let request_ : request :=
  GenerateContent (js_or mimeType (Some (JStr (u "video/mp4")))) fileUri.

(** What follows the request in an attempt. *)
Definition after_response (geminiResponse : response)
  : M PlayerPerformanceFunction.outcome :=
  if negb (ok geminiResponse)
  then ret (PlayerPerformanceFunction.Again
              (ErrStatus "Google AI service error" (status geminiResponse)))
  else
    geminiResult <- json_of geminiResponse ;;
    candidates <- lift (get geminiResult "candidates") ;;
    if negb (truthy candidates)
    then ret (PlayerPerformanceFunction.Again
                (Err "Google AI returned no valid analysis result"))
    else
      candidate0 <- lift (get0 candidates) ;;
      if negb (truthy candidate0)
      then ret (PlayerPerformanceFunction.Again
                  (Err "Google AI returned no valid analysis result"))
      else
        content <- lift (getv candidate0 "content") ;;
        if negb (truthy content)
        then ret (PlayerPerformanceFunction.Again
                    (Err "Google AI returned no valid analysis result"))
        else
          parts <- lift (getv content "parts") ;;
          part0 <- lift (get0 parts) ;;
          responseText <- lift (getv part0 "text") ;;
          match responseText with
          | None | Some JNull => throw TypeError
          | Some (JStr t) =>
              match PlayerPerformance.extractJsonFromText t with
              | Throw extractError =>
                  log (ConsoleError extractError) ;;;
                  ret (PlayerPerformanceFunction.Again extractError)
              | Ok performanceData =>
                  validatedData <-
                    PlayerPerformance.validatePerformanceData date_parses performanceData ;;
                  ret (PlayerPerformanceFunction.Done validatedData)
              end
          | Some _ =>
              log (ConsoleError TypeError) ;;;
              ret (PlayerPerformanceFunction.Again TypeError)
          end.

Lemma attempt_unfold :
  PlayerPerformanceFunction.attempt date_parses fileUri mimeType
  = bind (fetch request_) after_response.
Proof. reflexivity. Qed.

Lemma after_response_logs r : only is_log (after_response r).
Proof.
  unfold after_response.
  destruct (negb (ok r)); [apply only_ret|].
  apply only_bind; [apply only_json_of|intro].
  apply only_bind; [apply only_lift|intro].
  match goal with |- only _ (if ?c then _ else _) => destruct c end; [apply only_ret|].
  apply only_bind; [apply only_lift|intro].
  match goal with |- only _ (if ?c then _ else _) => destruct c end; [apply only_ret|].
  apply only_bind; [apply only_lift|intro].
  match goal with |- only _ (if ?c then _ else _) => destruct c end; [apply only_ret|].
  do 3 (apply only_bind; [apply only_lift|intro]).
  match goal with |- only _ (match ?x with _ => _ end) => destruct x as [[]|] end;
    try apply only_throw;
    try (apply only_bind; [apply only_log; exact I|intro; apply only_ret]).
  match goal with |- only _ (match ?x with _ => _ end) => destruct x end.
  - apply only_bind; [apply only_validatePerformanceData|intro; apply only_ret].
  - apply only_bind; [apply only_log; exact I|intro; apply only_ret].
Qed.

Lemma after_response_done r w d w' :
  after_response r w = (Ok (PlayerPerformanceFunction.Done d), w') -> in_bounds d.
Proof.
  unfold after_response.
  repeat match goal with
         | |- (if ?c then _ else _) _ = _ -> _ => destruct c
         | |- ret (PlayerPerformanceFunction.Again _) _ = _ -> _ =>
             let H := fresh in intro H; discriminate H
         | |- bind _ _ _ = (Ok _, _) -> _ =>
             let H := fresh in
             intro H; apply bind_Ok_inv in H; destruct H as (? & ? & _ & H); revert H
         end.
  match goal with |- (match ?x with _ => _ end) _ = _ -> _ => destruct x as [[]|] end;
    try (intro H; discriminate H);
    try (intro H; apply bind_Ok_inv in H; destruct H as (? & ? & _ & H); discriminate H).
  match goal with |- (match ?x with _ => _ end) _ = _ -> _ => destruct x end.
  - intro H. apply bind_Ok_inv in H. destruct H as (d' & w1 & V & H).
    injection H as <- _. now apply validated_in_bounds in V.
  - intro H. apply bind_Ok_inv in H. destruct H as (? & ? & _ & H). discriminate H.
Qed.

(** One round of the retry loop: the attempt and the [catch] of the loop. *)
Definition round_ (attempt_ : nat) : M PlayerPerformanceFunction.outcome :=
  try_catch
    (PlayerPerformanceFunction.attempt date_parses fileUri mimeType)
    (fun error =>
       log (ConsoleError error) ;;;
       (if (attempt_ <? PlayerPerformanceFunction.maxRetries)%nat
        then sleep (retry_delay attempt_)
        else ret tt) ;;;
       ret (PlayerPerformanceFunction.Again error)).

Lemma round_shape attempt_ w :
  exists o w' new (slept : bool),
    round_ attempt_ w = (Ok o, w')
    /\ trace w' = trace w ++ new
    /\ requests new = [request_]
    /\ sleeps new = (if slept && (attempt_ <? 3)%nat then [retry_delay attempt_] else [])
    /\ (forall d, o = PlayerPerformanceFunction.Done d -> in_bounds d /\ slept = false).
Proof.
  unfold round_, try_catch. rewrite attempt_unfold.
  unfold bind at 1. unfold fetch at 1.
  set (w1 := MkWorld (clock w + inject_Z (Z.of_N (latency w (fetches w))))
                     (trace w ++ [Fetch request_]) (S (fetches w)) (draws w)
                     (net w) (latency w) (random w)).
  assert (H1 : forall logs, Forall is_log logs ->
                 requests ([Fetch request_] ++ logs) = [request_]
                 /\ sleeps ([Fetch request_] ++ logs) = []).
  { intros logs F. apply logs_no_request in F as [R S].
    rewrite requests_app, sleeps_app, R, S. split; reflexivity. }
  assert (Hcatch : forall e w2 logs,
             trace w2 = trace w1 ++ logs -> Forall is_log logs ->
             exists o w' new (slept : bool),
               (log (ConsoleError e) ;;;
                (if (attempt_ <? PlayerPerformanceFunction.maxRetries)%nat
                 then sleep (retry_delay attempt_) else ret tt) ;;;
                ret (PlayerPerformanceFunction.Again e)) w2 = (Ok o, w')
               /\ trace w' = trace w ++ new
               /\ requests new = [request_]
               /\ sleeps new
                  = (if slept && (attempt_ <? 3)%nat then [retry_delay attempt_] else [])
               /\ (forall d, o = PlayerPerformanceFunction.Done d ->
                              in_bounds d /\ slept = false)).
  { intros e w2 logs T F. destruct (H1 logs F) as [R S].
    unfold PlayerPerformanceFunction.maxRetries.
    destruct (attempt_ <? 3)%nat eqn:Elast.
    - eexists _, _, (([Fetch request_] ++ logs) ++ [ConsoleError e; Sleep _]), true.
      split; [reflexivity|]. cbn [trace]. rewrite T. unfold w1. cbn [trace].
      split; [now rewrite <- !app_assoc|].
      rewrite requests_app, sleeps_app, R, S. cbn.
      split; [reflexivity|]. split; [reflexivity|]. intros d H; discriminate H.
    - eexists _, _, (([Fetch request_] ++ logs) ++ [ConsoleError e]), true.
      split; [reflexivity|]. cbn [trace]. rewrite T. unfold w1. cbn [trace].
      split; [now rewrite <- !app_assoc|].
      rewrite requests_app, sleeps_app, R, S. cbn.
      split; [reflexivity|]. split; [reflexivity|]. intros d H; discriminate H. }
  destruct (net w (fetches w)) as [r|].
  2:{ apply (Hcatch NetworkError w1 []); [now rewrite app_nil_r|constructor]. }
  destruct (after_response_logs r w1) as (logs & T & F & _).
  destruct (after_response r w1) as [[o|e] w2] eqn:E; cbn [snd] in T.
  - destruct (H1 logs F) as [R S].
    exists o, w2, ([Fetch request_] ++ logs), false.
    split; [reflexivity|]. rewrite T. unfold w1. cbn [trace].
    split; [now rewrite <- !app_assoc|]. split; [exact R|]. split; [exact S|].
    intros d ->. split; [now apply after_response_done in E|reflexivity].
  - now apply (Hcatch e w2 logs).
Qed.

Lemma loop_S remaining lastError w :
  PlayerPerformanceFunction.attempts_loop date_parses (S remaining) fileUri mimeType
    lastError w
  = match round_ (3 - remaining) w with
    | (Ok (PlayerPerformanceFunction.Done d), w') => (Ok d, w')
    | (Ok (PlayerPerformanceFunction.Again e), w') =>
        PlayerPerformanceFunction.attempts_loop date_parses remaining fileUri mimeType
          (Some e) w'
    | (Throw e, w') => (Throw e, w')
    end.
Proof.
  cbn [PlayerPerformanceFunction.attempts_loop]. unfold bind at 1.
  change (try_catch _ _ w) with (round_ (3 - remaining) w).
  destruct (round_ (3 - remaining) w) as [[[d|e]|e] w']; reflexivity.
Qed.

Lemma filter_seq_above (keep keep' : nat -> bool) a n :
  (forall k, (a < k)%nat -> keep k = keep' k) ->
  filter keep (seq (S a) n) = filter keep' (seq (S a) n).
Proof.
  intro H. apply filter_ext_in. intros k Hk. apply in_seq in Hk. apply H. lia.
Qed.

Lemma loop_shape :
  forall remaining lastError w,
    (remaining <= 3)%nat ->
    exists o w' new n (keep : nat -> bool),
      PlayerPerformanceFunction.attempts_loop date_parses remaining fileUri mimeType
        lastError w = (o, w')
      /\ trace w' = trace w ++ new
      /\ requests new = repeat request_ n
      /\ (n <= remaining)%nat /\ ((1 <= remaining)%nat -> (1 <= n)%nat)
      /\ sleeps new = map retry_delay (filter keep (seq (4 - remaining) (n - 1)))
      /\ match o with
         | Ok d => in_bounds d
         | Throw _ => n = remaining
         end.
Proof.
  induction remaining as [|remaining IH]; intros lastError w Hrem.
  - eexists _, w, [], O, (fun _ => true). cbn. rewrite app_nil_r.
    split; [reflexivity|]. repeat split; lia.
  - rewrite loop_S.
    destruct (round_shape (3 - remaining) w) as (o & w1 & new1 & slept & -> & T1 & R1 & S1 & D).
    destruct o as [d|e].
    + destruct (D d eq_refl) as [Hd ->]. cbn in S1.
      exists (Ok d), w1, new1, 1%nat, (fun _ => true).
      split; [reflexivity|]. split; [exact T1|]. split; [exact R1|].
      split; [lia|]. split; [lia|]. split; [exact S1|exact Hd].
    + destruct (IH (Some e) w1 ltac:(lia)) as (o & w' & new & n & keep & -> & T & R & N & P & Sl & Ho).
      destruct remaining as [|remaining].
      * assert (n = O) by lia. subst n.
        exists o, w', (new1 ++ new), 1%nat, (fun _ => true).
        split; [reflexivity|]. split; [rewrite T, T1, app_assoc; reflexivity|].
        rewrite requests_app, sleeps_app, R1, R, S1, Sl.
        split; [reflexivity|]. split; [lia|]. split; [lia|].
        split; [rewrite andb_false_r; reflexivity|].
        destruct o; [exact Ho|reflexivity].
      * specialize (P ltac:(lia)).
        exists o, w', (new1 ++ new), (S n),
          (fun k => if (k =? 3 - S remaining)%nat then slept else keep k).
        split; [reflexivity|]. split; [rewrite T, T1, app_assoc; reflexivity|].
        rewrite requests_app, sleeps_app, R1, R, S1, Sl.
        split; [reflexivity|]. split; [lia|]. split; [lia|].
        split.
        { replace (4 - S (S remaining))%nat with (3 - S remaining)%nat by lia.
          replace (S n - 1)%nat with (S (n - 1)) by lia.
          replace (4 - S remaining)%nat with (S (3 - S remaining)) by lia.
          cbn [seq filter]. rewrite Nat.eqb_refl.
          replace (3 - S remaining <? 3)%nat with true
            by (symmetry; apply Nat.ltb_lt; lia).
          rewrite andb_true_r.
          rewrite (@filter_seq_above
                     (fun k => if (k =? 3 - S remaining)%nat then slept else keep k)
                     keep (3 - S remaining) (n - 1)).
          - destruct slept; reflexivity.
          - intros k Hk. destruct (Nat.eqb_spec k (3 - S remaining)); [lia|reflexivity]. }
        destruct o; [exact Ho|lia].
Qed.

End PerformanceAnalysis.

(** X7.  In any world the performance analysis of the server makes
    between one and three requests, all of them the same inference
    request.  It sleeps only after attempts that were not the last one
    made, 2000 ms times the number of the attempt, and not after every
    such attempt ([keep] tells after which).  If it returns, every numeric
    field of the data is within the validator's bounds; if it throws, it
    has made all three attempts. *)
Theorem performance_analysis_attempts (date_parses : text -> bool)
  (fileUri mimeType : jsval) (w : World) :
  exists o w' new n (keep : nat -> bool),
    PlayerPerformanceFunction.analyzePlayerPerformanceWithFilesAPI
      date_parses fileUri mimeType w = (o, w')
    /\ trace w' = trace w ++ new
    /\ requests new
       = repeat (GenerateContent (js_or mimeType (Some (JStr (u "video/mp4")))) fileUri) n
    /\ (1 <= n <= PlayerPerformanceFunction.maxRetries)%nat
    /\ sleeps new = map retry_delay (filter keep (seq 1 (n - 1)))
    /\ match o with
       | Ok validatedData => in_bounds validatedData
       | Throw _ => n = PlayerPerformanceFunction.maxRetries
       end.
Proof.
  unfold PlayerPerformanceFunction.analyzePlayerPerformanceWithFilesAPI,
    PlayerPerformanceFunction.maxRetries.
  destruct (@loop_shape date_parses fileUri mimeType 3 None w ltac:(lia))
    as (o & w' & new & n & keep & E & T & R & N & P & S & Ho).
  exists o, w', new, n, keep. repeat split; try assumption; try lia.
Qed.

Lemma round_refused date_parses fileUri mimeType attempt_ w r :
  net w (fetches w) = Some r -> ok r = false ->
  round_ date_parses fileUri mimeType attempt_ w
  = (Ok (PlayerPerformanceFunction.Again (ErrStatus "Google AI service error" (status r))),
     MkWorld (clock w + inject_Z (Z.of_N (latency w (fetches w))))
             (trace w ++ [Fetch (GenerateContent
                                   (js_or mimeType (Some (JStr (u "video/mp4")))) fileUri)])
             (S (fetches w)) (draws w) (net w) (latency w) (random w)).
Proof.
  intros N K. unfold round_, try_catch, PlayerPerformanceFunction.attempt.
  unfold bind at 1. unfold fetch at 1. rewrite N, K. reflexivity.
Qed.

Lemma round_rejected date_parses fileUri mimeType attempt_ w :
  net w (fetches w) = None ->
  round_ date_parses fileUri mimeType attempt_ w
  = (Ok (PlayerPerformanceFunction.Again NetworkError),
     MkWorld (if (attempt_ <? 3)%nat
              then clock w + inject_Z (Z.of_N (latency w (fetches w)))
                   + retry_delay attempt_
              else clock w + inject_Z (Z.of_N (latency w (fetches w))))
             (trace w
              ++ [Fetch (GenerateContent
                           (js_or mimeType (Some (JStr (u "video/mp4")))) fileUri);
                  ConsoleError NetworkError]
              ++ (if (attempt_ <? 3)%nat then [Sleep (retry_delay attempt_)] else []))
             (S (fetches w)) (draws w) (net w) (latency w) (random w)).
Proof.
  intros N. unfold round_, try_catch, PlayerPerformanceFunction.attempt.
  unfold bind at 1. unfold fetch at 1. rewrite N.
  unfold PlayerPerformanceFunction.maxRetries.
  destruct (attempt_ <? 3)%nat; cbv [bind log sleep ret];
    cbn [clock trace fetches draws net latency random];
    rewrite <- !app_assoc; reflexivity.
Qed.

(** X8.  The performance analysis retries an answer with a status that is
    not 2xx at once: when every answer has such a status, the three
    requests follow one another with no sleep in between and the error
    thrown carries the status of the third answer.  A request that the
    network rejects is retried after a sleep: when every request is
    rejected, the function sleeps 2000 ms and then 4000 ms and throws the
    network error. *)
Theorem status_errors_are_retried_at_once (date_parses : text -> bool)
  (fileUri mimeType : jsval) (w : World) :
  let request_ := GenerateContent (js_or mimeType (Some (JStr (u "video/mp4")))) fileUri in
  ((forall k, exists r, net w k = Some r /\ ok r = false) ->
   exists r w',
     net w (fetches w + 2) = Some r
     /\ PlayerPerformanceFunction.analyzePlayerPerformanceWithFilesAPI
          date_parses fileUri mimeType w
        = (Throw (ErrStatus "Google AI service error" (status r)), w')
     /\ trace w' = trace w ++ [Fetch request_; Fetch request_; Fetch request_])
  /\ ((forall k, net w k = None) ->
      exists w',
        PlayerPerformanceFunction.analyzePlayerPerformanceWithFilesAPI
          date_parses fileUri mimeType w
        = (Throw NetworkError, w')
        /\ trace w'
           = trace w ++ [Fetch request_; ConsoleError NetworkError; Sleep (retry_delay 1);
                         Fetch request_; ConsoleError NetworkError; Sleep (retry_delay 2);
                         Fetch request_; ConsoleError NetworkError]).
Proof.
  intro request_.
  unfold PlayerPerformanceFunction.analyzePlayerPerformanceWithFilesAPI,
    PlayerPerformanceFunction.maxRetries.
  split; intro H.
  - destruct (H (fetches w)) as (r0 & N0 & K0).
    destruct (H (S (fetches w))) as (r1 & N1 & K1).
    destruct (H (S (S (fetches w)))) as (r2 & N2 & K2).
    exists r2. eexists. split; [rewrite <- N2; f_equal; lia|].
    rewrite loop_S, (@round_refused date_parses fileUri mimeType _ w r0 N0 K0).
    rewrite loop_S, (@round_refused date_parses fileUri mimeType _ _ r1);
      [|exact N1|exact K1].
    rewrite loop_S, (@round_refused date_parses fileUri mimeType _ _ r2);
      [|exact N2|exact K2].
    cbn [PlayerPerformanceFunction.attempts_loop]. unfold throw.
    split; [reflexivity|]. cbn [trace]. now rewrite <- !app_assoc.
  - eexists.
    rewrite loop_S, (@round_rejected date_parses fileUri mimeType _ w (H _)).
    rewrite loop_S, (@round_rejected date_parses fileUri mimeType); [|apply H].
    rewrite loop_S, (@round_rejected date_parses fileUri mimeType); [|apply H].
    cbn [PlayerPerformanceFunction.attempts_loop]. unfold throw.
    split; [reflexivity|]. cbn [trace Nat.sub Nat.ltb Nat.leb app].
    now rewrite <- !app_assoc.
Qed.

Lemma status_errors_are_retried_at_once_witness :
  (forall k, exists r, net refusing_world k = Some r /\ ok r = false)
  /\ (forall k, net offline k = None)
  /\ fst (PlayerPerformanceFunction.analyzePlayerPerformanceWithFilesAPI
            (fun _ => true) None None refusing_world)
     = Throw (ErrStatus "Google AI service error" 503)
  /\ sleeps (trace (snd (PlayerPerformanceFunction.analyzePlayerPerformanceWithFilesAPI
                           (fun _ => true) None None refusing_world)))
     = []
  /\ fst (PlayerPerformanceFunction.analyzePlayerPerformanceWithFilesAPI
            (fun _ => true) None None offline)
     = Throw NetworkError
  /\ sleeps (trace (snd (PlayerPerformanceFunction.analyzePlayerPerformanceWithFilesAPI
                           (fun _ => true) None None offline)))
     = [retry_delay 1; retry_delay 2].
Proof.
  assert (H1 : forall k, exists r, net refusing_world k = Some r /\ ok r = false)
    by (intro k; eexists; split; reflexivity).
  assert (H2 : forall k, net offline k = None) by (intro k; reflexivity).
  split; [exact H1|]. split; [exact H2|].
  destruct (proj1 (@status_errors_are_retried_at_once (fun _ => true) None None
                     refusing_world) H1) as (r & w1 & N & E1 & T1).
  destruct (proj2 (@status_errors_are_retried_at_once (fun _ => true) None None
                     offline) H2) as (w2 & E2 & T2).
  rewrite E1, E2. cbn [fst snd]. rewrite T1, T2.
  injection N as <-.
  repeat split.
Defined.

(* ----------------------------------------------------------------- *)
(** ** The request handlers *)

(** The events of an upload: the start request, PUTs, status polls,
    sleeps and lines on the console. *)
Definition upload_event (e : event) : Prop :=
  match e with
  | Fetch (StartUpload _ _ _) | Fetch (PutBytes _ _ _ _ _ _) | Fetch (GetFile _) => True
  | Fetch _ => False
  | Sleep _ | ConsoleError _ => True
  end.

(** The events of an analysis: inference requests, sleeps and lines on
    the console. *)
Definition analysis_event (e : event) : Prop :=
  match e with
  | Fetch (GenerateContent _ _) => True
  | Fetch _ => False
  | Sleep _ | ConsoleError _ => True
  end.

(** An event that is not the request to delete a file. *)
Definition no_delete (e : event) : Prop :=
  match e with
  | Fetch (DeleteFile _) => False
  | _ => True
  end.

Lemma upload_event_no_delete new : Forall upload_event new -> Forall no_delete new.
Proof.
  apply Forall_impl. intros [[]| |]; cbn; auto.
Qed.

Lemma analysis_event_no_delete new : Forall analysis_event new -> Forall no_delete new.
Proof.
  apply Forall_impl. intros [[]| |]; cbn; auto.
Qed.

Lemma large_video_poll_upload_events rounds fileName st mx :
  only upload_event (LargeVideo.poll rounds fileName st mx).
Proof.
  induction rounds as [|n IH]; simpl.
  - apply only_throw.
  - apply only_bind; [apply only_now|intro t].
    destruct (Qlt_bool (t - st) mx); [|apply only_throw].
    apply only_bind; [apply only_fetch; exact I|intro resp].
    destruct (negb (ok resp)); [apply only_throw|].
    apply only_bind; [apply only_json_of|intro v].
    apply only_bind; [apply only_lift|intro s].
    destruct (is_string s "ACTIVE"); [apply only_ret|].
    destruct (is_string s "FAILED"); [apply only_throw|].
    apply only_bind; [apply only_sleep; exact I|intro]. apply IH.
Qed.

Lemma performance_poll_upload_events rounds fileName st mx ci :
  only upload_event (PlayerPerformance.poll rounds fileName st mx ci).
Proof.
  revert ci. induction rounds as [|n IH]; intro ci; simpl.
  - apply only_throw.
  - apply only_bind; [apply only_now|intro t].
    destruct (Qlt_bool (t - st) mx); [|apply only_throw].
    apply only_bind.
    + unfold PlayerPerformance.poll_round. only_step; exact I.
    + intros [v|ci']; [apply only_ret | apply IH].
Qed.

Lemma finish_upload_events r : only upload_event (PlayerPerformance.finish_upload r).
Proof.
  unfold PlayerPerformance.finish_upload, PlayerPerformance.waitForFileProcessing.
  only_step; try exact I; apply performance_poll_upload_events.
Qed.

Lemma upload_chunks_events url fileSize n :
  forall remaining i,
    only upload_event (PlayerPerformance.upload_chunks remaining url fileSize n i).
Proof.
  induction remaining as [|r IH]; intro i; cbn [PlayerPerformance.upload_chunks].
  - apply only_ret.
  - apply only_bind; [apply only_fetch; exact I|intro resp].
    destruct (negb (ok resp)); [apply only_throw|].
    destruct (i =? n - 1)%Z; [apply finish_upload_events | apply IH].
Qed.

Lemma large_video_upload_events videoFile :
  only upload_event (LargeVideo.uploadVideoToFilesAPI videoFile).
Proof.
  unfold LargeVideo.uploadVideoToFilesAPI.
  apply only_bind; [apply only_fetch; exact I|intro resp].
  destruct (negb (ok resp)); [apply only_throw|].
  destruct (uploadUrlHeader resp) as [[|c0 url0]|]; [apply only_throw| |apply only_throw].
  apply only_bind; [apply only_fetch; exact I|intro resp2].
  destruct (negb (ok resp2)); [apply only_throw|].
  apply only_bind; [apply only_json_of|intro].
  do 2 (apply only_bind; [apply only_lift|intro]).
  apply only_bind; [|intro; apply only_ret].
  unfold LargeVideo.waitForFileProcessing.
  apply only_bind; [apply only_now|intro]. apply large_video_poll_upload_events.
Qed.

Lemma performance_upload_events videoFile :
  only upload_event (PlayerPerformance.uploadVideoToFilesAPI videoFile).
Proof.
  unfold PlayerPerformance.uploadVideoToFilesAPI.
  apply only_bind; [apply only_fetch; exact I|intro resp].
  destruct (negb (ok resp)); [apply only_throw|].
  destruct (uploadUrlHeader resp) as [[|c0 url0]|]; [apply only_throw| |apply only_throw].
  match goal with |- only _ (if ?c then _ else _) => destruct c end.
  - apply only_bind; [apply only_fetch; exact I|intro resp2].
    destruct (negb (ok resp2)); [apply only_throw|]. apply finish_upload_events.
  - apply upload_chunks_events.
Qed.

(** What an upload function returns is the [file] object of the answer
    to the final PUT: never [undefined], never [null]. *)
Definition a_file (file : jsval) : Prop := exists j, file = Some j /\ j <> JNull.

Lemma getv_name_a_file (file fileName : jsval) :
  getv file "name" = Ok fileName -> a_file file.
Proof.
  destruct file as [j|]; cbn; [|discriminate].
  destruct j; cbn; try discriminate; intros _; eexists; split;
    try reflexivity; discriminate.
Qed.

Lemma a_file_get (file : jsval) (k : string) :
  a_file file -> exists v, getv file k = Ok v.
Proof.
  intros (j & -> & Hj). destruct j; try contradiction; eexists; reflexivity.
Qed.

Lemma large_video_upload_returns videoFile w file w' :
  LargeVideo.uploadVideoToFilesAPI videoFile w = (Ok file, w') -> a_file file.
Proof.
  unfold LargeVideo.uploadVideoToFilesAPI. intro H.
  apply bind_Ok_inv in H. destruct H as (resp & w1 & _ & H).
  destruct (negb (ok resp)); [discriminate H|].
  destruct (uploadUrlHeader resp) as [[|c0 url0]|]; [discriminate H| |discriminate H].
  apply bind_Ok_inv in H. destruct H as (resp2 & w2 & _ & H).
  destruct (negb (ok resp2)); [discriminate H|].
  invert_run.
  match goal with Hn : getv _ "name" = Ok _ |- _ => exact (getv_name_a_file _ Hn) end.
Qed.

Lemma finish_upload_returns r w file w' :
  PlayerPerformance.finish_upload r w = (Ok file, w') -> a_file file.
Proof.
  unfold PlayerPerformance.finish_upload. intro H. invert_run.
  match goal with Hn : getv _ "name" = Ok _ |- _ => exact (getv_name_a_file _ Hn) end.
Qed.

Lemma upload_chunks_returns url fileSize n :
  forall remaining i w file w',
    (Z.of_nat remaining = n - i)%Z ->
    PlayerPerformance.upload_chunks remaining url fileSize n i w = (Ok file, w') ->
    (1 <= remaining)%nat -> a_file file.
Proof.
  induction remaining as [|r IH]; intros i w file w' Hrem H Hpos; [lia|].
  cbn [PlayerPerformance.upload_chunks] in H.
  apply bind_Ok_inv in H. destruct H as (resp & w1 & _ & H).
  destruct (negb (ok resp)); [discriminate H|].
  destruct (i =? n - 1)%Z eqn:Elast.
  - now apply finish_upload_returns in H.
  - apply Z.eqb_neq in Elast. apply (IH (i + 1)%Z w1 file w'); [lia | exact H | lia].
Qed.

Lemma performance_upload_returns videoFile w file w' :
  PlayerPerformance.uploadVideoToFilesAPI videoFile w = (Ok file, w') -> a_file file.
Proof.
  unfold PlayerPerformance.uploadVideoToFilesAPI. intro H.
  apply bind_Ok_inv in H. destruct H as (resp & w1 & _ & H).
  destruct (negb (ok resp)); [discriminate H|].
  destruct (uploadUrlHeader resp) as [[|c0 url0]|]; [discriminate H| |discriminate H].
  destruct (Z.of_N (file_size videoFile) <=? PlayerPerformance.MAX_CHUNK_SIZE)%Z eqn:Esmall.
  - apply bind_Ok_inv in H. destruct H as (resp2 & w2 & _ & H).
    destruct (negb (ok resp2)); [discriminate H|].
    now apply finish_upload_returns in H.
  - apply Z.leb_gt in Esmall.
    set (fileSize := Z.of_N (file_size videoFile)) in *.
    set (n := Math_ceil (inject_Z fileSize / inject_Z PlayerPerformance.MAX_CHUNK_SIZE))
      in *.
    assert (Hn : n = ((fileSize + PlayerPerformance.MAX_CHUNK_SIZE - 1)
                      / PlayerPerformance.MAX_CHUNK_SIZE)%Z)
      by (apply Math_ceil_div; reflexivity).
    assert (Hn1 : (1 <= n)%Z).
    { rewrite Hn. apply Z.div_le_lower_bound; [reflexivity|].
      change PlayerPerformance.MAX_CHUNK_SIZE with 52428800%Z in *. lia. }
    eapply upload_chunks_returns; [|exact H|]; lia.
Qed.

Lemma video_attempts_events fileUri mimeType :
  forall remaining,
    only analysis_event (LargeVideo.attempts_loop remaining fileUri mimeType).
Proof.
  induction remaining as [|r IH]; cbn [LargeVideo.attempts_loop].
  - apply only_ret.
  - apply only_bind.
    + apply only_try_catch.
      * apply only_bind; [|intro; apply only_ret].
        unfold LargeVideo.attempt.
        apply only_bind; [apply only_fetch; exact I|intro resp].
        destruct (negb (ok resp)); [apply only_throw|].
        apply only_bind; [apply only_json_of|intro]. apply only_lift.
      * intro e. apply only_bind; [apply only_log; exact I|intro].
        destruct (Nat.eqb _ _); [apply only_ret|].
        apply only_bind; [apply only_sleep; exact I|intro; apply only_ret].
    + intros [a|]; [apply only_ret | apply IH].
Qed.

Lemma only_weaker {A} (P Q : event -> Prop) (m : M A) :
  (forall e, P e -> Q e) -> only P m -> only Q m.
Proof.
  intros HPQ H w. destruct (H w) as (new & T & F & O).
  exists new. split; [exact T|]. split; [|exact O].
  eapply Forall_impl; [|exact F]. exact HPQ.
Qed.

Lemma video_analysis_events fileUri mimeType :
  only analysis_event (LargeVideo.analyzeVideoWithFilesAPI fileUri mimeType).
Proof.
  unfold LargeVideo.analyzeVideoWithFilesAPI.
  apply only_bind; [apply video_attempts_events|intro a].
  do 2 (apply only_bind; [apply only_lift|intro]).
  match goal with |- only _ (match ?x with _ => _ end) => destruct x as [[]|] end;
    try apply only_throw.
  apply only_bind; [|intro; apply only_ret].
  apply (@only_weaker _ (fun _ => False)); [intros e []|].
  apply silent_mapi_M. intros. apply silent_video_processPlayer.
Qed.

(** A run with its outcome and the events it added. *)
Lemma run_only {A} (Q : event -> Prop) (m : M A) (w : World) :
  only Q m -> exists o w' new, m w = (o, w') /\ trace w' = trace w ++ new /\ Forall Q new.
Proof.
  intro H. destruct (H w) as (new & T & F & _).
  destruct (m w) as [o w']. now exists o, w', new.
Qed.

(** The events of a run that ended with the clean-up: those of the
    upload, then those of the analysis, then the request to delete the
    uploaded file. *)
Definition ends_with_delete (new : list event) : Prop :=
  exists up an name,
    new = up ++ an ++ [Fetch (DeleteFile name)]
    /\ Forall upload_event up /\ Forall analysis_event an.

(** What the handler of the large-video function has done when it
    answers. *)
Definition large_video_answer (reply : Reply) (new : list event) : Prop :=
  match reply_body reply with
  | Plain => reply_status reply = 200%Z /\ new = []
  | Failure _ =>
      (reply_status reply = 400%Z /\ new = [])
      \/ (reply_status reply = 500%Z /\ Forall no_delete new)
  | Players players teamColors =>
      reply_status reply = 200%Z
      /\ players <> [] /\ Forall well_placed players /\ truthy teamColors = true
      /\ ends_with_delete new
  | Performance _ _ => False
  end.

Lemma delete_step (uploadedFile : jsval) (w : World) :
  a_file uploadedFile ->
  exists name w',
    try_catch
      (name <- lift (getv uploadedFile "name") ;;
       LargeVideoFunction.deleteFileFromFilesAPI name)
      (fun cleanupError => ret tt) w = (Ok tt, w')
    /\ trace w' = trace w ++ [Fetch (DeleteFile name)].
Proof.
  intro Hf. destruct (a_file_get "name" Hf) as (name & En).
  exists name. unfold try_catch, bind, lift, LargeVideoFunction.deleteFileFromFilesAPI, fetch.
  rewrite En. unfold bind.
  destruct (net w (fetches w)) as [resp|]; [destruct (negb (ok resp))|];
    eexists; split; reflexivity.
Qed.

(** X9.  The handler of the large-video function answers every request;
    nothing it calls makes it throw.  The preflight answer and the answer
    400 to a form without video or key are given without any effect.  An
    answer 200 with players means that the upload, then the analysis, then
    the request to delete the uploaded file took place in this order, the
    delete request being the last event, and the players are at least one
    and well placed.  An answer 500 means that no delete request was made:
    a file uploaded before the failure stays on the server. *)
Theorem large_video_handler_answers (method : text) (form : result Form) (w : World) :
  exists reply w' new,
    LargeVideoFunction.serve method form w = (Ok reply, w')
    /\ trace w' = trace w ++ new
    /\ match reply_body reply with
       | Plain => reply_status reply = 200%Z /\ new = []
       | Failure _ =>
           (reply_status reply = 400%Z /\ new = [])
           \/ (reply_status reply = 500%Z /\ Forall no_delete new)
       | Players players teamColors =>
           reply_status reply = 200%Z
           /\ players <> [] /\ Forall well_placed players /\ truthy teamColors = true
           /\ ends_with_delete new
       | Performance _ _ => False
       end.
Proof.
  change (exists reply w' new,
    LargeVideoFunction.serve method form w = (Ok reply, w')
    /\ trace w' = trace w ++ new
    /\ large_video_answer reply new).
  unfold LargeVideoFunction.serve.
  destruct (text_eqb method (u "OPTIONS")).
  { exists (MkReply 200 Plain), w, []. rewrite app_nil_r.
    split; [reflexivity|]. split; [reflexivity|]. split; reflexivity. }
  unfold try_catch at 1.
  assert (Fail500 : forall e w1 new1,
             trace w1 = trace w ++ new1 -> Forall no_delete new1 ->
             exists reply w' new,
               (log (ConsoleError e) ;;;
                ret (MkReply 500 (Failure (ErrFrom "server processing failed" e)))) w1
               = (Ok reply, w')
               /\ trace w' = trace w ++ new /\ large_video_answer reply new).
  { intros e w1 new1 T F.
    eexists _, _, (new1 ++ [ConsoleError e]). split; [reflexivity|].
    cbn [trace]. rewrite T, <- app_assoc. split; [reflexivity|].
    right. split; [reflexivity|]. apply Forall_app. split; [exact F|].
    repeat constructor. }
  destruct form as [formData|e]; unfold bind at 1; unfold lift at 1.
  2:{ apply (Fail500 e w []); [now rewrite app_nil_r|constructor]. }
  destruct (negb (present (form_video formData)) || negb (present (form_apiKey formData))).
  { eexists _, w, []. rewrite app_nil_r. split; [reflexivity|]. split; [reflexivity|].
    left. split; reflexivity. }
  destruct (form_video formData) as [[videoFile|t]|]; unfold as_file;
    unfold bind at 1.
  2:{ unfold throw at 1.
      apply (Fail500 TypeError w []); [now rewrite app_nil_r|constructor]. }
  2:{ unfold throw at 1.
      apply (Fail500 TypeError w []); [now rewrite app_nil_r|constructor]. }
  unfold ret at 1.
  destruct (run_only w (large_video_upload_events videoFile))
    as (o & w1 & up & E & T & F).
  unfold bind at 1. rewrite E.
  destruct o as [uploadedFile|e].
  2:{ apply (Fail500 e w1 up); [exact T|now apply upload_event_no_delete]. }
  pose proof (large_video_upload_returns _ _ E) as Hfile.
  destruct (a_file_get "uri" Hfile) as (uri & Euri).
  destruct (a_file_get "mimeType" Hfile) as (mimeType & Emime).
  unfold bind at 1. unfold lift at 1. rewrite Euri.
  unfold bind at 1. unfold lift at 1. rewrite Emime.
  destruct (run_only w1 (video_analysis_events uri mimeType))
    as (o2 & w2 & an & E2 & T2 & F2).
  unfold bind at 1. rewrite E2.
  destruct o2 as [analysisResult|e].
  2:{ apply (Fail500 e w2 (up ++ an)).
      - rewrite T2, T, app_assoc. reflexivity.
      - apply Forall_app. split;
          [now apply upload_event_no_delete | now apply analysis_event_no_delete]. }
  destruct (video_analysis_result uri mimeType w1)
    as [(r & w2' & E' & Hne & Hwp & Htc)|(w2' & E')];
    rewrite E2 in E'; [injection E' as <- <-|discriminate E'].
  destruct (delete_step w2 Hfile) as (name & w3 & Ed & Td).
  unfold bind at 1. rewrite Ed. unfold ret.
  eexists _, w3, (up ++ an ++ [Fetch (DeleteFile name)]).
  split; [reflexivity|].
  split; [rewrite Td, T2, T, <- !app_assoc; reflexivity|].
  unfold large_video_answer. cbn [reply_body reply_status].
  split; [reflexivity|]. split; [exact Hne|]. split; [exact Hwp|].
  split.
  - unfold js_or. destruct (truthy (LargeVideo.teamColors analysisResult)) eqn:X;
      [exact X|reflexivity].
  - exists up, an, name. now split.
Qed.

Lemma performance_analysis_result date_parses fileUri mimeType w d w' :
  PlayerPerformanceFunction.analyzePlayerPerformanceWithFilesAPI
    date_parses fileUri mimeType w = (Ok d, w') ->
  in_bounds d.
Proof.
  unfold PlayerPerformanceFunction.analyzePlayerPerformanceWithFilesAPI,
    PlayerPerformanceFunction.maxRetries.
  destruct (@loop_shape date_parses fileUri mimeType 3 None w ltac:(lia))
    as (o & w1 & new & n & keep & E & _ & _ & _ & _ & _ & Ho).
  rewrite E. intro H. injection H as -> _. exact Ho.
Qed.

Lemma performance_attempts_events date_parses fileUri mimeType :
  forall remaining lastError,
    only analysis_event
         (PlayerPerformanceFunction.attempts_loop date_parses remaining fileUri mimeType
            lastError).
Proof.
  induction remaining as [|r IH]; intro lastError;
    cbn [PlayerPerformanceFunction.attempts_loop].
  - apply only_throw.
  - apply only_bind.
    + apply only_try_catch.
      * rewrite attempt_unfold.
        apply only_bind; [apply only_fetch; exact I|intro resp].
        apply (@only_weaker _ is_log); [intros [] H; try contradiction; exact I|].
        apply after_response_logs.
      * intro e. apply only_bind; [apply only_log; exact I|intro].
        apply only_bind; [|intro; apply only_ret].
        destruct (_ <? _)%nat; [apply only_sleep; exact I | apply only_ret].
    + intros [d|e]; [apply only_ret | apply IH].
Qed.

Lemma performance_analysis_events date_parses fileUri mimeType :
  only analysis_event
       (PlayerPerformanceFunction.analyzePlayerPerformanceWithFilesAPI
          date_parses fileUri mimeType).
Proof.
  unfold PlayerPerformanceFunction.analyzePlayerPerformanceWithFilesAPI.
  apply performance_attempts_events.
Qed.

Lemma whole_within_within (lo hi : Z) (lo' hi' : Q) (v : num) :
  lo' <= inject_Z lo -> inject_Z hi <= hi' -> whole_within lo hi v -> within lo' hi' v.
Proof.
  intros Hlo Hhi (q & k & -> & E & B). exists q. split; [reflexivity|].
  rewrite E.
  assert (inject_Z lo <= inject_Z k /\ inject_Z k <= inject_Z hi)
    by (rewrite <- !Zle_Qle; lia).
  split; lra.
Qed.

Lemma fallback_in_bounds playerName w d w' :
  PlayerPerformance.generateFallbackPerformanceData playerName w = (Ok d, w') ->
  in_bounds d.
Proof.
  intro E.
  destruct (fallback_performance_ranges playerName w)
    as (d0 & w0 & E0 & _ & _ & (o & Ho & Hov & Hs & Hp & Hpos) & Ht & Hd & Hts & Hpa & Hr & Hl).
  rewrite E in E0. injection E0 as <- <-.
  assert (Bo : 70 <= o /\ o <= 89).
  { destruct Hov as (q & k & Eq & E1 & B). rewrite Ho in Eq. injection Eq as <-.
    rewrite E1.
    assert (inject_Z 70 <= inject_Z k /\ inject_Z k <= inject_Z 89)
      by (rewrite <- !Zle_Qle; lia).
    change (inject_Z 70) with 70 in *. change (inject_Z 89) with 89 in *. lra. }
  assert (R : forall v, within (o - 5) (o + 4) v -> within 0 100 v).
  { intros v (q & -> & L & U). exists q. split; [reflexivity|]. split; lra. }
  assert (R' : forall lo hi hi' v, 0 <= lo -> hi <= hi' ->
                                   within lo hi v -> within 0 hi' v).
  { intros lo hi hi' v L U (q & -> & L' & U'). exists q. split; [reflexivity|].
    split; lra. }
  unfold in_bounds.
  split; [eapply whole_within_within; [| |exact Hov]; discriminate|].
  split; [now apply R|]. split; [now apply R|]. split; [now apply R|].
  split; [eapply whole_within_within; [| |exact Ht]; discriminate|].
  split; [eapply R'; [| |exact Hd]; discriminate|].
  split; [eapply R'; [| |exact Hts]; discriminate|].
  split; [eapply whole_within_within; [| |exact Hpa]; discriminate|].
  split; [eapply whole_within_within; [| |exact Hr]; discriminate|].
  eapply whole_within_within; [| |exact Hl]; discriminate.
Qed.

Lemma read_existingPlayerData_run v w :
  exists w' logs,
    PlayerPerformanceFunction.read_existingPlayerData v w = (Ok tt, w')
    /\ trace w' = trace w ++ logs /\ Forall is_log logs.
Proof.
  unfold PlayerPerformanceFunction.read_existingPlayerData.
  destruct (present v); [destruct (JSON.parse (form_text v))|].
  - exists w, []. rewrite app_nil_r. repeat split. constructor.
  - eexists _, [_]. split; [reflexivity|]. split; [reflexivity|]. repeat constructor.
  - exists w, []. rewrite app_nil_r. repeat split. constructor.
Qed.

Lemma performance_delete_step (uploadedFile : jsval) (w : World) :
  a_file uploadedFile ->
  exists name w',
    try_catch
      (name <- lift (getv uploadedFile "name") ;;
       PlayerPerformanceFunction.deleteFileFromFilesAPI name)
      (fun cleanupError => ret tt) w = (Ok tt, w')
    /\ trace w' = trace w ++ [Fetch (DeleteFile name)].
Proof.
  intro Hf. destruct (a_file_get "name" Hf) as (name & En).
  exists name.
  unfold try_catch, bind, lift, PlayerPerformanceFunction.deleteFileFromFilesAPI,
    try_catch, bind, fetch.
  rewrite En.
  destruct (net w (fetches w)) as [resp|]; [destruct (negb (ok resp))|];
    eexists; split; reflexivity.
Qed.

(** What the handler of the player-performance function has done when
    it answers. *)
Definition performance_answer (reply : Reply) (new : list event) : Prop :=
  match reply_body reply with
  | Plain => reply_status reply = 200%Z /\ new = []
  | Failure _ =>
      (reply_status reply = 400%Z /\ new = [])
      \/ (reply_status reply = 413%Z /\ requests new = [])
      \/ (reply_status reply = 500%Z /\ Forall no_delete new)
  | Performance performanceData warning =>
      reply_status reply = 200%Z
      /\ in_bounds performanceData
      /\ ends_with_delete new
  | Players _ _ => False
  end.

Lemma logs_upload_events logs : Forall is_log logs -> Forall upload_event logs.
Proof. apply Forall_impl. intros [] H; try contradiction; exact I. Qed.

(** X10.  The handler of the player-performance function answers every
    request; nothing it calls makes it throw.  The preflight answer and the
    answer 400 to a form with a missing field are given without any effect,
    the answer 413 to a file of more than 500 MiB without any request.  An
    answer 200 carries performance data within the validator's bounds --
    the validated data of the model or, after a failed analysis, the
    default data -- and means that the upload, then the analysis, then the
    request to delete the uploaded file took place in this order, the
    delete request being the last event.  An answer 500 means that no
    delete request was made. *)
Theorem performance_handler_answers (date_parses : text -> bool) (method : text)
  (form : result Form) (w : World) :
  exists reply w' new,
    PlayerPerformanceFunction.serve date_parses method form w = (Ok reply, w')
    /\ trace w' = trace w ++ new
    /\ match reply_body reply with
       | Plain => reply_status reply = 200%Z /\ new = []
       | Failure _ =>
           (reply_status reply = 400%Z /\ new = [])
           \/ (reply_status reply = 413%Z /\ requests new = [])
           \/ (reply_status reply = 500%Z /\ Forall no_delete new)
       | Performance performanceData warning =>
           reply_status reply = 200%Z
           /\ in_bounds performanceData
           /\ ends_with_delete new
       | Players _ _ => False
       end.
Proof.
  change (exists reply w' new,
    PlayerPerformanceFunction.serve date_parses method form w = (Ok reply, w')
    /\ trace w' = trace w ++ new
    /\ performance_answer reply new).
  unfold PlayerPerformanceFunction.serve.
  destruct (text_eqb method (u "OPTIONS")).
  { exists (MkReply 200 Plain), w, []. rewrite app_nil_r.
    split; [reflexivity|]. split; [reflexivity|]. split; reflexivity. }
  unfold try_catch at 1.
  assert (Fail500 : forall msg e w1 new1,
             trace w1 = trace w ++ new1 -> Forall no_delete new1 ->
             exists reply w' new,
               (Ok (MkReply 500 (Failure (ErrFrom msg e))),
                MkWorld (clock w1) (trace w1 ++ [ConsoleError e]) (fetches w1) (draws w1)
                        (net w1) (latency w1) (random w1))
               = (Ok reply, w')
               /\ trace w' = trace w ++ new /\ performance_answer reply new).
  { intros msg e w1 new1 T F.
    eexists _, _, (new1 ++ [ConsoleError e]). split; [reflexivity|].
    cbn [trace]. rewrite T, <- app_assoc. split; [reflexivity|].
    right. right. split; [reflexivity|]. apply Forall_app. split; [exact F|].
    repeat constructor. }
  destruct form as [formData|e]; unfold bind at 1; unfold lift at 1.
  2:{ cbv [bind log ret]. apply (Fail500 _ e w []); [now rewrite app_nil_r|constructor]. }
  match goal with |- context [if ?c then _ else _] => destruct c end.
  { eexists _, w, []. rewrite app_nil_r. split; [reflexivity|]. split; [reflexivity|].
    left. split; reflexivity. }
  destruct (read_existingPlayerData_run (form_existingPlayerData formData) w)
    as (w0 & logs & E0 & T0 & F0).
  unfold bind at 1. rewrite E0.
  destruct (larger_than (form_video formData) _).
  { eexists _, w0, logs. split; [reflexivity|]. split; [exact T0|].
    right. left. split; [reflexivity|]. now apply logs_no_request in F0. }
  pose proof (logs_upload_events F0) as U0.
  unfold bind at 1. unfold try_catch at 1.
  destruct (form_video formData) as [[videoFile|t]|]; unfold as_file;
    unfold bind at 1.
  2:{ unfold throw at 1. cbv [bind log ret].
      apply (Fail500 _ TypeError w0 logs);
        [exact T0 | now apply upload_event_no_delete]. }
  2:{ unfold throw at 1. cbv [bind log ret].
      apply (Fail500 _ TypeError w0 logs);
        [exact T0 | now apply upload_event_no_delete]. }
  unfold ret at 1.
  destruct (run_only w0 (performance_upload_events videoFile))
    as (o & w1 & up & E & T & F).
  unfold bind at 1. rewrite E.
  destruct o as [uploadedFile|e].
  2:{ cbv [bind log ret]. apply (Fail500 _ e w1 (logs ++ up)).
      - rewrite T, T0, app_assoc. reflexivity.
      - apply upload_event_no_delete. apply Forall_app. now split. }
  unfold ret at 1.
  pose proof (performance_upload_returns _ _ E) as Hfile.
  destruct (a_file_get "uri" Hfile) as (uri & Euri).
  destruct (a_file_get "mimeType" Hfile) as (mimeType & Emime).
  unfold bind at 1. unfold try_catch at 1.
  unfold bind at 1. unfold lift at 1. rewrite Euri.
  unfold bind at 1. unfold lift at 1. rewrite Emime.
  destruct (run_only w1 (performance_analysis_events date_parses uri mimeType))
    as (o2 & w2 & an & E2 & T2 & F2).
  unfold bind at 1. rewrite E2.
  destruct o2 as [performanceData|e].
  - (* the analysis returned *)
    unfold ret at 1.
    destruct (performance_delete_step w2 Hfile) as (name & w3 & Ed & Td).
    unfold bind at 1. rewrite Ed. unfold ret.
    eexists _, w3, ((logs ++ up) ++ an ++ [Fetch (DeleteFile name)]).
    split; [reflexivity|].
    split; [rewrite Td, T2, T, T0, <- !app_assoc; reflexivity|].
    unfold performance_answer. cbn [reply_body reply_status].
    split; [reflexivity|].
    split; [exact (performance_analysis_result _ _ _ _ E2)|].
    exists (logs ++ up), an, name. split; [reflexivity|].
    split; [apply Forall_app; now split | exact F2].
  - (* the analysis threw: default data *)
    unfold bind at 1. unfold log at 1. unfold bind at 1.
    match goal with
    | |- context [try_catch _ _ ?W] =>
        destruct (performance_delete_step W Hfile) as (name & w3 & Ed & Td)
    end.
    rewrite Ed.
    destruct (quiet_generateFallbackPerformanceData
                (form_text (form_playerName formData)) w3)
      as (d & w4 & Eg & Tg & _).
    unfold bind at 1. rewrite Eg. unfold ret.
    eexists _, w4, ((logs ++ up) ++ (an ++ [ConsoleError e]) ++ [Fetch (DeleteFile name)]).
    split; [reflexivity|].
    split; [rewrite Tg, Td; cbn [trace]; rewrite T2, T, T0, <- !app_assoc; reflexivity|].
    unfold performance_answer. cbn [reply_body reply_status].
    split; [reflexivity|].
    split; [exact (fallback_in_bounds Eg)|].
    exists (logs ++ up), (an ++ [ConsoleError e]), name. split; [reflexivity|].
    split; [apply Forall_app; now split|].
    apply Forall_app. split; [exact F2|]. repeat constructor.
Qed.

(* ----------------------------------------------------------------- *)
(** ** The static-frame analysis of the client: any world *)

(** An analysis the loop of the static-frame analysis hands on: one read
    from a reply of the model, or the default configuration. *)
Definition frame_analysis (ts : Q) (a : FootballAI.Analysis) : Prop :=
  a = FootballAI.fallbackAnalysis ts
  \/ exists responseText, FootballAI.read_analysis responseText = Ok a.

Lemma frame_attempts_shape frameDataUrl ts :
  forall remaining w,
    (remaining <= 5)%nat ->
    exists r w' new n,
      FootballAI.attempts_loop remaining frameDataUrl ts w = (Ok r, w')
      /\ trace w' = trace w ++ new
      /\ requests new
         = repeat (GenerateFromFrame (FootballAI.split_comma_1 frameDataUrl)) n
      /\ (n <= remaining)%nat
      /\ sleeps new = map retry_delay (seq (6 - remaining) (n - 1))
      /\ ((1 <= remaining)%nat -> (1 <= n)%nat /\ exists a, r = Some a /\ frame_analysis ts a).
Proof.
  induction remaining as [|remaining IH]; intros w Hrem.
  - exists None, w, [], O. cbn. rewrite app_nil_r. repeat split; lia.
  - cbn [FootballAI.attempts_loop].
    destruct (frame_attempt_shape frameDataUrl w) as (o & E & Hgood).
    unfold bind at 1. unfold try_catch. unfold bind at 1. rewrite E.
    destruct o as [a|e].
    + cbv [ret]. eexists _, _, [_], 1%nat.
      split; [reflexivity|]. cbn [trace]. split; [reflexivity|].
      split; [reflexivity|]. split; [lia|]. split; [reflexivity|].
      intros _. split; [lia|]. exists a. split; [reflexivity|]. right.
      destruct (Hgood a eq_refl) as (r & _ & _ & Hr). now exists (body r).
    + unfold FootballAI.maxAttempts.
      destruct (Nat.eqb_spec (5 - remaining) 5) as [Hlast|Hmore].
      * cbv [bind log ret]. cbn [trace clock fetches draws net latency random].
        eexists _, _, [_; _], 1%nat.
        split; [reflexivity|]. cbn [trace]. rewrite <- app_assoc.
        split; [reflexivity|]. split; [reflexivity|]. split; [lia|].
        split; [reflexivity|].
        intros _. split; [lia|]. eexists. split; [reflexivity|]. now left.
      * cbv [bind log sleep ret].
        cbn [trace clock fetches draws net latency random].
        match goal with
        | |- context [FootballAI.attempts_loop remaining frameDataUrl ts ?W] =>
            destruct (IH W ltac:(lia)) as (r & w' & new & n & R & T & Rq & N & Sl & G)
        end.
        destruct (G ltac:(lia)) as (Hn & a & -> & Ha).
        cbn [trace] in T.
        eexists (Some a), w', (_ :: _ :: _ :: new), (S n). split; [exact R|].
        split; [rewrite T, <- !app_assoc; reflexivity|].
        split.
        { change (requests (?a :: ?b :: ?c :: new))
            with (GenerateFromFrame (FootballAI.split_comma_1 frameDataUrl) :: requests new).
          rewrite Rq. reflexivity. }
        split; [lia|]. split.
        { change (sleeps (?a :: ?b :: Sleep ?c :: new)) with (c :: sleeps new).
          rewrite Sl.
          replace (6 - S remaining)%nat with (5 - remaining)%nat by lia.
          replace (S n - 1)%nat with (S (n - 1)) by lia.
          replace (6 - remaining)%nat with (S (5 - remaining)) by lia.
          reflexivity. }
        intros _. split; [lia|]. exists a. now split.
Qed.

(** A coordinate of a movement position within bounds, where it is a
    number. *)
Definition kept_within (lo hi : Q) (o : option Q) : Prop :=
  match o with
  | Some q => lo <= q /\ q <= hi
  | None => True
  end.

(** Rounding to a tenth does not leave an interval whose ends are whole
    numbers. *)
Lemma round1_within (lo hi : Z) (v : Q) :
  inject_Z lo <= v -> v <= inject_Z hi ->
  inject_Z lo <= FootballAI.round1 v /\ FootballAI.round1 v <= inject_Z hi.
Proof.
  intros L H. unfold FootballAI.round1, Math_round.
  set (r := v * 10 + (1 # 2)).
  assert (Lz : (lo * 10 <= Qfloor r)%Z).
  { rewrite <- (Qfloor_Z (lo * 10)). apply Qfloor_resp_le.
    unfold r. rewrite inject_Z_mult. change (inject_Z 10) with 10. lra. }
  assert (Hz : (Qfloor r <= hi * 10)%Z).
  { assert (Qfloor r < hi * 10 + 1)%Z; [|lia].
    rewrite Zlt_Qlt. eapply Qle_lt_trans; [apply Qfloor_le|].
    unfold r. rewrite inject_Z_plus, inject_Z_mult.
    change (inject_Z 10) with 10. change (inject_Z 1) with 1. lra. }
  rewrite Zle_Qle, inject_Z_mult in Lz, Hz. change (inject_Z 10) with 10 in Lz, Hz.
  split.
  - apply Qle_shift_div_l; [reflexivity|exact Lz].
  - apply Qle_shift_div_r; [reflexivity|exact Hz].
Qed.

Lemma kept_within_step (lo hi : Z) (current : option Q) (delta : Q) :
  (lo <= hi)%Z ->
  kept_within (inject_Z lo) (inject_Z hi)
    (option_map FootballAI.round1
       (FootballAI.step (inject_Z lo) (inject_Z hi) current delta)).
Proof.
  intro H. destruct current as [c|]; [|exact I]. cbn.
  apply round1_within; apply clamp_bounds; now rewrite <- Zle_Qle.
Qed.

(** A position of a movement pattern of the client. *)
Definition frame_position (pos : FootballAI.Position) : Prop :=
  kept_within 5 95 (FootballAI.pos_x pos)
  /\ kept_within 5 95 (FootballAI.pos_y pos)
  /\ kept_within 5 20 (FootballAI.pos_width pos)
  /\ kept_within 10 30 (FootballAI.pos_height pos).

Lemma movement_loop_positions :
  forall n currentX currentY currentWidth currentHeight w ps w',
    FootballAI.movement_loop n currentX currentY currentWidth currentHeight w = (Ok ps, w') ->
    length ps = n /\ Forall frame_position ps.
Proof.
  induction n as [|n IH]; intros cx cy cw ch w ps w' H; cbn [FootballAI.movement_loop] in H.
  - invert_run. split; [reflexivity|constructor].
  - invert_run.
    match goal with
    | Hl : FootballAI.movement_loop _ _ _ _ _ _ = (Ok _, _) |- _ => apply IH in Hl as [L F]
    end.
    split; [cbn; now rewrite L|].
    constructor; [|exact F].
    unfold frame_position.
    cbn [FootballAI.pos_x FootballAI.pos_y FootballAI.pos_width FootballAI.pos_height].
    repeat split.
    + exact (@kept_within_step 5 95 _ _ ltac:(lia)).
    + exact (@kept_within_step 5 95 _ _ ltac:(lia)).
    + exact (@kept_within_step 5 20 _ _ ltac:(lia)).
    + exact (@kept_within_step 10 30 _ _ ltac:(lia)).
Qed.

(** What the static-frame analysis guarantees for a detection it
    returns. *)
Definition in_frame (ts : Q) (p : FootballAI.PlayerDetection) : Prop :=
  (0 <= FootballAI.x p /\ FootballAI.x p <= 98)
  /\ (0 <= FootballAI.y p /\ FootballAI.y p <= 98)
  /\ (4 <= FootballAI.width p /\ FootballAI.width p <= 18)
  /\ (8 <= FootballAI.height p /\ FootballAI.height p <= 28)
  /\ (6 # 10 <= FootballAI.confidence p /\ FootballAI.confidence p <= 1)
  /\ FootballAI.isReferee p = false
  /\ FootballAI.timestamp p = ts
  /\ FootballAI.timestamps (FootballAI.movementPattern p) = [5; 10; 15; 20; 25; 30; 35]
  /\ length (FootballAI.positions (FootballAI.movementPattern p)) = 7%nat
  /\ Forall frame_position (FootballAI.positions (FootballAI.movementPattern p)).

Lemma movement_pattern_of n currentX currentY currentWidth currentHeight w pattern w' :
  (ps <- FootballAI.movement_loop n currentX currentY currentWidth currentHeight ;;
   ret (FootballAI.MkMovementPattern [5; 10; 15; 20; 25; 30; 35] ps)) w
  = (Ok pattern, w') ->
  FootballAI.timestamps pattern = [5; 10; 15; 20; 25; 30; 35]
  /\ length (FootballAI.positions pattern) = n
  /\ Forall frame_position (FootballAI.positions pattern).
Proof.
  intro H. invert_run.
  match goal with
  | Hl : FootballAI.movement_loop _ _ _ _ _ _ = (Ok _, _) |- _ =>
      apply movement_loop_positions in Hl as [L F]
  end.
  cbn [FootballAI.timestamps FootballAI.positions].
  repeat split; assumption.
Qed.

Lemma movement_pattern_unfold startX startY startWidth startHeight :
  FootballAI.generateRealisticMovementPatternWithBounds startX startY startWidth startHeight
  = (ps <- FootballAI.movement_loop 7 (plus_number startX 0) (plus_number startY 0)
                                    (plus_number startWidth 0) (plus_number startHeight 0) ;;
     ret (FootballAI.MkMovementPattern [5; 10; 15; 20; 25; 30; 35] ps)).
Proof. reflexivity. Qed.

Lemma frame_processPlayer_pattern teamColors_ ts player index w p w' :
  FootballAI.processPlayer teamColors_ ts player index w = (Ok p, w') ->
  FootballAI.timestamps (FootballAI.movementPattern p) = [5; 10; 15; 20; 25; 30; 35]
  /\ length (FootballAI.positions (FootballAI.movementPattern p)) = 7%nat
  /\ Forall frame_position (FootballAI.positions (FootballAI.movementPattern p)).
Proof.
  unfold FootballAI.processPlayer. intro H. invert_run.
  match goal with
  | Hg : FootballAI.generateRealisticMovementPatternWithBounds _ _ _ _ _ = (Ok _, _) |- _ =>
      rewrite movement_pattern_unfold in Hg; apply movement_pattern_of in Hg;
      cbn [FootballAI.movementPattern]; exact Hg
  end.
Qed.

Lemma frame_processPlayer_in_frame teamColors_ ts player index w p w' :
  FootballAI.processPlayer teamColors_ ts player index w = (Ok p, w') ->
  in_frame ts p.
Proof.
  intro H.
  pose proof (processPlayer_fields _ _ _ _ _ H)
    as (_ & Hx & Hy & Hw & Hh & Hc & _ & _ & _ & Ht & Hr).
  pose proof (frame_processPlayer_pattern _ _ _ _ _ H) as (P1 & P2 & P3).
  unfold in_frame. rewrite Hx, Hy, Hw, Hh, Hc.
  split; [apply clamp_bounds; lra|]. split; [apply clamp_bounds; lra|].
  split; [apply clamp_bounds; lra|]. split; [apply clamp_bounds; lra|].
  split; [apply clamp_bounds; lra|].
  repeat split; assumption.
Qed.

Lemma frame_analysis_players ts a :
  frame_analysis ts a ->
  FootballAI.players a <> [] /\ Forall (fun player => player <> JNull) (FootballAI.players a).
Proof.
  intros [->|(t & H)].
  - split; [discriminate|]. cbn. repeat constructor; discriminate.
  - apply read_analysis_players in H as [H N]. split; [exact N|].
    eapply Forall_impl; [|exact H]. intros player V ->. discriminate V.
Qed.

(** A run of the static-frame analysis with an initialised model. *)
Lemma frame_analysis_run (frameDataUrl : text) (ts : Q) (w : World) :
  exists ps w' new n,
    FootballAI.analyzeStaticFrameForPlayers (Ok tt) frameDataUrl ts w = (Ok ps, w')
    /\ trace w' = trace w ++ new
    /\ requests new
       = repeat (GenerateFromFrame (FootballAI.split_comma_1 frameDataUrl)) n
    /\ (1 <= n <= FootballAI.maxAttempts)%nat
    /\ sleeps new = map retry_delay (seq 1 (n - 1))
    /\ ps <> []
    /\ Forall (in_frame ts) ps.
Proof.
  destruct (@frame_attempts_shape frameDataUrl ts 5 w ltac:(lia))
    as (r & w1 & new & n & R & T & Rq & N & Sl & G).
  destruct (G ltac:(lia)) as (Hn & a & -> & Ha).
  destruct (frame_analysis_players Ha) as [Hne Hnn].
  assert (Q : quiet (mapi_M (FootballAI.processPlayer (FootballAI.teamColors a) ts)
                            (FootballAI.players a) 0)).
  { apply quiet_mapi_M with (P := fun player => player <> JNull); [|exact Hnn].
    intros player i Hp. now apply quiet_frame_processPlayer. }
  destruct (Q w1) as (ps & w2 & E & T2 & _).
  exists ps, w2, new, n.
  split.
  { unfold FootballAI.analyzeStaticFrameForPlayers, try_catch.
    unfold bind at 1. unfold lift at 1. unfold bind at 1.
    unfold FootballAI.maxAttempts. rewrite R. rewrite E. reflexivity. }
  split; [congruence|]. split; [exact Rq|].
  split; [unfold FootballAI.maxAttempts; lia|]. split; [exact Sl|].
  split.
  - apply mapi_M_length in E. intros ->. cbn in E.
    destruct (FootballAI.players a); [now apply Hne | discriminate E].
  - eapply mapi_M_Forall; [|exact E].
    intros player i w0 p w0' Hp. exact (frame_processPlayer_in_frame _ _ _ _ _ Hp).
Qed.

(** X11.  With an initialised model [analyzeStaticFrameForPlayers] never
    fails: whatever the model answers, it returns at least one detection,
    and every detection it returns has [x] and [y] in [0, 98], a width in
    [4, 18], a height in [8, 28], a confidence in [0.6, 1], is no referee,
    carries the timestamp of the frame and has a movement pattern of seven
    positions at the seconds 5, 10, ..., 35 whose numeric coordinates stay
    in [5, 95], widths in [5, 20] and heights in [10, 30].  When the
    initialisation fails it throws that error under its own prefix and
    makes no request. *)
Theorem frame_analysis_always_answers (init : result unit) (frameDataUrl : text)
  (ts : Q) (w : World) :
  match init with
  | Ok _ =>
      exists ps w',
        FootballAI.analyzeStaticFrameForPlayers init frameDataUrl ts w = (Ok ps, w')
        /\ ps <> []
        /\ Forall (in_frame ts) ps
  | Throw e =>
      exists w' new,
        FootballAI.analyzeStaticFrameForPlayers init frameDataUrl ts w
        = (Throw (ErrFrom FootballAI.failure_prefix e), w')
        /\ trace w' = trace w ++ new
        /\ requests new = []
  end.
Proof.
  destruct init as [[]|e].
  - destruct (frame_analysis_run frameDataUrl ts w)
      as (ps & w' & new & n & E & _ & _ & _ & _ & Hne & F).
    now exists ps, w'.
  - exists w, []. rewrite app_nil_r. repeat split.
Qed.

(** X12.  In any world the static-frame analysis makes between one and
    five requests, all of them the same inference request with the part
    of the frame's data URL after its first comma, and between two
    requests it sleeps 2000 ms times the number of the attempt that
    failed: 2000, 4000, 6000 and 8000 ms before the second, third, fourth
    and fifth request.  It does not sleep after its last attempt. *)
Theorem frame_analysis_attempts (frameDataUrl : text) (ts : Q) (w : World) :
  exists new n,
    trace (snd (FootballAI.analyzeStaticFrameForPlayers (Ok tt) frameDataUrl ts w))
    = trace w ++ new
    /\ requests new
       = repeat (GenerateFromFrame (FootballAI.split_comma_1 frameDataUrl)) n
    /\ (1 <= n <= FootballAI.maxAttempts)%nat
    /\ sleeps new = map retry_delay (seq 1 (n - 1)).
Proof.
  destruct (frame_analysis_run frameDataUrl ts w)
    as (ps & w' & new & n & E & T & Rq & N & Sl & _).
  exists new, n. rewrite E. cbn [snd]. now repeat split.
Qed.

(* ----------------------------------------------------------------- *)
(** ** Compression before the performance analysis *)

(** How [preprocessVideoFile] ends for a file within the limit of the
    Files API. *)
Lemma preprocess_run (compressVideo : File -> Q -> M File) (videoFile : File) (w : World) :
  (Z.of_N (file_size videoFile) <= FootballAI.MAX_FILE_SIZE)%Z ->
  exists processedFile w1,
    FootballAI.preprocessVideoFile compressVideo videoFile w = (Ok processedFile, w1)
    /\ ((Z.of_N (file_size videoFile) <= FootballAI.RECOMMENDED_SIZE)%Z ->
        processedFile = videoFile /\ w1 = w)
    /\ ((FootballAI.RECOMMENDED_SIZE < Z.of_N (file_size videoFile))%Z ->
        exists targetSize,
          In targetSize [100; 120; 150]
          /\ (compressVideo videoFile targetSize w = (Ok processedFile, w1)
              \/ (processedFile = videoFile
                  /\ exists e, compressVideo videoFile targetSize w = (Throw e, w1)))).
Proof.
  intro Hmax. unfold FootballAI.preprocessVideoFile.
  destruct (Z.ltb_spec FootballAI.RECOMMENDED_SIZE (Z.of_N (file_size videoFile)))
    as [Hbig|Hsmall].
  - unfold try_catch.
    match goal with
    | |- context [compressVideo videoFile ?t w] =>
        assert (Ht : In t [100; 120; 150])
          by (repeat match goal with
                     | |- context [if ?c then _ else _] => destruct c
                     end; cbn; tauto);
        set (targetSize := t) in *
    end.
    destruct (compressVideo videoFile targetSize w) as [[compressedFile|e] w1] eqn:E.
    + exists compressedFile, w1. split; [reflexivity|]. split; [lia|].
      intros _. exists targetSize. split; [exact Ht|]. now left.
    + destruct (Z.leb_spec (Z.of_N (file_size videoFile)) FootballAI.MAX_FILE_SIZE);
        [|lia].
      exists videoFile, w1. split; [reflexivity|]. split; [lia|].
      intros _. exists targetSize. split; [exact Ht|]. right. split; [reflexivity|].
      now exists e.
  - exists videoFile, w. split; [reflexivity|]. split; [now split | lia].
Qed.

(** X13.  For a video that passes the guards of [analyzePlayerPerformance]
    (not empty, a player name that is not blank, at most 2 GiB) and a
    compressor that settles, as every [compressVideo] of this development
    does, [preprocessVideoFile] returns a file: a file of at most 200 MiB
    is handed on as it is and the compressor is not called; a larger one
    is compressed to a target of 100, 120 or 150 MB, and when the
    compressor rejects the original file is handed on.  What the method
    does next depends on the configuration: with both Supabase variables
    set it is the server call on that file under the method's own [catch];
    with one of them missing the method throws the configuration error
    and the server is not called. *)
Theorem failed_compression_hands_on_the_original (A : Type)
  (compressVideo : File -> Q -> M File) (configured : bool) (server : File -> M A)
  (videoFile : File) (playerName : text) (w : World) :
  file_size videoFile <> 0%N ->
  trim playerName <> [] ->
  (Z.of_N (file_size videoFile) <= FootballAI.MAX_FILE_SIZE)%Z ->
  exists processedFile w1,
    FootballAI.preprocessVideoFile compressVideo videoFile w = (Ok processedFile, w1)
    /\ ((Z.of_N (file_size videoFile) <= FootballAI.RECOMMENDED_SIZE)%Z ->
        processedFile = videoFile /\ w1 = w)
    /\ ((FootballAI.RECOMMENDED_SIZE < Z.of_N (file_size videoFile))%Z ->
        exists targetSize,
          In targetSize [100; 120; 150]
          /\ (compressVideo videoFile targetSize w = (Ok processedFile, w1)
              \/ (processedFile = videoFile
                  /\ exists e, compressVideo videoFile targetSize w = (Throw e, w1))))
    /\ FootballAI.analyzePlayerPerformance videoFile playerName
         (FootballAI.after_guards compressVideo configured server videoFile) w
       = if configured
         then try_catch (server processedFile)
                        (fun error => throw (FootballAI.classify_performance error)) w1
         else (Throw (Err "Server-side processing environment not configured. Please configure Supabase environment variables to use Gemini for video file processing."), w1).
Proof.
  intros Hsize Hname Hmax.
  destruct (preprocess_run compressVideo videoFile w Hmax)
    as (processedFile & w1 & E & Hsmall & Hbig).
  exists processedFile, w1. split; [exact E|]. split; [exact Hsmall|].
  split; [exact Hbig|].
  unfold FootballAI.analyzePlayerPerformance, FootballAI.after_guards.
  destruct (N.eqb_spec (file_size videoFile) 0) as [|_]; [contradiction|].
  destruct (Nat.eqb_spec (length (trim playerName)) 0) as [Hl|_].
  { destruct (trim playerName); [contradiction | discriminate Hl]. }
  destruct (Z.ltb_spec FootballAI.MAX_FILE_SIZE (Z.of_N (file_size videoFile)));
    [lia|].
  unfold try_catch. unfold bind at 1. rewrite E.
  destruct configured; [reflexivity|].
  unfold throw.
  replace (FootballAI.classify_performance (Err "Server-side processing environment not configured. Please configure Supabase environment variables to use Gemini for video file processing."))
    with (Err "Server-side processing environment not configured. Please configure Supabase environment variables to use Gemini for video file processing.")
    by (vm_compute; reflexivity).
  reflexivity.
Qed.

(** A compressor that always fails, and a server call that returns the
    size of the file it is given. *)
Definition broken_compressor (videoFile : File) (targetSizeMB : Q) : M File :=
  throw (Err "canvas unavailable").

Definition size_seen (processedFile : File) : M N := ret (file_size processedFile).

Lemma failed_compression_hands_on_the_original_witness :
  exists processedFile w1,
    FootballAI.preprocessVideoFile broken_compressor
      (video_of_size (300 * 1024 * 1024)) offline = (Ok processedFile, w1)
    /\ processedFile = video_of_size (300 * 1024 * 1024)
    /\ FootballAI.analyzePlayerPerformance (video_of_size (300 * 1024 * 1024)) (u "Leo")
         (FootballAI.after_guards broken_compressor true size_seen
            (video_of_size (300 * 1024 * 1024))) offline
       = (Ok (300 * 1024 * 1024)%N, offline).
Proof.
  destruct (@failed_compression_hands_on_the_original N broken_compressor true size_seen
              (video_of_size (300 * 1024 * 1024)) (u "Leo") offline)
    as (processedFile & w1 & E & _ & Hbig & R).
  - discriminate.
  - vm_compute. discriminate.
  - vm_compute. discriminate.
  - exists processedFile, w1. split; [exact E|].
    destruct Hbig as (targetSize & _ & [H|[-> (e & H)]]).
    + vm_compute. reflexivity.
    + discriminate H.
    + split; [reflexivity|]. rewrite R.
      unfold broken_compressor, throw in H. injection H as _ <-. reflexivity.
Defined.

(** Without the Supabase variables the same call ends in the configuration
    error, whatever the server would have answered. *)
Example performance_analysis_not_configured :
  fst (FootballAI.analyzePlayerPerformance (video_of_size (300 * 1024 * 1024)) (u "Leo")
         (FootballAI.after_guards broken_compressor false size_seen
            (video_of_size (300 * 1024 * 1024))) offline)
  = Throw (Err "Server-side processing environment not configured. Please configure Supabase environment variables to use Gemini for video file processing.").
Proof. vm_compute. reflexivity. Qed.

(* ----------------------------------------------------------------- *)
(** ** The average of a player's history *)

(** The scores of a match within the bounds the server-side validator
    keeps them in. *)
Definition valid_scores (d : App.PerformanceData) : Prop :=
  within 0 100 (App.overall d)
  /\ within 0 100 (App.speed d)
  /\ within 0 100 (App.passing d)
  /\ within 0 100 (App.positioning d)
  /\ within 0 500 (App.touches d)
  /\ within 0 20 (App.distance d)
  /\ within 0 50 (App.topSpeed d)
  /\ within 0 100 (App.passAccuracy d)
  /\ within 0 100 (App.right (App.dominantFoot d))
  /\ within 0 100 (App.left (App.dominantFoot d)).

(** No score is a number. *)
Definition no_scores (d : App.PerformanceData) : Prop :=
  App.overall d = NaN /\ App.speed d = NaN /\ App.passing d = NaN
  /\ App.positioning d = NaN /\ App.touches d = NaN /\ App.distance d = NaN
  /\ App.topSpeed d = NaN /\ App.passAccuracy d = NaN
  /\ App.right (App.dominantFoot d) = NaN /\ App.left (App.dominantFoot d) = NaN.

Lemma sum_fold (f : App.PerformanceData -> num) (g : App.Sums -> num) :
  (forall acc curr, g (App.add acc curr) = num_plus (g acc) (f curr)) ->
  forall history acc,
    g (fold_left App.add history acc) = fold_left num_plus (map f history) (g acc).
Proof.
  intro H. induction history as [|d history IH]; intro acc; cbn; [reflexivity|].
  now rewrite IH, H.
Qed.

Lemma sum_within (lo hi : Q) :
  forall l a,
    Forall (within lo hi) l ->
    exists s,
      fold_left num_plus l (Fin a) = Fin s
      /\ a + lo * inject_Z (Z.of_nat (length l)) <= s
      /\ s <= a + hi * inject_Z (Z.of_nat (length l)).
Proof.
  induction l as [|v l IH]; intros a H.
  - exists a. split; [reflexivity|].
    change (inject_Z (Z.of_nat (length (@nil num)))) with 0. split; lra.
  - inversion H as [|? ? (q & -> & L & U) Hl]; subst.
    cbn [fold_left num_plus].
    destruct (IH (a + q) Hl) as (s & E & A & B).
    exists s. split; [exact E|].
    cbn [length]. rewrite Nat2Z.inj_succ, <- Z.add_1_r, inject_Z_plus.
    change (inject_Z 1) with 1. split; nra.
Qed.

(** [Math.round] does not leave an interval whose ends are whole numbers. *)
Lemma Math_round_within (lo hi : Z) (q : Q) :
  inject_Z lo <= q -> q <= inject_Z hi ->
  inject_Z lo <= inject_Z (Math_round q) /\ inject_Z (Math_round q) <= inject_Z hi.
Proof.
  intros L H. unfold Math_round.
  split; rewrite <- Zle_Qle.
  - rewrite <- (Qfloor_Z lo). apply Qfloor_resp_le. lra.
  - assert (Qfloor (q + (1 # 2)) < hi + 1)%Z; [|lia].
    rewrite Zlt_Qlt. eapply Qle_lt_trans; [apply Qfloor_le|].
    rewrite inject_Z_plus. change (inject_Z 1) with 1. lra.
Qed.

(** The mean of [n] numbers between [lo] and [hi]. *)
Lemma mean_within (lo hi : Q) (l : list num) (n : nat) :
  n = length l ->
  l <> [] ->
  Forall (within lo hi) l ->
  exists m,
    num_over (fold_left num_plus l (Fin 0)) (inject_Z (Z.of_nat n)) = Fin m
    /\ lo <= m /\ m <= hi.
Proof.
  intros -> Hne H.
  destruct (sum_within 0 H) as (s & -> & A & B).
  assert (Hn : 0 < inject_Z (Z.of_nat (length l))).
  { destruct l; [contradiction|]. cbn [length].
    change 0 with (inject_Z 0). rewrite <- Zlt_Qlt. lia. }
  unfold num_over.
  destruct (Qeq_bool _ 0) eqn:E; [apply Qeq_bool_iff in E; lra|].
  eexists. split; [reflexivity|].
  split; [apply Qle_shift_div_l | apply Qle_shift_div_r]; try exact Hn; lra.
Qed.

Lemma rounded_mean_within (lo hi : Z) (l : list num) (n : nat) :
  n = length l ->
  l <> [] ->
  Forall (within (inject_Z lo) (inject_Z hi)) l ->
  within (inject_Z lo) (inject_Z hi)
    (num_round (num_over (fold_left num_plus l (Fin 0)) (inject_Z (Z.of_nat n)))).
Proof.
  intros Hn Hne H. destruct (mean_within Hn Hne H) as (m & -> & A & B).
  eexists. split; [reflexivity|]. now apply Math_round_within.
Qed.

Lemma tenths_mean_within (lo hi : Z) (l : list num) (n : nat) :
  n = length l ->
  l <> [] ->
  Forall (within (inject_Z lo) (inject_Z hi)) l ->
  within (inject_Z lo) (inject_Z hi)
    (num_over
       (num_round
          (num_times (num_over (fold_left num_plus l (Fin 0)) (inject_Z (Z.of_nat n))) 10))
       10).
Proof.
  intros Hn Hne H. destruct (mean_within Hn Hne H) as (m & -> & A & B).
  cbn [num_times num_round]. unfold num_over.
  change (Qeq_bool 10 0) with false. cbv iota.
  eexists. split; [reflexivity|].
  exact (round1_within A B).
Qed.

Lemma map_within (f : App.PerformanceData -> num) (lo hi : Q) history :
  Forall (fun d => within lo hi (f d)) history ->
  Forall (within lo hi) (map f history).
Proof. intro H. apply Forall_map. exact H. Qed.

(** X14.  [calculateAveragePerformance] keeps the bounds of the
    validator: for a history that is not empty and whose matches all have
    their scores within bounds (0 to 100, touches up to 500, distance up to
    20, top speed up to 50), every score of the average is a number within
    the same bounds, the rounding to a whole number or to a tenth
    included.  For the empty history every score of the average is [NaN].
    In both cases the average has the match id [average], no opponent and
    the current time as its date, and nothing else happens. *)
Theorem average_keeps_the_bounds (history : list App.PerformanceData) (w : World) :
  Forall valid_scores history ->
  exists average,
    App.calculateAveragePerformance history w = (Ok average, w)
    /\ App.matchId average = JStr (u "average")
    /\ App.opponent average = None
    /\ App.date average = PlayerPerformance.IsoOfNow (clock w)
    /\ match history with
       | [] => no_scores average
       | _ :: _ => valid_scores average
       end.
Proof.
  intro H. eexists. split; [reflexivity|].
  split; [reflexivity|]. split; [reflexivity|]. split; [reflexivity|].
  destruct history as [|d0 history'] eqn:Eh.
  - repeat split.
  - rewrite <- Eh in *.
    assert (Hne : forall f : App.PerformanceData -> num, map f history <> []).
    { intro f. rewrite Eh. discriminate. }
    assert (Hl : forall f : App.PerformanceData -> num,
               length history = length (map f history)).
    { intro f. now rewrite length_map. }
    clear Eh.
    unfold valid_scores.
    cbn [App.overall App.speed App.passing App.positioning App.touches App.distance
         App.topSpeed App.passAccuracy App.dominantFoot App.right App.left].
    rewrite (@sum_fold App.overall App.sum_overall); [|reflexivity].
    rewrite (@sum_fold App.speed App.sum_speed); [|reflexivity].
    rewrite (@sum_fold App.passing App.sum_passing); [|reflexivity].
    rewrite (@sum_fold App.positioning App.sum_positioning); [|reflexivity].
    rewrite (@sum_fold App.touches App.sum_touches); [|reflexivity].
    rewrite (@sum_fold App.distance App.sum_distance); [|reflexivity].
    rewrite (@sum_fold App.topSpeed App.sum_topSpeed); [|reflexivity].
    rewrite (@sum_fold App.passAccuracy App.sum_passAccuracy); [|reflexivity].
    rewrite (@sum_fold (fun d => App.right (App.dominantFoot d)) App.sum_right); [|reflexivity].
    rewrite (@sum_fold (fun d => App.left (App.dominantFoot d)) App.sum_left); [|reflexivity].
    cbn [App.zero App.sum_overall App.sum_speed App.sum_passing App.sum_positioning
         App.sum_touches App.sum_distance App.sum_topSpeed App.sum_passAccuracy
         App.sum_right App.sum_left].
    repeat split.
    + apply (@rounded_mean_within 0 100); [apply Hl | apply Hne |]. apply map_within.
      eapply Forall_impl; [|exact H]. intros d V. apply V.
    + apply (@rounded_mean_within 0 100); [apply Hl | apply Hne |]. apply map_within.
      eapply Forall_impl; [|exact H]. intros d V. apply V.
    + apply (@rounded_mean_within 0 100); [apply Hl | apply Hne |]. apply map_within.
      eapply Forall_impl; [|exact H]. intros d V. apply V.
    + apply (@rounded_mean_within 0 100); [apply Hl | apply Hne |]. apply map_within.
      eapply Forall_impl; [|exact H]. intros d V. apply V.
    + apply (@rounded_mean_within 0 500); [apply Hl | apply Hne |]. apply map_within.
      eapply Forall_impl; [|exact H]. intros d V. apply V.
    + apply (@tenths_mean_within 0 20); [apply Hl | apply Hne |]. apply map_within.
      eapply Forall_impl; [|exact H]. intros d V. apply V.
    + apply (@tenths_mean_within 0 50); [apply Hl | apply Hne |]. apply map_within.
      eapply Forall_impl; [|exact H]. intros d V. apply V.
    + apply (@rounded_mean_within 0 100); [apply Hl | apply Hne |]. apply map_within.
      eapply Forall_impl; [|exact H]. intros d V. apply V.
    + apply (@rounded_mean_within 0 100); [apply Hl | apply Hne |]. apply map_within.
      eapply Forall_impl; [|exact H]. intros d V. apply V.
    + apply (@rounded_mean_within 0 100); [apply Hl | apply Hne |]. apply map_within.
      eapply Forall_impl; [|exact H]. intros d V. apply V.
Qed.

(** Two matches of a player. *)
Definition first_match : App.PerformanceData :=
  App.MkPerformanceData (JStr (u "match_1")) (PlayerPerformance.IsoOfNow 1) None
    (Fin 80) (Fin 84) (Fin 77) (Fin 81) (Fin 120) (Fin (15 # 2)) (Fin (45 # 2)) (Fin 85)
    (App.MkDominantFoot (Fin 65) (Fin 35)).

Definition second_match : App.PerformanceData :=
  App.MkPerformanceData (JStr (u "match_2")) (PlayerPerformance.IsoOfNow 2) None
    (Fin 81) (Fin 90) (Fin 70) (Fin 82) (Fin 131) (Fin (829 # 100)) (Fin 25) (Fin 88)
    (App.MkDominantFoot (Fin 70) (Fin 30)).

Lemma average_keeps_the_bounds_witness :
  Forall valid_scores [first_match; second_match]
  /\ exists average,
       App.calculateAveragePerformance [first_match; second_match] offline
       = (Ok average, offline)
       /\ valid_scores average.
Proof.
  assert (H : Forall valid_scores [first_match; second_match]).
  { repeat constructor; eexists; (split; [reflexivity|]); split; discriminate. }
  split; [exact H|].
  destruct (@average_keeps_the_bounds [first_match; second_match] offline H)
    as (average & E & _ & _ & _ & V).
  exists average. split; [exact E | exact V].
Defined.

(* ----------------------------------------------------------------- *)
(** ** Improvements against the history *)

Lemma nth_error_before_last {A} (l : list A) (a b : A) :
  nth_error (l ++ [a; b]) (length (l ++ [a; b]) - 2) = Some a.
Proof.
  rewrite length_app. cbn [length].
  replace (length l + 2 - 2)%nat with (length l + 0)%nat by lia.
  rewrite nth_error_app2 by lia.
  replace (length l + 0 - length l)%nat with 0%nat by lia. reflexivity.
Qed.

(** X15.  [detectImprovements] compares the latest analysis with the
    entry before the last of the history it is given and with nothing
    else: the last entry of the history and every entry before the
    second-to-last have no influence on the result.  For a history of
    fewer than two entries it reports no improvement. *)
Theorem improvements_compare_with_the_entry_before_last
  (history : list App.PerformanceData)
  (only previous last other latest : App.PerformanceData) :
  App.detectImprovements [] latest = Ok []
  /\ App.detectImprovements [only] latest = Ok []
  /\ App.detectImprovements (history ++ [previous; last]) latest
     = App.detectImprovements [previous; other] latest.
Proof.
  split; [reflexivity|]. split; [reflexivity|].
  unfold App.detectImprovements.
  rewrite (nth_error_before_last history previous last).
  destruct (Nat.ltb_spec (length (history ++ [previous; last])) 2) as [Hl|_].
  - rewrite length_app in Hl. cbn [length] in Hl. lia.
  - reflexivity.
Qed.
